(** * temp-auth-parser: authenticated fetch, catalog links, page records

    A shallow embedding of [auth.py], [catalog_parser.py] and
    [page_parser.py].  Python strings are byte strings holding UTF-8 text.
    The network, the HTML parser and the CSS selector engine are libraries
    outside the repository: they enter as the type classes [Network] and
    [Html].  [urllib.parse.urljoin], [str.strip], the substring test,
    [get_text] over the strings of an element and the two pandas calls are
    modelled as executable functions; what pandas makes of a [None] depends
    on its version, which enters as [Pandas.Options]. *)

From Stdlib Require Import String Ascii List ZArith Bool Lia DecimalString.
Import ListNotations.
Local Open Scope string_scope.
Local Open Scope Z_scope.

(* ===================================================================== *)
(** ** Python values: exceptions, results, strings, dicts                *)
(* ===================================================================== *)

Module Py.

(** The exceptions that matter to the three modules.  [InvalidURL] stands for
    the requests exceptions that derive from both [RequestException] and
    [ValueError] (InvalidURL, MissingSchema, InvalidSchema, ...). *)
Inductive exn : Type :=
| ConnectionError
| Timeout
| InvalidURL
| ValueError
| KeyError (key : string)
| SelectorSyntaxError
| OtherError (name : string).

(** What a call of a method on an object that lacks it raises. *)
Definition AttributeError : exn := OtherError "AttributeError".

(** [isinstance(e, requests.RequestException)] *)
Definition is_RequestException (e : exn) : bool :=
  match e with
  | ConnectionError | Timeout | InvalidURL => true
  | _ => false
  end.

(** [isinstance(e, ValueError)] *)
Definition is_ValueError (e : exn) : bool :=
  match e with
  | InvalidURL | ValueError => true
  | _ => false
  end.

(** A call either returns a value or raises. *)
Inductive outcome (A : Type) : Type :=
| Ret (a : A)
| Raise (e : exn).
Arguments Ret {A} a.
Arguments Raise {A} e.

Definition returns {A} (o : outcome A) : bool :=
  match o with Ret _ => true | Raise _ => false end.

Definition obind {A B} (o : outcome A) (k : A -> outcome B) : outcome B :=
  match o with Ret a => k a | Raise e => Raise e end.

(** *** Strings *)

Definition chars (s : string) : list ascii := list_ascii_of_string s.
Definition str (l : list ascii) : string := string_of_list_ascii l.

Definition code (c : ascii) : Z := Z.of_N (N_of_ascii c).

(** [bool(s)] for a string: non-empty. *)
Definition truthy (s : string) : bool :=
  match s with EmptyString => false | _ => true end.

(** [needle in hay] *)
Fixpoint contains (needle hay : string) : bool :=
  if String.prefix needle hay then true
  else match hay with
       | EmptyString => false
       | String _ rest => contains needle rest
       end.

(** One-byte white space of [str.isspace]: U+0009..U+000D, U+001C..U+0020. *)
Definition is_space1 (c : ascii) : bool :=
  let n := code c in
  ((9 <=? n) && (n <=? 13)) || ((28 <=? n) && (n <=? 32)).

(** U+0085 and U+00A0, encoded C2 85 and C2 A0. *)
Definition is_space2 (c1 c2 : ascii) : bool :=
  (code c1 =? 194) && ((code c2 =? 133) || (code c2 =? 160)).

(** U+1680, U+2000..U+200A, U+2028, U+2029, U+202F, U+205F, U+3000. *)
Definition is_space3 (c1 c2 c3 : ascii) : bool :=
  let a := code c1 in let b := code c2 in let c := code c3 in
  ((a =? 225) && (b =? 154) && (c =? 128))
  || ((a =? 226) && (b =? 128)
      && (((128 <=? c) && (c <=? 138)) || (c =? 168) || (c =? 169) || (c =? 175)))
  || ((a =? 226) && (b =? 129) && (c =? 159))
  || ((a =? 227) && (b =? 128) && (c =? 128)).

(** [lstrip] on the byte list; [rev3] tells that the list is read backwards,
    so that multi-byte code points arrive last byte first. *)
Fixpoint lstrip_chars (rev3 : bool) (l : list ascii) : list ascii :=
  match l with
  | [] => []
  | c1 :: r1 =>
    if is_space1 c1 then lstrip_chars rev3 r1
    else match r1 with
         | [] => l
         | c2 :: r2 =>
           if (if rev3 then is_space2 c2 c1 else is_space2 c1 c2)
           then lstrip_chars rev3 r2
           else match r2 with
                | [] => l
                | c3 :: r3 =>
                  if (if rev3 then is_space3 c3 c2 c1 else is_space3 c1 c2 c3)
                  then lstrip_chars rev3 r3
                  else l
                end
         end
  end.

(** [s.strip()] *)
Definition strip (s : string) : string :=
  str (rev (lstrip_chars true (rev (lstrip_chars false (chars s))))).

(** [s in l] for a list of strings *)
Definition mem (s : string) (l : list string) : bool :=
  existsb (String.eqb s) l.

(** *** Dicts: insertion-ordered, keys unique *)

Definition dict (V : Type) : Type := list (string * V).

Fixpoint dict_get {V} (d : dict V) (k : string) : option V :=
  match d with
  | [] => None
  | (k', v) :: rest => if String.eqb k' k then Some v else dict_get rest k
  end.

(** [d[k] = v]: an existing key keeps its position, a new key goes last. *)
Fixpoint dict_set {V} (d : dict V) (k : string) (v : V) : dict V :=
  match d with
  | [] => [(k, v)]
  | (k', v') :: rest =>
    if String.eqb k' k then (k', v) :: rest else (k', v') :: dict_set rest k v
  end.

Definition dict_keys {V} (d : dict V) : list string := map fst d.

(** The invariant of a Python dict: no key twice. *)
Fixpoint unique_keys {V} (d : dict V) : bool :=
  match d with
  | [] => true
  | (k, _) :: rest => negb (mem k (dict_keys rest)) && unique_keys rest
  end.

Definition dict_has {V} (d : dict V) (k : string) : bool :=
  match dict_get d k with Some _ => true | None => false end.

(** [d.update(other)] *)
Definition dict_update {V} (d other : dict V) : dict V :=
  fold_left (fun acc kv => dict_set acc (fst kv) (snd kv)) other d.

(** [d.setdefault(k, v)], for its effect on [d]. *)
Definition dict_setdefault {V} (d : dict V) (k : string) (v : V) : dict V :=
  if dict_has d k then d else dict_set d k v.

End Py.

(* ===================================================================== *)
(** ** urllib.parse: a model of [urljoin]                                *)
(* ===================================================================== *)

(** [urljoin] belongs to the Python standard library, not to the repository.
    The model follows [urllib/parse.py] of CPython 3.11 to 3.13 with their
    security fixes, on [str] arguments: [urlsplit] with the checks that make
    it raise [ValueError] ([_check_bracketed_netloc], with the address
    parsers of [ipaddress], and [_checknetloc]), [urlparse] with
    [_splitparams], [urlunparse] and [urljoin] itself. *)
Module UrlParse.
Import Py.

Definition uses_relative : list string :=
  [""; "ftp"; "http"; "gopher"; "nntp"; "imap"; "wais"; "file"; "https";
   "shttp"; "mms"; "prospero"; "rtsp"; "rtspu"; "sftp"; "svn"; "svn+ssh";
   "ws"; "wss"].

Definition uses_netloc : list string :=
  [""; "ftp"; "http"; "gopher"; "nntp"; "telnet"; "imap"; "wais"; "file";
   "mms"; "https"; "shttp"; "snews"; "prospero"; "rtsp"; "rtspu"; "rsync";
   "svn"; "svn+ssh"; "sftp"; "nfs"; "git"; "git+ssh"; "ws"; "wss"].

Definition uses_params : list string :=
  [""; "ftp"; "hdl"; "prospero"; "http"; "imap"; "https"; "shttp"; "rtsp";
   "rtspu"; "sip"; "sips"; "mms"; "sftp"; "tel"].

Definition is_alpha (c : ascii) : bool :=
  let n := code c in
  ((65 <=? n) && (n <=? 90)) || ((97 <=? n) && (n <=? 122)).

Definition is_digit (c : ascii) : bool :=
  let n := code c in (48 <=? n) && (n <=? 57).

(** [scheme_chars]: letters, digits and [+-.] *)
Definition is_scheme_char (c : ascii) : bool :=
  is_alpha c || is_digit c || (code c =? 43) || (code c =? 45) || (code c =? 46).

Definition lower_char (c : ascii) : ascii :=
  let n := code c in
  if (65 <=? n) && (n <=? 90) then ascii_of_N (Z.to_N (n + 32)) else c.

Definition has_char (c : ascii) (l : list ascii) : bool :=
  existsb (Ascii.eqb c) l.

(** [bool(s)] on the characters *)
Definition nonempty (l : list ascii) : bool :=
  match l with [] => false | _ :: _ => true end.

(** [s.split(c, 1)] when [c] occurs: the text before and after its first
    occurrence. *)
Fixpoint cut (c : ascii) (l : list ascii) : option (list ascii * list ascii) :=
  match l with
  | [] => None
  | x :: r =>
    if Ascii.eqb x c then Some ([], r)
    else match cut c r with
         | Some (a, b) => Some (x :: a, b)
         | None => None
         end
  end.

(** [s.split(c)] *)
Fixpoint split (c : ascii) (l : list ascii) : list (list ascii) :=
  match l with
  | [] => [[]]
  | x :: r =>
    if Ascii.eqb x c then [] :: split c r
    else match split c r with
         | seg :: segs => (x :: seg) :: segs
         | [] => [[x]]
         end
  end.

(** [c.join(segs)] *)
Fixpoint join (c : ascii) (segs : list (list ascii)) : list ascii :=
  match segs with
  | [] => []
  | [seg] => seg
  | seg :: rest => seg ++ c :: join c rest
  end.

(** The longest prefix without a character satisfying [stop], and the rest. *)
Fixpoint span_until (stop : ascii -> bool) (l : list ascii)
  : list ascii * list ascii :=
  match l with
  | [] => ([], [])
  | x :: r =>
    if stop x then ([], l)
    else let (a, b) := span_until stop r in (x :: a, b)
  end.

Record SplitResult : Type := {
  scheme : string;
  netloc : string;
  path : string;
  query : string;
  fragment : string
}.

Record ParseResult : Type := {
  p_scheme : string;
  p_netloc : string;
  p_path : string;
  p_params : string;
  p_query : string;
  p_fragment : string
}.

Definition slash : ascii := "/"%char.

Definition seg_eqb (a b : list ascii) : bool := String.eqb (str a) (str b).

(** *** ipaddress: which strings are addresses *)

Definition is_hex (c : ascii) : bool :=
  let n := code c in
  is_digit c || ((65 <=? n) && (n <=? 70)) || ((97 <=? n) && (n <=? 102)).

(** [int(s, 10)] for a string of digits *)
Definition decimal (s : list ascii) : Z :=
  fold_left (fun acc c => 10 * acc + (code c - 48)) s 0.

(** [IPv4Address._parse_octet] returns. *)
Definition octet_ok (s : list ascii) : bool :=
  nonempty s
  && forallb is_digit s
  && (List.length s <=? 3)%nat
  && negb (negb (seg_eqb s (chars "0"))
           && match s with c :: _ => code c =? 48 | [] => false end)
  && (decimal s <=? 255).

(** [IPv4Address(s)] returns. *)
Definition IPv4_ok (s : list ascii) : bool :=
  negb (has_char slash s)
  && nonempty s
  && Nat.eqb (List.length (split "."%char s)) 4
  && forallb octet_ok (split "."%char s).

(** [IPv6Address._parse_hextet] returns. *)
Definition hextet_ok (s : list ascii) : bool :=
  forallb is_hex s && (List.length s <=? 4)%nat && nonempty s.

(** Position of the one empty part among [parts[1:-1]], as [skip_index];
    [None] when there is none, [Some None] when there are several. *)
Fixpoint skip_index (inner : list (list ascii)) (i : nat)
  : option (option nat) :=
  match inner with
  | [] => None
  | p :: rest =>
    if nonempty p then skip_index rest (Datatypes.S i)
    else match skip_index rest (Datatypes.S i) with
         | None => Some (Some i)
         | Some _ => Some None
         end
  end.

(** [IPv6Address._ip_int_from_string] returns. *)
Definition ip6_string_ok (ip_str : list ascii) : bool :=
  let parts := split ":"%char ip_str in
  let last_part := last parts [] in
  let v4 := has_char "."%char last_part in
  (* an IPv4-style suffix is replaced by its two hextets *)
  let parts := if v4 then (removelast parts ++ [chars "0"; chars "0"])%list
               else parts in
  let n := List.length parts in
  nonempty ip_str
  && (3 <=? List.length (split ":"%char ip_str))%nat
  && (if v4 then IPv4_ok last_part else true)
  && (n <=? 9)%nat
  && match skip_index (removelast (tl parts)) 1 with
     | Some None => false
     | Some (Some skip) =>
       let first_empty := negb (nonempty (hd [] parts)) in
       let last_empty := negb (nonempty (last parts [])) in
       let parts_hi := if first_empty then (skip - 1)%nat else skip in
       let parts_lo := if last_empty then (n - skip - 1 - 1)%nat
                       else (n - skip - 1)%nat in
       (if first_empty then Nat.eqb parts_hi 0 else true)
       && (if last_empty then Nat.eqb parts_lo 0 else true)
       && (parts_hi + parts_lo <=? 7)%nat
       && forallb hextet_ok (firstn parts_hi parts)
       && forallb hextet_ok (skipn (n - parts_lo) parts)
     | None =>
       Nat.eqb n 8
       && nonempty (hd [] parts)
       && nonempty (last parts [])
       && forallb hextet_ok parts
     end.

(** [IPv6Address(s)] returns: no slash, a scope id after [%] that is not
    empty and has no further [%], and an address before it. *)
Definition IPv6_ok (s : list ascii) : bool :=
  negb (has_char slash s)
  && match cut "%"%char s with
     | None => ip6_string_ok s
     | Some (addr, scope_id) =>
       nonempty scope_id && negb (has_char "%"%char scope_id)
       && ip6_string_ok addr
     end.

(** *** The checks of [urlsplit] on the network location *)

(** [_check_bracketed_host]: an IPvFuture address matching
    [\Av[a-fA-F0-9]+\..+\Z], or an IPv6 address. *)
Definition _check_bracketed_host (hostname : list ascii) : outcome unit :=
  match hostname with
  | c :: rest =>
    if code c =? 118 then
      match span_until (fun x => negb (is_hex x)) rest with
      | (_ :: _, d :: (_ :: _) as tail) =>
        if (code d =? 46) && forallb (fun x => negb (code x =? 10)) tail
        then Ret tt else Raise ValueError
      | _ => Raise ValueError
      end
    else if IPv4_ok hostname then Raise ValueError
    else if IPv6_ok hostname then Ret tt
    else Raise ValueError
  | [] => Raise ValueError
  end.

(** [_check_bracketed_netloc] *)
Definition _check_bracketed_netloc (netloc : list ascii) : outcome unit :=
  let hostname_and_port := last (split "@"%char netloc) [] in
  match cut "["%char hostname_and_port with
  | Some (before_bracket, bracketed) =>
    if nonempty before_bracket then Raise ValueError
    else
      let (hostname, port) :=
        match cut "]"%char bracketed with
        | Some (h, p) => (h, p)
        | None => (bracketed, [])
        end in
      if nonempty port
         && negb match port with c :: _ => code c =? 58 | [] => false end
      then Raise ValueError
      else _check_bracketed_host hostname
  | None =>
    _check_bracketed_host
      match cut ":"%char hostname_and_port with
      | Some (h, _) => h
      | None => hostname_and_port
      end
  end.

(** The characters whose NFKC form holds one of [/?#@:]: U+2047 to U+2049,
    U+2100, U+2101, U+2105, U+2106, U+2A74, U+FE13, U+FE16, U+FE55, U+FE56,
    U+FE5F, U+FE6B, U+FF03, U+FF0F, U+FF1A, U+FF1F and U+FF20. *)
Definition nfkc_delimiters : list string :=
  ["⁇"; "⁈"; "⁉"; "℀"; "℁"; "℅"; "℆"; "⩴"; "︓"; "︖"; "﹕"; "﹖"; "﹟"; "﹫";
   "＃"; "／"; "："; "？"; "＠"].

(** [_checknetloc], for a network location as [urlsplit] cuts it, without
    [/], [?] or [#]: its NFKC form, [@:#?] left out, holds one of [/?#@:]
    exactly when it has one of the characters above, none of the five being
    the base of a composite. *)
Definition _checknetloc (netloc : list ascii) : outcome unit :=
  if existsb (fun d => contains d (str netloc)) nfkc_delimiters
  then Raise ValueError else Ret tt.

(** *** [urlsplit] and [urlparse] *)

(** [url.lstrip(_WHATWG_C0_CONTROL_OR_SPACE)] *)
Fixpoint lstrip_c0 (l : list ascii) : list ascii :=
  match l with
  | x :: r => if code x <=? 32 then lstrip_c0 r else l
  | [] => []
  end.

(** [scheme.strip(_WHATWG_C0_CONTROL_OR_SPACE)] *)
Definition strip_c0 (l : list ascii) : list ascii :=
  rev (lstrip_c0 (rev (lstrip_c0 l))).

(** Removal of [_UNSAFE_URL_BYTES_TO_REMOVE]: tab, carriage return, newline. *)
Definition remove_unsafe (l : list ascii) : list ascii :=
  filter (fun x => negb ((code x =? 9) || (code x =? 10) || (code x =? 13))) l.

(** The scheme prefix of [urlsplit]: [url[:i]] for the first colon at [i > 0],
    when the url starts with a letter and [url[:i]] has scheme characters
    only. *)
Definition split_scheme (default : string) (l : list ascii)
  : string * list ascii :=
  match cut ":"%char l with
  | Some (c :: pre, post) =>
    if is_alpha c && forallb is_scheme_char (c :: pre)
    then (str (map lower_char (c :: pre)), post)
    else (default, l)
  | _ => (default, l)
  end.

Definition is_netloc_delim (c : ascii) : bool :=
  (code c =? 47) || (code c =? 63) || (code c =? 35).

(** [_splitnetloc(url, 2)] when [url[:2] == '//'], with the checks on the
    brackets that follow it. *)
Definition split_netloc (l : list ascii)
  : outcome (list ascii * list ascii) :=
  match l with
  | a :: b :: r =>
    if Ascii.eqb a slash && Ascii.eqb b slash
    then
      let (n, rest) := span_until is_netloc_delim r in
      if xorb (has_char "["%char n) (has_char "]"%char n)
      then Raise ValueError
      else if has_char "["%char n && has_char "]"%char n
      then obind (_check_bracketed_netloc n) (fun _ => Ret (n, rest))
      else Ret (n, rest)
    else Ret ([], l)
  | _ => Ret ([], l)
  end.

Definition urlsplit (url default_scheme : string) : outcome SplitResult :=
  let l := remove_unsafe (lstrip_c0 (chars url)) in
  let default := str (remove_unsafe (strip_c0 (chars default_scheme))) in
  let (sch, l1) := split_scheme default l in
  obind (split_netloc l1) (fun '(n, l2) =>
    let (l3, frag) :=
      match cut "#"%char l2 with Some (a, b) => (a, b) | None => (l2, []) end in
    let (l4, q) :=
      match cut "?"%char l3 with Some (a, b) => (a, b) | None => (l3, []) end in
    obind (_checknetloc n) (fun _ =>
      Ret {| scheme := sch; netloc := str n; path := str l4;
             query := str q; fragment := str frag |})).

(** [_splitparams]: the parameters follow the first semicolon of the last
    path segment. *)
Definition _splitparams (url : list ascii) : list ascii * list ascii :=
  let segs := split slash url in
  let last_seg := last segs [] in
  match cut ";"%char last_seg with
  | Some (a, b) => (join slash (removelast segs ++ [a]), b)
  | None => (url, [])
  end.

Definition urlparse (url default_scheme : string) : outcome ParseResult :=
  obind (urlsplit url default_scheme) (fun r =>
    let (p, prm) :=
      if mem (scheme r) uses_params && has_char ";"%char (chars (path r))
      then _splitparams (chars (path r))
      else (chars (path r), []) in
    Ret {| p_scheme := scheme r; p_netloc := netloc r; p_path := str p;
           p_params := str prm; p_query := query r;
           p_fragment := fragment r |}).

Definition starts_with_2slash (s : string) : bool := String.prefix "//" s.

Definition urlunsplit (r : SplitResult) : string :=
  let url := path r in
  let url :=
    if truthy (netloc r)
       || (truthy (scheme r) && mem (scheme r) uses_netloc
           && negb (starts_with_2slash url))
    then
      let url := if truthy url && negb (String.prefix "/" url)
                 then "/" ++ url else url in
      "//" ++ netloc r ++ url
    else url in
  let url := if truthy (scheme r) then scheme r ++ ":" ++ url else url in
  let url := if truthy (query r) then url ++ "?" ++ query r else url in
  if truthy (fragment r) then url ++ "#" ++ fragment r else url.

Definition urlunparse (r : ParseResult) : string :=
  let url := if truthy (p_params r)
             then p_path r ++ ";" ++ p_params r else p_path r in
  urlunsplit {| scheme := p_scheme r; netloc := p_netloc r; path := url;
                query := p_query r; fragment := p_fragment r |}.

(** [segments[1:-1] = filter(None, segments[1:-1])] *)
Definition drop_inner_empty (segs : list (list ascii)) : list (list ascii) :=
  match segs with
  | first :: (_ :: _) as rest =>
    first :: filter nonempty (removelast rest) ++ [last rest []]
  | _ => segs
  end.

Definition dot : list ascii := chars ".".
Definition dotdot : list ascii := chars "..".

(** The loop that resolves [.] and [..]; [acc] is [resolved_path]. *)
Fixpoint resolve (segs acc : list (list ascii)) : list (list ascii) :=
  match segs with
  | [] => acc
  | seg :: rest =>
    if seg_eqb seg dotdot then resolve rest (removelast acc)
    else if seg_eqb seg dot then resolve rest acc
    else resolve rest (acc ++ [seg])
  end.

Definition urljoin (base url : string) : outcome string :=
  if negb (truthy base) then Ret url
  else if negb (truthy url) then Ret base
  else
    obind (urlparse base "") (fun b =>
    obind (urlparse url (p_scheme b)) (fun u =>
      if negb (String.eqb (p_scheme u) (p_scheme b))
         || negb (mem (p_scheme u) uses_relative)
      then Ret url
      else if mem (p_scheme u) uses_netloc && truthy (p_netloc u)
      then Ret (urlunparse u)
      else
        let nl := if mem (p_scheme u) uses_netloc
                  then p_netloc b else p_netloc u in
        if negb (truthy (p_path u)) && negb (truthy (p_params u))
        then
          Ret (urlunparse
                 {| p_scheme := p_scheme u; p_netloc := nl;
                    p_path := p_path b; p_params := p_params b;
                    p_query := if truthy (p_query u)
                               then p_query u else p_query b;
                    p_fragment := p_fragment u |})
        else
          let base_parts := split slash (chars (p_path b)) in
          let base_parts :=
            if nonempty (last base_parts [])
            then removelast base_parts else base_parts in
          let segments :=
            if String.prefix "/" (p_path u)
            then split slash (chars (p_path u))
            else drop_inner_empty
                   (base_parts ++ split slash (chars (p_path u)))%list in
          let resolved := resolve segments [] in
          let resolved :=
            if seg_eqb (last segments []) dot || seg_eqb (last segments []) dotdot
            then (resolved ++ [[]])%list else resolved in
          let joined := str (join slash resolved) in
          Ret (urlunparse
                 {| p_scheme := p_scheme u; p_netloc := nl;
                    p_path := if truthy joined then joined else "/";
                    p_params := p_params u; p_query := p_query u;
                    p_fragment := p_fragment u |}))).

End UrlParse.


(* ===================================================================== *)
(** ** requests: requests, responses, and the monad of the methods       *)
(* ===================================================================== *)

Module Requests.
Import Py.

Inductive method : Type := GET | POST.

(** One HTTP call as the code issues it.  [via_session] tells the calls made
    through the [requests.Session] of the auth object (its cookie store)
    from the plain [requests.get]. *)
Record request : Type := {
  r_method : method;
  r_url : string;
  r_headers : dict string;
  r_data : dict string;
  r_timeout : option Z;
  via_session : bool
}.

Record response : Type := {
  status_code : Z;
  text : string;
  content : string
}.

(** [response.ok]: [raise_for_status] raises for 400 <= status < 600. *)
Definition ok (r : response) : bool :=
  negb ((400 <=? status_code r) && (status_code r <? 600)).

(** The remote side: what a call yields after the calls made before it.
    Cookies and every other server-side state are functions of that
    history. *)
Class Network : Type := {
  network : list request -> request -> outcome response
}.

(** A method of an object of type [S]: it reads and updates the object and
    the list of calls sent so far, and returns or raises.  The object and the
    list survive an exception, as in Python. *)
Definition M (S A : Type) : Type :=
  S -> list request -> outcome A * S * list request.

Definition ret {S A} (a : A) : M S A := fun s w => (Ret a, s, w).

Definition bind {S A B} (m : M S A) (k : A -> M S B) : M S B :=
  fun s w =>
    match m s w with
    | (Ret a, s', w') => k a s' w'
    | (Raise e, s', w') => (Raise e, s', w')
    end.

Definition get_self {S} : M S S := fun s w => (Ret s, s, w).

Definition set_self {S} (s' : S) : M S unit := fun _ w => (Ret tt, s', w).

Definition lift {S A} (o : outcome A) : M S A := fun s w => (o, s, w).

(** [try: m  except <classes>: handler], [catches e] telling whether [e] is
    an instance of one of the classes. *)
Definition try_except {S A} (m : M S A) (catches : exn -> bool)
           (handler : M S A) : M S A :=
  fun s w =>
    match m s w with
    | (Raise e, s', w') =>
      if catches e then handler s' w' else (Raise e, s', w')
    | r => r
    end.

(** [for x in xs: body(x)] *)
Fixpoint for_each {S X} (xs : list X) (body : X -> M S unit) : M S unit :=
  match xs with
  | [] => ret tt
  | x :: rest => bind (body x) (fun _ => for_each rest body)
  end.

(** A method call on an object held in a field: [put] stores the callee's
    state back into the caller's. *)
Definition call {S T A} (obj : T) (put : T -> S -> S) (m : M T A) : M S A :=
  fun s w =>
    match m obj w with
    | (r, obj', w') => (r, put obj' s, w')
    end.

(** The one primitive that touches the network. *)
Definition send {S} `{Network} (rq : request) : M S response :=
  fun s w => (network w rq, s, (w ++ [rq])%list).

(** [requests.get(url, timeout=t)] *)
Definition requests_get {S} `{Network} (url : string) (timeout : option Z)
  : M S response :=
  send {| r_method := GET; r_url := url; r_headers := []; r_data := [];
          r_timeout := timeout; via_session := false |}.

(** [session.get(url, headers=h, timeout=t)] *)
Definition session_get {S} `{Network} (url : string) (h : dict string)
           (timeout : option Z) : M S response :=
  send {| r_method := GET; r_url := url; r_headers := h; r_data := [];
          r_timeout := timeout; via_session := true |}.

(** [session.post(url, headers=h, data=d)] *)
Definition session_post {S} `{Network} (url : string) (h d : dict string)
  : M S response :=
  send {| r_method := POST; r_url := url; r_headers := h; r_data := d;
          r_timeout := None; via_session := true |}.

End Requests.

Declare Scope py_scope.
Notation "x <- m ;; k" := (Requests.bind m (fun x => k))
  (at level 61, m at next level, right associativity) : py_scope.
Notation "m ;;; k" := (Requests.bind m (fun _ => k))
  (at level 61, right associativity) : py_scope.

(* ===================================================================== *)
(** ** bs4: the part of BeautifulSoup the parsers call                   *)
(* ===================================================================== *)

Module Bs4.
Import Py.

Class Html : Type := {
  soup : Type;
  element : Type;
  (** [BeautifulSoup(content, 'html.parser')] *)
  BeautifulSoup : string -> soup;
  (** [soup.find(name)]: the first element with that tag name *)
  find : soup -> string -> option element;
  (** [soup.select(selector)]: the matching elements in document order;
      raises on a selector that does not compile *)
  select : soup -> string -> outcome (list element);
  (** [el._all_strings()]: the strings below the element that [get_text]
      counts, in document order, as they stand in the document *)
  _all_strings : element -> list string;
  (** [el.get(attr)] *)
  attr : element -> string -> option string
}.

(** [el.get_text(strip=True)]: every string stripped, the empty ones
    dropped, the others joined without a separator. *)
Definition get_text_strip `{Html} (el : element) : string :=
  String.concat "" (filter truthy (map strip (_all_strings el))).

(** [soup.select_one(selector)]: the first element of [select], or [None]. *)
Definition select_one `{Html} (sp : soup) (selector : string)
  : outcome (option element) :=
  obind (select sp selector) (fun l => Ret (hd_error l)).

End Bs4.

Local Open Scope py_scope.

(* ===================================================================== *)
(** ** auth.py                                                           *)
(* ===================================================================== *)

Module CNC1Auth.
Import Py Requests.

Record t : Type := {
  username : string;
  password : string;
  _is_authenticated : bool
}.

Definition LOGIN_URL : string := "https://cnc1.ru/auth/?login=yes".

Definition USER_AGENT : string :=
  "Mozilla/5.0 (Windows NT 10.0; Win64; x64) AppleWebKit/537.36 (KHTML, like Gecko) Chrome/138.0.0.0 Safari/537.36".

Definition HEADERS : dict string :=
  [("Content-Type", "application/x-www-form-urlencoded; charset=UTF-8");
   ("X-Requested-With", "XMLHttpRequest");
   ("User-Agent", USER_AGENT);
   ("Referer", "https://cnc1.ru/?login=yes")].

(** The text the site shows on a failed login. *)
Definition FAILURE_MARKER : string := "Ошибка".

Definition __init__ (username password : string) : t :=
  {| username := username; password := password;
     _is_authenticated := false |}.

Definition set_authenticated (b : bool) (self : t) : t :=
  {| username := username self; password := password self;
     _is_authenticated := b |}.

Definition payload (self : t) : dict string :=
  [("backurl", "/?login=yes");
   ("AUTH_FORM", "Y");
   ("TYPE", "AUTH");
   ("POPUP_AUTH", "Y");
   ("AUTH_TYPE", "login");
   ("USER_LOGIN", username self);
   ("USER_PASSWORD", password self);
   ("Login", "Y")].

Definition login `{Network} : M t bool :=
  self <- get_self ;;
  response <- session_post LOGIN_URL HEADERS (payload self) ;;
  if (status_code response =? 200)
     && negb (contains FAILURE_MARKER (text response))
  then set_self (set_authenticated true self) ;;; ret true
  else ret false.

(** The keyword arguments of [get]: [headers], which the caller leaves out
    ([None]), passes as [None] ([Some None]) or passes as a dict, and
    [timeout] for the rest that is handed on to [session.get]. *)
Record kwargs : Type := {
  kw_headers : option (option (dict string));
  kw_timeout : option Z
}.

Definition no_kwargs : kwargs := {| kw_headers := None; kw_timeout := None |}.

(** [kwargs.pop("headers", {})] *)
Definition pop_headers (kw : kwargs) : option (dict string) :=
  match kw_headers kw with
  | Some h => h
  | None => Some []
  end.

Definition get `{Network} (url : string) (kw : kwargs)
  : M t (option response) :=
  self <- get_self ;;
  if negb (_is_authenticated self) then ret None
  else
    match pop_headers kw with
    | None => lift (Raise AttributeError)
    | Some headers =>
      let headers := dict_setdefault headers "User-Agent" USER_AGENT in
      r <- session_get url headers (kw_timeout kw) ;;
      ret (Some r)
    end.

Definition is_authenticated (self : t) : bool := _is_authenticated self.

(** [get_session]: the session object, here [tt], or [None]. *)
Definition get_session (self : t) : option unit :=
  if _is_authenticated self then Some tt else None.

(** The calls a client can make on one instance. *)
Inductive op : Type :=
| Login
| Get (url : string) (kw : kwargs)
| IsAuthenticated
| GetSession.

(** One call: the object and the call list afterwards, whether it returned or
    raised. *)
Definition step `{Network} (o : op) (self : t) (w : list request)
  : t * list request :=
  match o with
  | Login => let '(_, s, w') := login self w in (s, w')
  | Get url kw => let '(_, s, w') := get url kw self w in (s, w')
  | IsAuthenticated | GetSession => (self, w)
  end.

(** A sequence of calls; a caller that catches an exception goes on with the
    same object. *)
Fixpoint run `{Network} (ops : list op) (self : t) (w : list request)
  : t * list request :=
  match ops with
  | [] => (self, w)
  | o :: rest => let '(s, w') := step o self w in run rest s w'
  end.

End CNC1Auth.

(** The [urls] argument of both constructors: [Union[str, List[str]]]. *)
Inductive urls_arg : Type :=
| OneUrl (url : string)
| UrlList (urls : list string).

Definition as_list (a : urls_arg) : list string :=
  match a with OneUrl u => [u] | UrlList l => l end.

(* ===================================================================== *)
(** ** catalog_parser.py                                                 *)
(* ===================================================================== *)

Module CatalogParser.
Import Py Requests Bs4.

Record t : Type := {
  urls : list string;
  link_selector : string;
  auth : option CNC1Auth.t;
  result : dict (list string)
}.

Definition __init__ (urls : urls_arg) (link_selector : string)
           (auth : option CNC1Auth.t) : t :=
  {| urls := as_list urls; link_selector := link_selector; auth := auth;
     result := [] |}.

Definition set_auth (a : CNC1Auth.t) (self : t) : t :=
  {| urls := urls self; link_selector := link_selector self;
     auth := Some a; result := result self |}.

Definition set_result (r : dict (list string)) (self : t) : t :=
  {| urls := urls self; link_selector := link_selector self;
     auth := auth self; result := r |}.

Definition _fetch_page `{Network} (url : string) : M t (option response) :=
  try_except
    (self <- get_self ;;
     match auth self with
     | Some a =>
       if CNC1Auth.is_authenticated a
       then call a set_auth (CNC1Auth.get url CNC1Auth.no_kwargs)
       else r <- requests_get url (Some 10) ;; ret (Some r)
     | None => r <- requests_get url (Some 10) ;; ret (Some r)
     end)
    is_RequestException
    (ret None).

Definition _get_page_key `{Html} (sp : soup) (url : string) : string :=
  match find sp "h1" with
  | Some h1_tag => get_text_strip h1_tag
  | None => url
  end.

(** The loop of [_extract_links] over the selected elements; [links] is the
    list built so far. *)
Fixpoint extract_loop `{Html} (elements : list element) (base_url : string)
         (links : list string) : outcome (list string) :=
  match elements with
  | [] => Ret links
  | el :: rest =>
    match attr el "href" with
    | Some href =>
      let href_str := strip href in
      if truthy href_str
      then obind (UrlParse.urljoin base_url href_str) (fun absolute_url =>
             extract_loop rest base_url (links ++ [absolute_url])%list)
      else extract_loop rest base_url links
    | None => extract_loop rest base_url links
    end
  end.

Definition _extract_links `{Html} (self : t) (sp : soup) (base_url : string)
  : outcome (list string) :=
  obind (select sp (link_selector self)) (fun elements =>
    extract_loop elements base_url []).

Definition _add_empty_result (url : string) : M t unit :=
  self <- get_self ;;
  set_self (set_result (dict_set (result self) url []) self).

(** The body of the loop of [parse]. *)
Definition parse_url `{Network} `{Html} (url : string) : M t unit :=
  response <- _fetch_page url ;;
  match response with
  | None => _add_empty_result url
  | Some r =>
    if negb (status_code r =? 200) then _add_empty_result url
    else
      let sp := BeautifulSoup (content r) in
      self <- get_self ;;
      let key := _get_page_key sp url in
      links <- lift (_extract_links self sp url) ;;
      self <- get_self ;;
      set_self (set_result (dict_set (result self) key links) self)
  end.

Definition parse `{Network} `{Html} : M t (dict (list string)) :=
  self <- get_self ;;
  for_each (urls self) parse_url ;;;
  self <- get_self ;;
  ret (result self).

End CatalogParser.

(* ===================================================================== *)
(** ** pandas: [DataFrame(list of dicts)] and [set_index]                *)
(* ===================================================================== *)

Module Pandas.
Import Py.

(** A cell holds a string, [None] or NaN.  The constructor puts NaN where
    the dict of a row has no such key, and makes of a [None] what the type
    it infers for the column has for a missing value. *)
Inductive cell : Type :=
| Value (v : option string)
| NaN.

(** [pd.options.future.infer_string]: off by default in pandas 2, on in
    pandas 3, where a column with strings gets the [str] dtype. *)
Class Options : Type := {
  infer_string : bool
}.

Inductive Index : Type :=
| RangeIndex (stop : nat)
| LabelIndex (name : string) (labels : list cell).

Record DataFrame : Type := {
  index : Index;
  columns : list string;
  rows : list (list cell)
}.

Definition row := dict (option string).

(** Column labels of [DataFrame(data)]: the keys of all rows, each at its
    first appearance. *)
Definition add_keys (cols : list string) (r : row) : list string :=
  fold_left (fun acc k => if mem k acc then acc else (acc ++ [k])%list)
            (dict_keys r) cols.

Definition columns_of (data : list row) : list string :=
  fold_left add_keys data [].

(** What the object array built from the dicts holds for a row and a
    column. *)
Definition cell_of (r : row) (col : string) : cell :=
  match dict_get r col with Some v => Value v | None => NaN end.

Definition column_of (data : list row) (col : string) : list cell :=
  map (fun r => cell_of r col) data.

Definition is_str (c : cell) : bool :=
  match c with Value (Some _) => true | _ => false end.

Definition is_nan (c : cell) : bool :=
  match c with NaN => true | _ => false end.

(** The type inferred for a column of strings, [None] and NaN
    ([lib.maybe_convert_objects]): with a string in it the column stays an
    object column, or becomes a [str] column under [infer_string]; without
    one it becomes a float column when a value is missing in some row, and
    stays an object column when it holds [None] only.  A [str] or float
    column stores [None] as NaN. *)
Definition none_as_nan `{Options} (column : list cell) : bool :=
  if existsb is_str column then infer_string else existsb is_nan column.

Definition store `{Options} (column : list cell) (c : cell) : cell :=
  match c with
  | Value None => if none_as_nan column then NaN else c
  | _ => c
  end.

(** The cell of the frame for a row and a column. *)
Definition stored `{Options} (data : list row) (r : row) (col : string)
  : cell :=
  store (column_of data col) (cell_of r col).

(** [pd.DataFrame(data)] for a list of dicts. *)
Definition from_records `{Options} (data : list row) : DataFrame :=
  let cols := columns_of data in
  {| index := RangeIndex (List.length data);
     columns := cols;
     rows := map (fun r => map (stored data r) cols) data |}.

(** Position of a column label. *)
Fixpoint position (col : string) (cols : list string) : option nat :=
  match cols with
  | [] => None
  | c :: rest =>
    if String.eqb c col then Some O
    else option_map S (position col rest)
  end.

Fixpoint remove_nth {A} (n : nat) (l : list A) : list A :=
  match n, l with
  | _, [] => []
  | O, _ :: rest => rest
  | S n', x :: rest => x :: remove_nth n' rest
  end.

(** [df.set_index(col)]: the column becomes the index and leaves the
    columns; a label that is no column raises [KeyError]. *)
Definition set_index (df : DataFrame) (col : string) : outcome DataFrame :=
  match position col (columns df) with
  | None => Raise (KeyError col)
  | Some i =>
    Ret {| index := LabelIndex col (map (fun r => nth i r NaN) (rows df));
           columns := remove_nth i (columns df);
           rows := map (remove_nth i) (rows df) |}
  end.

End Pandas.

(* ===================================================================== *)
(** ** page_parser.py                                                    *)
(* ===================================================================== *)

Module PageParser.
Import Py Requests Bs4.

Definition row := Pandas.row.

Record t : Type := {
  urls : list string;
  selectors : dict string;
  auth : option CNC1Auth.t;
  data : list row
}.

Definition __init__ (urls : urls_arg) (selectors : dict string)
           (auth : option CNC1Auth.t) : t :=
  {| urls := as_list urls; selectors := selectors; auth := auth;
     data := [] |}.

Definition set_auth (a : CNC1Auth.t) (self : t) : t :=
  {| urls := urls self; selectors := selectors self; auth := Some a;
     data := data self |}.

Definition set_data (d : list row) (self : t) : t :=
  {| urls := urls self; selectors := selectors self; auth := auth self;
     data := d |}.

Definition catches (e : exn) : bool :=
  is_RequestException e || is_ValueError e.

Definition _fetch_page `{Network} (url : string) : M t (option response) :=
  try_except
    (self <- get_self ;;
     match auth self with
     | Some a =>
       if CNC1Auth.is_authenticated a
       then call a set_auth (CNC1Auth.get url CNC1Auth.no_kwargs)
       else r <- requests_get url None ;; ret (Some r)
     | None => r <- requests_get url None ;; ret (Some r)
     end)
    catches
    (ret None).

(** The loop of [_parse_page] over [self.selectors.items()]; [r] is the row
    built so far. *)
Fixpoint fill_row `{Html} (sp : soup) (items : list (string * string))
         (r : row) : outcome row :=
  match items with
  | [] => Ret r
  | (col_name, selector) :: rest =>
    obind (select_one sp selector) (fun el =>
      fill_row sp rest (dict_set r col_name (option_map get_text_strip el)))
  end.

Definition _parse_page `{Html} (url : string) (response : response)
  : M t unit :=
  let sp := BeautifulSoup (content response) in
  self <- get_self ;;
  r <- lift (fill_row sp (selectors self) [("URL", Some url)]) ;;
  self <- get_self ;;
  set_self (set_data (data self ++ [r])%list self).

Definition _add_empty_row (url : string) : M t unit :=
  self <- get_self ;;
  let r := dict_update [("URL", Some url)]
                       (map (fun kv => (fst kv, None)) (selectors self)) in
  set_self (set_data (data self ++ [r])%list self).

Definition _build_dataframe `{Pandas.Options} : M t Pandas.DataFrame :=
  self <- get_self ;;
  let df := Pandas.from_records (data self) in
  lift (Pandas.set_index df "URL").

(** The body of the loop of [parse]. *)
Definition parse_url `{Network} `{Html} (url : string) : M t unit :=
  response <- _fetch_page url ;;
  match response with
  | None => _add_empty_row url
  | Some r =>
    if negb (ok r) then _add_empty_row url
    else _parse_page url r
  end.

Definition parse `{Network} `{Html} `{Pandas.Options}
  : M t Pandas.DataFrame :=
  self <- get_self ;;
  for_each (urls self) parse_url ;;;
  _build_dataframe.

End PageParser.

(* ===================================================================== *)
(** ** Vocabulary of the statements                                      *)
(* ===================================================================== *)

Module Spec.
Import Py Requests Bs4.

(** The call [_fetch_page] sends for [url]: through the session when an
    authenticated auth object is present, a plain GET otherwise, with the
    timeout the parser passes on the plain path. *)
Definition request_for (auth : option CNC1Auth.t) (plain_timeout : option Z)
           (url : string) : request :=
  let plain := {| r_method := GET; r_url := url; r_headers := [];
                  r_data := []; r_timeout := plain_timeout;
                  via_session := false |} in
  match auth with
  | Some a =>
    if CNC1Auth.is_authenticated a
    then {| r_method := GET; r_url := url;
            r_headers := [("User-Agent", CNC1Auth.USER_AGENT)];
            r_data := []; r_timeout := None; via_session := true |}
    else plain
  | None => plain
  end.

(** What [_fetch_page] makes of the answer of the network, for a parser that
    catches the exceptions in [catches]. *)
Definition fetched (catches : exn -> bool) (o : outcome response)
  : outcome (option response) :=
  match o with
  | Ret r => Ret (Some r)
  | Raise e => if catches e then Ret None else Raise e
  end.

(** The answer to the [i]-th call of a run that started after the calls [w]
    and sends [rqs] one after the other. *)
Definition answer `{Network} (w : list request) (rqs : list request)
           (i : nat) (rq : request) : outcome response :=
  network (w ++ firstn i rqs)%list rq.


(** The page counts as unavailable for [CatalogParser.parse]:
    [response is None or response.status_code != 200]. *)
Definition catalog_unavailable (response : option response) : bool :=
  match response with
  | Some r => negb (status_code r =? 200)
  | None => true
  end.

(** The page counts as unavailable for [PageParser.parse]:
    [response is None or not response.ok]. *)
Definition page_unavailable (response : option response) : bool :=
  match response with
  | Some r => negb (ok r)
  | None => true
  end.

(** The hrefs [_extract_links] keeps: present, and non-empty once stripped. *)
Definition kept_hrefs `{Html} (elements : list element) : list string :=
  filter truthy
    (map strip
       (flat_map (fun el => match attr el "href" with
                            | Some h => [h]
                            | None => []
                            end) elements)).

(** Joining every kept href onto the base, first failure wins. *)
Fixpoint join_all (base_url : string) (hrefs : list string)
  : outcome (list string) :=
  match hrefs with
  | [] => Ret []
  | h :: rest =>
    obind (UrlParse.urljoin base_url h) (fun u =>
      obind (join_all base_url rest) (fun us => Ret (u :: us)))
  end.

(** The links of the page at [url]: the kept hrefs of the elements the
    selector matches, in their order, each joined onto [url]. *)
Definition page_links `{Html} (selector : string) (sp : soup) (url : string)
  : outcome (list string) :=
  obind (select sp selector) (fun elements =>
    join_all url (kept_hrefs elements)).

(** The key of the page at [url]: the text of its first heading, or [url]
    when it has none. *)
Definition page_key `{Html} (sp : soup) (url : string) : string :=
  match find sp "h1" with
  | Some h => get_text_strip h
  | None => url
  end.

(** The entry one turn of the loop of [CatalogParser.parse] writes into
    [self.result], from what [_fetch_page] returned. *)
Definition catalog_entry `{Html} (self : CatalogParser.t) (url : string)
           (fetch : outcome (option response))
  : outcome (string * list string) :=
  obind fetch (fun response =>
    match response with
    | None => Ret (url, [])
    | Some r =>
      if negb (status_code r =? 200) then Ret (url, [])
      else
        let sp := BeautifulSoup (content r) in
        obind (page_links (CatalogParser.link_selector self) sp url)
              (fun links => Ret (page_key sp url, links))
    end).

(** The row [_add_empty_row] appends. *)
Definition empty_row (selectors : dict string) (url : string) : Pandas.row :=
  dict_update [("URL", Some url)] (map (fun kv => (fst kv, None)) selectors).

(** The row one turn of the loop of [PageParser.parse] appends to
    [self.data], from what [_fetch_page] returned. *)
Definition page_record `{Html} (selectors : dict string) (url : string)
           (fetch : outcome (option response)) : outcome Pandas.row :=
  obind fetch (fun response =>
    match response with
    | None => Ret (empty_row selectors url)
    | Some r =>
      if negb (ok r) then Ret (empty_row selectors url)
      else PageParser.fill_row (BeautifulSoup (content r)) selectors
                               [("URL", Some url)]
    end).

(** What the network answers to the [i]-th fetch of a run of [PageParser]
    over [urls], as [_fetch_page] hands it on. *)
Definition page_fetch `{Network} (auth : option CNC1Auth.t) (w : list request)
           (urls : list string) (i : nat) (url : string)
  : outcome (option response) :=
  fetched PageParser.catches
    (answer w (map (request_for auth None) urls) i
                 (request_for auth None url)).

(** The same for a run of [CatalogParser]. *)
Definition catalog_fetch `{Network} (auth : option CNC1Auth.t)
           (w : list request) (urls : list string) (i : nat) (url : string)
  : outcome (option response) :=
  fetched is_RequestException
    (answer w (map (request_for auth (Some 10)) urls) i
            (request_for auth (Some 10) url)).

(** The text content of an element: its strings one after the other. *)
Definition text_content `{Html} (el : element) : string :=
  String.concat "" (_all_strings el).

(** The text [get_text(strip=True)] gives for the first element the selector
    matches, if any. *)
Definition first_text `{Html} (sp : soup) (selector : string)
  : option string :=
  match select sp selector with
  | Ret elements => option_map get_text_strip (hd_error elements)
  | Raise _ => None
  end.

(** [self.result] after the writes [entries], oldest first. *)
Definition written (entries : list (string * list string))
           (d : dict (list string)) : dict (list string) :=
  fold_left (fun acc kv => dict_set acc (fst kv) (snd kv)) entries d.

(** The record of an unavailable page: [URL] and every field [None]. *)
Definition null_record (selectors : dict string) (url : string)
  : Pandas.row :=
  ("URL", Some url) :: map (fun kv => (fst kv, None)) selectors.

(** The one call [login] sends. *)
Definition login_request (self : CNC1Auth.t) : request :=
  {| r_method := POST; r_url := CNC1Auth.LOGIN_URL;
     r_headers := CNC1Auth.HEADERS; r_data := CNC1Auth.payload self;
     r_timeout := None; via_session := true |}.

(** The test [login] applies to the answer. *)
Definition login_accepts (r : response) : bool :=
  (status_code r =? 200) && negb (contains CNC1Auth.FAILURE_MARKER (text r)).

(** The call [get] sends once authenticated, when [headers] is a dict or
    left out. *)
Definition get_request (url : string) (kw : CNC1Auth.kwargs) : request :=
  {| r_method := GET; r_url := url;
     r_headers :=
       dict_setdefault
         (match CNC1Auth.pop_headers kw with Some h => h | None => [] end)
         "User-Agent" CNC1Auth.USER_AGENT;
     r_data := []; r_timeout := CNC1Auth.kw_timeout kw;
     via_session := true |}.

(** A character that means nothing to [urlsplit]: printable ASCII other
    than [/?#;:] and the brackets. *)
Definition plain_char (c : ascii) : bool :=
  (32 <? code c) && (code c <? 127)
  && negb (UrlParse.has_char c (chars "/?#;:[]")).

Definition plain (s : string) : bool := forallb plain_char (chars s).

(** A path segment that is neither empty nor a dot segment. *)
Definition segment (s : string) : bool :=
  truthy s && plain s && negb (String.eqb s ".") && negb (String.eqb s "..").

Definition web_scheme (s : string) : bool :=
  String.eqb s "http" || String.eqb s "https".

(** The url scheme://host/seg1/.../segn *)
Definition page_at (sch host : string) (segs : list string) : string :=
  sch ++ "://" ++ host ++ "/" ++ String.concat "/" segs.

(** The dot segments at the head of a relative reference: [.] stays in the
    directory, [..] leaves it. *)
Inductive step : Type := Here | Up.

Definition step_text (st : step) : string :=
  match st with Here => "." | Up => ".." end.

(** The directories left of [dirs] after the steps; a step up from the root
    stays at the root. *)
Definition climb (steps : list step) (dirs : list string) : list string :=
  fold_left (fun d st => match st with Here => d | Up => removelast d end)
            steps dirs.

(** The relative reference step1/.../stepk/name1/.../namen *)
Definition rel_ref (steps : list step) (names : list string) : string :=
  String.concat "/" (map step_text steps ++ names)%list.

(** Success as the words of the specification put it for [login]: a response
    of the success class (2xx) without the failure marker. *)
Definition success_class (r : response) : bool :=
  (200 <=? status_code r) && (status_code r <? 300).

Definition spec_login_success (r : response) : bool :=
  success_class r && negb (contains CNC1Auth.FAILURE_MARKER (text r)).

End Spec.

(* ===================================================================== *)
(** ** Fixtures: a small document model and a few sites                  *)
(* ===================================================================== *)

Module Demo.
Import Py Requests Bs4.

(** An element: its tag, class and href, and the strings below it. *)
Record el : Type := {
  tag : string;
  cls : string;
  txt : list string;
  href : option string
}.

Definition h1 (t : string) : el :=
  {| tag := "h1"; cls := ""; txt := [t]; href := None |}.
Definition span (c t : string) : el :=
  {| tag := "span"; cls := c; txt := [t]; href := None |}.
Definition a (t : string) (h : option string) : el :=
  {| tag := "a"; cls := "item"; txt := [t]; href := h |}.

Definition widget_html : string :=
  "<h1>Widget</h1><span class='price'>9.99</span>".
Definition widget_no_price_html : string := "<h1>Widget</h1>".
Definition catalog_html : string :=
  "<h1> Mills </h1><a class='item' href='c.html'>A</a><a class='item' href='/x'>B</a><a class='item' href='https://other.com/y'>C</a><a class='item' href='  '>D</a><a class='item'>E</a>".
Definition untitled_html : string := "<a class='item' href='z'>Z</a>".
Definition nested_html : string := "<h1>Big <b>Widget</b></h1>".
Definition shouted_html : string :=
  "<a class='item' href='HTTPS://other.com/y'>Y</a><a class='item' href='https://other.com/y#'>Z</a>".

Definition pages : dict (list el) :=
  [(widget_html, [h1 "Widget"; span "price" "9.99"]);
   (widget_no_price_html, [h1 "Widget"]);
   (catalog_html,
    [h1 " Mills "; a "A" (Some "c.html"); a "B" (Some "/x");
     a "C" (Some "https://other.com/y"); a "D" (Some "  "); a "E" None]);
   (untitled_html, [a "Z" (Some "z")]);
   (shouted_html,
    [a "Y" (Some "HTTPS://other.com/y"); a "Z" (Some "https://other.com/y#")]);
   (nested_html,
    [{| tag := "h1"; cls := ""; txt := ["Big "; "Widget"]; href := None |};
     {| tag := "b"; cls := ""; txt := ["Widget"]; href := None |}])].

Definition parse_html (body : string) : list el :=
  match dict_get pages body with Some d => d | None => [] end.

(** Selectors of the fixture: a tag name, or a dot and a class name; the
    empty selector and one with a bracket do not compile. *)
Definition select_el (d : list el) (selector : string)
  : outcome (list el) :=
  match selector with
  | EmptyString => Raise SelectorSyntaxError
  | String c rest =>
    if contains "[" selector then Raise SelectorSyntaxError
    else if Ascii.eqb c "."%char
    then Ret (filter (fun e => String.eqb (cls e) rest) d)
    else Ret (filter (fun e => String.eqb (tag e) selector) d)
  end.

Definition html : Html :=
  {| soup := list el;
     element := el;
     BeautifulSoup := parse_html;
     find := fun d name => hd_error (filter (fun e => String.eqb (tag e) name) d);
     select := select_el;
     _all_strings := txt;
     attr := fun e name => if String.eqb name "href" then href e else None |}.

Definition page (status : Z) (body : string) : outcome response :=
  Ret {| status_code := status; text := body; content := body |}.

Definition password_ok (rq : request) : bool :=
  match dict_get (r_data rq) "USER_PASSWORD" with
  | Some pw => String.eqb pw "secret"
  | None => false
  end.

(** A site with a login form and a handful of pages; [login_status] is the
    status of the answer to a login with the right password. *)
Definition site (login_status : Z) (rq : request) : outcome response :=
  match r_method rq with
  | POST =>
    if String.eqb (r_url rq) CNC1Auth.LOGIN_URL
    then if password_ok rq then page login_status "{}"
         else page 200 ("<p>" ++ CNC1Auth.FAILURE_MARKER ++ "</p>")
    else page 404 ""
  | GET =>
    let u := r_url rq in
    if String.eqb u "https://x.test/p1" then page 200 widget_html
    else if String.eqb u "https://x.test/p2" then Raise Timeout
    else if String.eqb u "https://x.test/p3" then page 200 widget_no_price_html
    else if String.eqb u "https://x.test/p204" then page 204 widget_html
    else if String.eqb u "https://x.test/gone" then page 404 "gone"
    else if String.eqb u "https://x.test/p300" then page 300 widget_html
    else if String.eqb u "https://x.test/nested" then page 200 nested_html
    else if String.eqb u "https://example.com/a/b" then page 200 catalog_html
    else if String.eqb u "https://example.com/c204" then page 204 catalog_html
    else if String.eqb u "https://example.com/plain" then page 200 untitled_html
    else Raise ConnectionError
  end.

Definition online : Network := {| network := fun _ rq => site 200 rq |}.

(** The same site answering a good login with 204 No Content. *)
Definition online_204 : Network := {| network := fun _ rq => site 204 rq |}.

(** No connectivity at all. *)
Definition offline : Network :=
  {| network := fun _ _ => Raise ConnectionError |}.

Definition selectors : dict string := [("Title", "h1"); ("Price", ".price")].

(** The two ways pandas infers the type of a column of strings. *)
Definition pandas2 : Pandas.Options := {| Pandas.infer_string := false |}.
Definition pandas3 : Pandas.Options := {| Pandas.infer_string := true |}.

Definition p1 : string := "https://x.test/p1".
Definition p2 : string := "https://x.test/p2".
Definition p3 : string := "https://x.test/p3".
Definition nested : string := "https://x.test/nested".
Definition c204 : string := "https://example.com/c204".
Definition catalog_url : string := "https://example.com/a/b".

(** A run of [PageParser] over a page, a page that times out and a page
    without a price. *)
Definition page_run (pandas : Pandas.Options)
  : outcome Pandas.DataFrame * PageParser.t * list request :=
  @PageParser.parse online html pandas
    (PageParser.__init__ (UrlList [p1; p2; p3]) selectors None) [].

Definition user : CNC1Auth.t := CNC1Auth.__init__ "user@x.test" "secret".
Definition stranger : CNC1Auth.t := CNC1Auth.__init__ "user@x.test" "guess".
Definition logged_in : CNC1Auth.t := CNC1Auth.set_authenticated true user.

End Demo.


(* ===================================================================== *)
(** ** config_reader.py                                                  *)
(* ===================================================================== *)

Module ConfigReader.
Import Py.

(** A value as [json.load] returns it; a number is kept as its literal. *)
#[warnings="-register-all"] Inductive json : Type :=
| JNull
| JBool (b : bool)
| JNum (literal : string)
| JStr (s : string)
| JList (items : list json)
| JDict (items : list (string * json)).

(** The reader once [_load_config] has run: [config_data] is whatever the
    file held, an object or not. *)
Record t : Type := {
  config_path : string;
  config_data : json
}.

Definition AttributeError : exn := Py.AttributeError.

(** [v.get(key, default)]: only a dict has [get]. *)
Definition py_get (v : json) (key : string) (default : json) : outcome json :=
  match v with
  | JDict d =>
    Ret (match dict_get d key with Some x => x | None => default end)
  | _ => Raise AttributeError
  end.

Definition get_auth_credentials (self : t) : outcome (dict json) :=
  obind (py_get (config_data self) "auth" (JDict [])) (fun auth_section =>
  obind (py_get auth_section "email" (JStr "")) (fun email =>
  obind (py_get auth_section "pass" (JStr "")) (fun pass =>
    Ret [("email", email); ("password", pass)]))).

Definition get_link_selector (self : t) : outcome json :=
  obind (py_get (config_data self) "settings" (JDict [])) (fun settings =>
    py_get settings "link_selector" (JStr "")).

Definition get_selectors (self : t) : outcome json :=
  obind (py_get (config_data self) "settings" (JDict [])) (fun settings =>
    py_get settings "selectors" (JDict [])).

Definition get_settings (self : t) : outcome json :=
  py_get (config_data self) "settings" (JDict []).

(** A section of the file is usable when it is absent or an object. *)
Definition section_ok (d : dict json) (key : string) : bool :=
  match dict_get d key with
  | None | Some (JDict _) => true
  | Some _ => false
  end.

End ConfigReader.

(* ===================================================================== *)
(** ** web_ui.py                                                         *)
(* ===================================================================== *)

(** Text functions of the Python library that the interface calls on
    arbitrary values: [str.upper] and [str(e)] for an exception. *)
Class PyText : Type := {
  str_upper : string -> string;
  exn_str : Py.exn -> string
}.

(** [str(n)] for a length. *)
Definition str_nat (n : nat) : string :=
  NilEmpty.string_of_uint (Nat.to_uint n).

Module InputManager.
Import Py.

Definition byte (n : Z) (c : ascii) : bool := code c =? n.

(** [s.splitlines()]: the lines of [s] without their line breaks, which are
    LF, CR, CR LF, VT, FF, FS, GS, RS, U+0085, U+2028 and U+2029; no empty
    last line after a final break.  [cur] is the line read so far,
    backwards. *)
Fixpoint splitlines_from (l cur : list ascii) : list (list ascii) :=
  match l with
  | [] => match cur with [] => [] | _ => [rev cur] end
  | c1 :: r1 =>
    if byte 13 c1 then
      match r1 with
      | c2 :: r2 =>
        if byte 10 c2 then rev cur :: splitlines_from r2 []
        else rev cur :: splitlines_from r1 []
      | [] => rev cur :: splitlines_from r1 []
      end
    else if byte 10 c1 || byte 11 c1 || byte 12 c1
            || byte 28 c1 || byte 29 c1 || byte 30 c1
    then rev cur :: splitlines_from r1 []
    else
      match r1 with
      | c2 :: r2 =>
        if byte 194 c1 && byte 133 c2 then rev cur :: splitlines_from r2 []
        else
          match r2 with
          | c3 :: r3 =>
            if byte 226 c1 && byte 128 c2 && (byte 168 c3 || byte 169 c3)
            then rev cur :: splitlines_from r3 []
            else splitlines_from r1 (c1 :: cur)
          | [] => splitlines_from r1 (c1 :: cur)
          end
      | [] => splitlines_from r1 (c1 :: cur)
      end
  end.

Definition splitlines (s : string) : list string :=
  map str (splitlines_from (chars s) []).

(** [s.split(",")] *)
Definition split_commas (s : string) : list string :=
  map str (UrlParse.split ","%char (chars s)).

(** [url.startswith(("http://", "https://"))] *)
Definition is_http (url : string) : bool :=
  String.prefix "http://" url || String.prefix "https://" url.

Definition CATALOG : string := "Каталог".
Definition SHOWALL : string := "SHOWALL_1=1".

(** The first loop of [get_urls]: the entries of the text area, split at
    line breaks and commas, stripped, the empty ones dropped. *)
Definition entries_of_line (line : string) : list string :=
  if contains "," line
  then map strip (filter (fun u => truthy (strip u)) (split_commas line))
  else if truthy (strip line) then [strip line] else [].

Definition entries (url_input : string) : list string :=
  flat_map entries_of_line (splitlines url_input).

(** What the second loop appends for an entry that passed the test. *)
Definition with_showall (link_type url : string) : string :=
  if String.eqb link_type CATALOG then
    if contains "?" url then
      if negb (contains SHOWALL url) then url ++ "&" ++ SHOWALL else url
    else url ++ "?" ++ SHOWALL
  else url.

Definition warning_text (url : string) : string :=
  "Некорректный URL: " ++ url
  ++ " (должен начинаться с http:// или https://)".

(** The second loop: [valid_urls] and the texts given to [st.warning], both
    in order. *)
Fixpoint validate (link_type : string) (urls : list string)
  : list string * list string :=
  match urls with
  | [] => ([], [])
  | url :: rest =>
    let (valid, warnings) := validate link_type rest in
    if is_http url then (with_showall link_type url :: valid, warnings)
    else (valid, warning_text url :: warnings)
  end.

(** [get_urls(link_type)], [url_input] being what [st.text_area] returned:
    the valid urls and the warnings shown. *)
Definition get_urls (link_type url_input : string)
  : list string * list string :=
  if negb (truthy url_input) then ([], [])
  else validate link_type (entries url_input).

End InputManager.

Module StreamlitLogger.
Import Py.

(** [logs] and what [log_container] shows: [None] for the empty container,
    else the value of the text area. *)
Record t : Type := {
  logs : list string;
  log_container : option string
}.

Definition __init__ : t := {| logs := []; log_container := None |}.

Definition newline : string := String (ascii_of_nat 10) EmptyString.

(** [l[-n:]] for [n > 0] *)
Definition last_n {A} (n : nat) (l : list A) : list A :=
  skipn (List.length l - n) l.

(** [sep.join(l)] *)
Fixpoint join_lines (sep : string) (l : list string) : string :=
  match l with
  | [] => ""
  | [x] => x
  | x :: rest => x ++ sep ++ join_lines sep rest
  end.

Definition log `{PyText} (message level : string) (self : t) : t :=
  let log_entry := "[" ++ str_upper level ++ "] " ++ message in
  let logs' := (logs self ++ [log_entry])%list in
  {| logs := logs';
     log_container := Some (join_lines newline (last_n 20 logs')) |}.

Definition clear (self : t) : t := {| logs := []; log_container := None |}.

End StreamlitLogger.

Module WebInterface.
Import Py Requests Bs4.

(** The configuration as the getters of [ConfigReader] are annotated: the
    credentials as (email, password), the link selector and the SelectorMap,
    each a call that may raise. *)
Record Config : Type := {
  get_auth_credentials : outcome (string * string);
  get_link_selector : outcome string;
  get_selectors : outcome (dict string)
}.

(** [st.session_state] *)
Record SessionState : Type := {
  df : Pandas.DataFrame;
  parsing : bool;
  stop_requested : bool
}.

(** [pd.DataFrame()] *)
Definition empty_frame : Pandas.DataFrame :=
  {| Pandas.index := Pandas.RangeIndex 0; Pandas.columns := [];
     Pandas.rows := [] |}.

(** The interface object, with [st.session_state] and the texts given to
    [st.error] so far. *)
Record t : Type := {
  config : Config;
  auth : option CNC1Auth.t;
  logger : StreamlitLogger.t;
  session_state : SessionState;
  st_errors : list string
}.

Definition set_logger (l : StreamlitLogger.t) (self : t) : t :=
  {| config := config self; auth := auth self; logger := l;
     session_state := session_state self; st_errors := st_errors self |}.

Definition set_session (s : SessionState) (self : t) : t :=
  {| config := config self; auth := auth self; logger := logger self;
     session_state := s; st_errors := st_errors self |}.

Definition add_error (text : string) (self : t) : t :=
  {| config := config self; auth := auth self; logger := logger self;
     session_state := session_state self;
     st_errors := (st_errors self ++ [text])%list |}.

(** [st.error(text)] *)
Definition st_error (text : string) : M t unit :=
  fun self w => (Ret tt, add_error text self, w).

(** [self.logger.log(message, level)] *)
Definition log `{PyText} (message level : string) : M t unit :=
  fun self w =>
    (Ret tt, set_logger (StreamlitLogger.log message level (logger self)) self, w).

(** [try: m  except Exception as e: handler(e)] *)
Definition try_except_as {S A} (m : M S A) (handler : exn -> M S A) : M S A :=
  fun s w =>
    match m s w with
    | (Raise e, s', w') => handler e s' w'
    | r => r
    end.

(** A method call on an object held in a local variable: the result and
    the object afterwards. *)
Definition on_local {S T A} (obj : T) (m : M T A) : M S (A * T) :=
  fun s w =>
    match m obj w with
    | (Ret a, obj', w') => (Ret (a, obj'), s, w')
    | (Raise e, _, w') => (Raise e, s, w')
    end.

Definition LOGIN_FAILED : string :=
  "Ошибка авторизации. Проверьте учетные данные.".
Definition INIT_FAILED : string :=
  "Ошибка при инициализации аутентификации: ".

Definition _init_auth `{Network} `{PyText} : M t (option CNC1Auth.t) :=
  try_except_as
    (self <- get_self ;;
     credentials <- lift (get_auth_credentials (config self)) ;;
     if truthy (fst credentials) && truthy (snd credentials)
     then
       r <- on_local (CNC1Auth.__init__ (fst credentials) (snd credentials))
                     CNC1Auth.login ;;
       if fst r then ret (Some (snd r))
       else st_error LOGIN_FAILED ;;; ret None
     else ret None)
    (fun e => st_error (INIT_FAILED ++ exn_str e) ;;; ret None).

(** The loop of [_parse_catalog] over [catalog_result.items()]. *)
Fixpoint log_categories `{PyText} (items : list (string * list string))
         (product_urls : list string) : M t (list string) :=
  match items with
  | [] => ret product_urls
  | (category, urls) :: rest =>
    log ("Категория '" ++ category ++ "': "
         ++ str_nat (List.length urls) ++ " товаров") "info" ;;;
    log_categories rest (product_urls ++ urls)%list
  end.

Definition _parse_catalog `{Network} `{Html} `{PyText} (urls : list string)
  : M t (list string) :=
  self <- get_self ;;
  link_selector <- lift (get_link_selector (config self)) ;;
  r <- on_local (CatalogParser.__init__ (UrlList urls) link_selector (auth self))
                CatalogParser.parse ;;
  log_categories (fst r) [].

Definition _parse_products `{Network} `{Html} `{Pandas.Options}
           (urls : list string)
  : M t Pandas.DataFrame :=
  self <- get_self ;;
  selectors <- lift (get_selectors (config self)) ;;
  r <- on_local (PageParser.__init__ (UrlList urls) selectors (auth self))
                PageParser.parse ;;
  ret (fst r).

Definition ARTICLE : string := "Артикул".

(** [df.empty] *)
Definition frame_empty (d : Pandas.DataFrame) : bool :=
  Nat.eqb (List.length (Pandas.rows d)) 0
  || Nat.eqb (List.length (Pandas.columns d)) 0.

(** The lambda of [_normalize_article]:
    [f"123-{x}" if x and not pd.isna(x) else x]. *)
Definition prefix_article (x : Pandas.cell) : Pandas.cell :=
  match x with
  | Pandas.Value (Some s) =>
    if truthy s then Pandas.Value (Some ("123-" ++ s)) else x
  | _ => x
  end.

Fixpoint update_nth {A} (n : nat) (f : A -> A) (l : list A) : list A :=
  match n, l with
  | _, [] => []
  | O, x :: rest => f x :: rest
  | S n', x :: rest => x :: update_nth n' f rest
  end.

(** [_normalize_article(df)], for a frame with distinct column labels, as
    [pd.DataFrame(list of dicts)] builds them. *)
Definition _normalize_article (d : Pandas.DataFrame) : Pandas.DataFrame :=
  if negb (frame_empty d) && mem ARTICLE (Pandas.columns d)
  then
    match Pandas.position ARTICLE (Pandas.columns d) with
    | Some i =>
      {| Pandas.index := Pandas.index d;
         Pandas.columns := Pandas.columns d;
         Pandas.rows := map (update_nth i prefix_article) (Pandas.rows d) |}
    | None => d
    end
  else d.

Definition set_parsing (b : bool) : M t unit :=
  fun self w =>
    (Ret tt,
     set_session {| df := df (session_state self); parsing := b;
                    stop_requested := stop_requested (session_state self) |}
                 self, w).

Definition set_stop_requested (b : bool) : M t unit :=
  fun self w =>
    (Ret tt,
     set_session {| df := df (session_state self);
                    parsing := parsing (session_state self);
                    stop_requested := b |} self, w).

Definition set_df (d : Pandas.DataFrame) : M t unit :=
  fun self w =>
    (Ret tt,
     set_session {| df := d; parsing := parsing (session_state self);
                    stop_requested := stop_requested (session_state self) |}
                 self, w).

Definition NO_LINKS : string := "Не найдено ссылок на товары в каталоге".
Definition RUN_FAILED : string := "Произошла ошибка в процессе парсинга".

(** The first three statements of the branch [if start_btn and input_urls:]
    of [run]. *)
Definition start_prelude : M t unit :=
  set_parsing true ;;;
  set_stop_requested false ;;;
  (self <- get_self ;;
   set_self (set_logger (StreamlitLogger.clear (logger self)) self)).

(** The interface after these three statements. *)
Definition started (self : t) : t :=
  {| config := config self; auth := auth self;
     logger := StreamlitLogger.clear (logger self);
     session_state :=
       {| df := df (session_state self); parsing := true;
          stop_requested := false |};
     st_errors := st_errors self |}.

(** The body of its [try]; the early [return] of the catalog branch ends
    it. *)
Definition start_body `{Network} `{Html} `{Pandas.Options} `{PyText}
           (link_type : string) (input_urls : list string) : M t unit :=
  if String.eqb link_type InputManager.CATALOG then
    log "Начат парсинг каталога..." "info" ;;;
    product_urls <- _parse_catalog input_urls ;;
    if Nat.eqb (List.length product_urls) 0 then
      st_error NO_LINKS ;;; set_parsing false
    else
      log ("Всего товаров для парсинга: "
           ++ str_nat (List.length product_urls)) "info" ;;;
      d <- _parse_products product_urls ;;
      set_df d ;;;
      log "Парсинг успешно завершен!" "success"
  else
    log "Начат парсинг карточек товаров..." "info" ;;;
    d <- _parse_products input_urls ;;
    set_df d ;;;
    log "Парсинг успешно завершен!" "success".

(** The branch [if start_btn and input_urls:] of [run], with its [try],
    [except Exception] and [finally]. *)
Definition run_start `{Network} `{Html} `{Pandas.Options} `{PyText}
           (start_btn : bool) (link_type : string) (input_urls : list string)
  : M t unit :=
  if start_btn && negb (Nat.eqb (List.length input_urls) 0) then
    start_prelude ;;;
    try_except_as
      (start_body link_type input_urls)
      (fun e => log ("Критическая ошибка: " ++ exn_str e) "error" ;;;
                st_error RUN_FAILED) ;;;
    set_parsing false
  else ret tt.

End WebInterface.

(** Fixtures for the interface. *)
Module DemoUi.
Import Py.

Definition upper_ascii (s : string) : string :=
  str (map (fun c => if (97 <=? code c) && (code c <=? 122)
                     then ascii_of_N (Z.to_N (code c - 32)) else c)
           (chars s)).

Definition exn_name (e : exn) : string :=
  match e with
  | ConnectionError => "ConnectionError"
  | Timeout => "Timeout"
  | InvalidURL => "InvalidURL"
  | ValueError => "ValueError"
  | KeyError key => "'" ++ key ++ "'"
  | SelectorSyntaxError => "SelectorSyntaxError"
  | OtherError name => name
  end.

Definition text : PyText :=
  {| str_upper := upper_ascii; exn_str := exn_name |}.

Definition config (password : string) : WebInterface.Config :=
  {| WebInterface.get_auth_credentials := Ret ("user@x.test", password);
     WebInterface.get_link_selector := Ret ".item";
     WebInterface.get_selectors := Ret Demo.selectors |}.

Definition app (password : string) (auth : option CNC1Auth.t)
  : WebInterface.t :=
  {| WebInterface.config := config password;
     WebInterface.auth := auth;
     WebInterface.logger := StreamlitLogger.__init__;
     WebInterface.session_state :=
       {| WebInterface.df := WebInterface.empty_frame;
          WebInterface.parsing := false;
          WebInterface.stop_requested := false |};
     WebInterface.st_errors := [] |}.

Definition file : ConfigReader.t :=
  {| ConfigReader.config_path := "/srv/app/config.json";
     ConfigReader.config_data :=
       ConfigReader.JDict
         [("auth", ConfigReader.JDict
                     [("email", ConfigReader.JStr "user@x.test");
                      ("pass", ConfigReader.JStr "secret");
                      ("password", ConfigReader.JStr "ignored")]);
          ("settings", ConfigReader.JDict
                         [("link_selector", ConfigReader.JStr ".item")])] |}.

(** The site of the fixtures, with one url that the client rejects with a
    plain [ValueError]. *)
Definition bad_url : string := "https://x.test/bad".

Definition strict : Requests.Network :=
  {| Requests.network := fun _ rq =>
       if String.eqb (Requests.r_url rq) bad_url then Raise ValueError
       else Demo.site 200 rq |}.

(** A SelectorMap whose second selector does not compile. *)
Definition bad_selectors : dict string := [("Title", "h1"); ("Bad", "[")].

(** A catalog page listed twice around a page that times out. *)
Definition catalog_run
  : outcome (dict (list string)) * CatalogParser.t * list Requests.request :=
  @CatalogParser.parse Demo.online Demo.html
    (CatalogParser.__init__
       (UrlList [Demo.catalog_url; Demo.p2; Demo.catalog_url]) ".item" None)
    [].

(** [parse] called once more on the object [Demo.page_run] left. *)
Definition page_rerun
  : outcome Pandas.DataFrame * PageParser.t * list Requests.request :=
  @PageParser.parse Demo.online Demo.html Demo.pandas2
    (snd (fst (Demo.page_run Demo.pandas2))) (snd (Demo.page_run Demo.pandas2)).

Definition typed : string :=
  "https://a.test/1, ftp://b.test ,http://c.test/?q=1"
  ++ StreamlitLogger.newline ++ "  https://d.test/?SHOWALL_1=1  ".

Definition articles : Pandas.DataFrame :=
  {| Pandas.index :=
       Pandas.LabelIndex "URL"
         [Pandas.Value (Some Demo.p1); Pandas.Value (Some Demo.p2)];
     Pandas.columns := ["Title"; WebInterface.ARTICLE];
     Pandas.rows :=
       [[Pandas.Value (Some "Widget"); Pandas.Value (Some "A-7")];
        [Pandas.Value None; Pandas.Value None]] |}.

End DemoUi.

(* ===================================================================== *)
(** ** AuthSession ([CNC1Auth])                                          *)
(* ===================================================================== *)

Section AuthFacts.
Import Py Requests.
Context {net : Network}.

(** [login] in one equation: one POST, then the test of the answer. *)
Lemma login_unfold (self : CNC1Auth.t) (w : list request) :
  CNC1Auth.login self w =
  let rq := Spec.login_request self in
  match network w rq with
  | Ret r =>
    if Spec.login_accepts r
    then (Ret true, CNC1Auth.set_authenticated true self, (w ++ [rq])%list)
    else (Ret false, self, (w ++ [rq])%list)
  | Raise e => (Raise e, self, (w ++ [rq])%list)
  end.
Proof.
  unfold CNC1Auth.login, bind, get_self, session_post, send, set_self, ret.
  cbn zeta. fold (Spec.login_request self).
  destruct (network w (Spec.login_request self)) as [r|e]; [|reflexivity].
  unfold Spec.login_accepts.
  destruct ((status_code r =? 200)
            && negb (contains CNC1Auth.FAILURE_MARKER (text r))); reflexivity.
Qed.

(** [get] in one equation. *)
Lemma get_unfold (url : string) (kw : CNC1Auth.kwargs)
      (self : CNC1Auth.t) (w : list request) :
  CNC1Auth.get url kw self w =
  if CNC1Auth._is_authenticated self
  then match CNC1Auth.pop_headers kw with
       | Some _ =>
         match network w (Spec.get_request url kw) with
         | Ret r => (Ret (Some r), self, (w ++ [Spec.get_request url kw])%list)
         | Raise e => (Raise e, self, (w ++ [Spec.get_request url kw])%list)
         end
       | None => (Raise AttributeError, self, w)
       end
  else (Ret None, self, w).
Proof.
  unfold CNC1Auth.get, bind, get_self, session_get, send, ret, lift.
  destruct (CNC1Auth._is_authenticated self); cbn; [|reflexivity].
  unfold Spec.get_request.
  destruct (CNC1Auth.pop_headers kw) as [headers|]; [|reflexivity].
  match goal with |- context [network w ?rq] =>
    destruct (network w rq) end; reflexivity.
Qed.

Lemma login_keeps_authenticated (self : CNC1Auth.t) (w : list request) :
  CNC1Auth._is_authenticated self = true ->
  CNC1Auth._is_authenticated (snd (fst (CNC1Auth.login self w))) = true.
Proof.
  intros Ha. rewrite login_unfold. cbn zeta.
  destruct (network w (Spec.login_request self)) as [r|e]; cbn; auto.
  destruct (Spec.login_accepts r); cbn; auto.
Qed.

Lemma get_keeps_self (url : string) (kw : CNC1Auth.kwargs)
      (self : CNC1Auth.t) (w : list request) :
  snd (fst (CNC1Auth.get url kw self w)) = self.
Proof.
  rewrite get_unfold.
  destruct (CNC1Auth._is_authenticated self); [|reflexivity].
  destruct (CNC1Auth.pop_headers kw); [|reflexivity].
  destruct (network w (Spec.get_request url kw)); reflexivity.
Qed.

Lemma step_keeps_authenticated (o : CNC1Auth.op) (self : CNC1Auth.t)
      (w : list request) :
  CNC1Auth._is_authenticated self = true ->
  CNC1Auth._is_authenticated (fst (CNC1Auth.step o self w)) = true.
Proof.
  intros Ha. destruct o as [|url kw| |]; unfold CNC1Auth.step; auto.
  - pose proof (login_keeps_authenticated self w Ha) as Hl.
    destruct (CNC1Auth.login self w) as [[r s] w']. exact Hl.
  - pose proof (get_keeps_self url kw self w) as Hg.
    destruct (CNC1Auth.get url kw self w) as [[r s] w']. cbn in *.
    now subst s.
Qed.

(** C3, as amended.  When the POST of [login] comes back with a response,
    [login] raises nothing and returns a boolean; when it returns false the
    object is left as it was, so a session that was unauthenticated stays
    so.  When the POST itself raises, as on a transport failure, [login] does
    not turn the failure into false: the exception leaves [login], the
    object again left as it was. *)
Theorem login_signals_failure (self : CNC1Auth.t) (w : list request) :
  (forall r, network w (Spec.login_request self) = Ret r ->
     exists b s,
       CNC1Auth.login self w = (Ret b, s, (w ++ [Spec.login_request self])%list)
       /\ (b = false -> s = self)) /\
  (forall e, network w (Spec.login_request self) = Raise e ->
     CNC1Auth.login self w
     = (Raise e, self, (w ++ [Spec.login_request self])%list)).
Proof.
  split.
  - intros r Hr. rewrite login_unfold. cbn zeta. rewrite Hr.
    destruct (Spec.login_accepts r).
    + exists true, (CNC1Auth.set_authenticated true self). split; [reflexivity|].
      discriminate.
    + exists false, self. split; reflexivity.
  - intros e He. rewrite login_unfold. cbn zeta. now rewrite He.
Qed.

(** C4, as amended.  For a POST that completes with response [r], [login]
    returns true, and then leaves the object authenticated, if and only if
    the status code is exactly 200 and the body does not contain the failure
    marker; in every other completed exchange it returns false and leaves
    the object as it was. *)
Theorem login_true_iff_200_without_marker
        (self : CNC1Auth.t) (w : list request) (r : response) :
  network w (Spec.login_request self) = Ret r ->
  (fst (fst (CNC1Auth.login self w)) = Ret true
   <-> status_code r = 200
       /\ contains CNC1Auth.FAILURE_MARKER (text r) = false) /\
  (fst (fst (CNC1Auth.login self w)) = Ret true ->
   CNC1Auth.is_authenticated (snd (fst (CNC1Auth.login self w))) = true) /\
  (fst (fst (CNC1Auth.login self w)) <> Ret true ->
   fst (fst (CNC1Auth.login self w)) = Ret false
   /\ snd (fst (CNC1Auth.login self w)) = self).
Proof.
  intros Hr. rewrite login_unfold. cbn zeta. rewrite Hr.
  unfold Spec.login_accepts.
  destruct (Z.eqb_spec (status_code r) 200) as [H200|H200];
    destruct (contains CNC1Auth.FAILURE_MARKER (text r)) eqn:Hm; cbn;
    repeat split; try tauto; try discriminate; try congruence;
    intros [? ?]; congruence.
Qed.

(** C5.  While the object is unauthenticated, [get] returns [None] and
    leaves the list of calls untouched, whatever the url and the keyword
    arguments, [headers=None] included: a counter of network calls does not
    move.  Only once authenticated does [get] send a call, and then exactly
    one, a GET through the session; the one exception is a caller that
    passes [headers=None], on which the authenticated [get] raises
    [AttributeError] before it sends anything. *)
Theorem get_unauthenticated_sends_nothing
        (url : string) (kw : CNC1Auth.kwargs)
        (self : CNC1Auth.t) (w : list request) :
  (CNC1Auth.is_authenticated self = false ->
   CNC1Auth.get url kw self w = (Ret None, self, w)) /\
  (CNC1Auth.is_authenticated self = true ->
   CNC1Auth.kw_headers kw <> Some None ->
   exists rq,
     snd (CNC1Auth.get url kw self w) = (w ++ [rq])%list
     /\ r_method rq = GET /\ r_url rq = url /\ via_session rq = true) /\
  (CNC1Auth.is_authenticated self = true ->
   CNC1Auth.kw_headers kw = Some None ->
   CNC1Auth.get url kw self w = (Raise AttributeError, self, w)).
Proof.
  unfold CNC1Auth.is_authenticated. rewrite get_unfold.
  split; [|split]; intros Ha; rewrite Ha.
  - reflexivity.
  - intros Hh. exists (Spec.get_request url kw).
    unfold CNC1Auth.pop_headers.
    destruct (CNC1Auth.kw_headers kw) as [[h|]|]; [|contradiction|];
      destruct (network w (Spec.get_request url kw)); cbn; auto.
  - intros Hh. unfold CNC1Auth.pop_headers. now rewrite Hh.
Qed.

(** C9.  Whatever calls are made on an instance, in whatever order and with
    whatever answers from the network, an authenticated instance stays
    authenticated: no call, a later failed or failing [login] included,
    takes it back. *)
Theorem authenticated_is_forever
        (ops : list CNC1Auth.op) (self : CNC1Auth.t) (w : list request) :
  CNC1Auth.is_authenticated self = true ->
  CNC1Auth.is_authenticated (fst (CNC1Auth.run ops self w)) = true.
Proof.
  unfold CNC1Auth.is_authenticated.
  revert self w. induction ops as [|o ops IH]; intros self w Ha; auto.
  cbn [CNC1Auth.run].
  pose proof (step_keeps_authenticated o self w Ha) as Hs.
  destruct (CNC1Auth.step o self w) as [s w']. now apply IH.
Qed.

End AuthFacts.

(* ===================================================================== *)
(** ** The two fetch operations                                          *)
(* ===================================================================== *)

Section LinkFacts.
Import Py Requests Bs4.
Context {htm : Html}.

(** The loop of [_extract_links] joins the kept hrefs one by one and appends
    them to what it has. *)
Lemma extract_loop_join (base_url : string) (elements : list element) :
  forall links,
  CatalogParser.extract_loop elements base_url links
  = obind (Spec.join_all base_url (Spec.kept_hrefs elements))
          (fun us => Ret (links ++ us)%list).
Proof.
  induction elements as [|el elements IH]; intros links.
  - cbn. now rewrite app_nil_r.
  - cbn [CatalogParser.extract_loop]. unfold Spec.kept_hrefs in *.
    cbn [flat_map]. destruct (attr el "href") as [h|]; cbn [app map filter].
    + destruct (truthy (strip h)); [|apply IH].
      cbn [Spec.join_all].
      destruct (UrlParse.urljoin base_url (strip h)) as [u|e]; cbn [obind];
        [|reflexivity].
      rewrite IH.
      destruct (Spec.join_all base_url
                  (filter truthy
                     (map strip
                        (flat_map
                           (fun el0 => match attr el0 "href" with
                                       | Some h0 => [h0]
                                       | None => []
                                       end) elements)))) as [us|e];
        cbn [obind]; [|reflexivity].
      now rewrite <- app_assoc.
    + apply IH.
Qed.

(** [_extract_links] gives the links of the page, and [_get_page_key] its
    key. *)
Lemma extract_links_eq (self : CatalogParser.t) (sp : soup) (base_url : string) :
  CatalogParser._extract_links self sp base_url
  = Spec.page_links (CatalogParser.link_selector self) sp base_url.
Proof.
  unfold CatalogParser._extract_links, Spec.page_links.
  destruct (select sp (CatalogParser.link_selector self)) as [elements|e];
    cbn [obind]; [|reflexivity].
  rewrite extract_loop_join.
  destruct (Spec.join_all base_url (Spec.kept_hrefs elements)); reflexivity.
Qed.

Lemma get_page_key_eq (sp : soup) (url : string) :
  CatalogParser._get_page_key sp url = Spec.page_key sp url.
Proof. reflexivity. Qed.

End LinkFacts.

Section FetchFacts.
Import Py Requests Bs4.
Context {net : Network} {htm : Html}.

(** [CatalogParser._fetch_page]: one call, the object untouched. *)
Lemma catalog_fetch_unfold (url : string) (self : CatalogParser.t)
      (w : list request) :
  CatalogParser._fetch_page url self w =
  let rq := Spec.request_for (CatalogParser.auth self) (Some 10) url in
  (Spec.fetched is_RequestException (network w rq), self, (w ++ [rq])%list).
Proof.
  destruct self as [us ls au res].
  unfold CatalogParser._fetch_page, try_except, bind, get_self, call.
  cbn zeta. unfold Spec.request_for. cbn [CatalogParser.auth].
  destruct au as [a|].
  - destruct (CNC1Auth.is_authenticated a) eqn:Ha.
    + rewrite get_unfold. unfold CNC1Auth.is_authenticated in Ha. rewrite Ha.
      change (Spec.get_request url CNC1Auth.no_kwargs)
        with {| r_method := GET; r_url := url;
                r_headers := [("User-Agent", CNC1Auth.USER_AGENT)];
                r_data := []; r_timeout := None; via_session := true |}.
      cbn zeta.
      match goal with |- context [network w ?rq] =>
        destruct (network w rq) as [r|e] end; cbn; [reflexivity|].
      destruct (is_RequestException e); reflexivity.
    + unfold requests_get, send, ret. cbn zeta.
      match goal with |- context [network w ?rq] =>
        destruct (network w rq) as [r|e] end; cbn; [reflexivity|].
      destruct (is_RequestException e); reflexivity.
  - unfold requests_get, send, ret. cbn zeta.
    match goal with |- context [network w ?rq] =>
      destruct (network w rq) as [r|e] end; cbn; [reflexivity|].
    destruct (is_RequestException e); reflexivity.
Qed.

(** [PageParser._fetch_page]: one call, the object untouched. *)
Lemma page_fetch_unfold (url : string) (self : PageParser.t)
      (w : list request) :
  PageParser._fetch_page url self w =
  let rq := Spec.request_for (PageParser.auth self) None url in
  (Spec.fetched PageParser.catches (network w rq), self, (w ++ [rq])%list).
Proof.
  destruct self as [us ss au d].
  unfold PageParser._fetch_page, try_except, bind, get_self, call.
  cbn zeta. unfold Spec.request_for. cbn [PageParser.auth].
  destruct au as [a|].
  - destruct (CNC1Auth.is_authenticated a) eqn:Ha.
    + rewrite get_unfold. unfold CNC1Auth.is_authenticated in Ha. rewrite Ha.
      change (Spec.get_request url CNC1Auth.no_kwargs)
        with {| r_method := GET; r_url := url;
                r_headers := [("User-Agent", CNC1Auth.USER_AGENT)];
                r_data := []; r_timeout := None; via_session := true |}.
      cbn zeta.
      match goal with |- context [network w ?rq] =>
        destruct (network w rq) as [r|e] end; cbn; [reflexivity|].
      destruct (PageParser.catches e); reflexivity.
    + unfold requests_get, send, ret. cbn zeta.
      match goal with |- context [network w ?rq] =>
        destruct (network w rq) as [r|e] end; cbn; [reflexivity|].
      destruct (PageParser.catches e); reflexivity.
  - unfold requests_get, send, ret. cbn zeta.
    match goal with |- context [network w ?rq] =>
      destruct (network w rq) as [r|e] end; cbn; [reflexivity|].
    destruct (PageParser.catches e); reflexivity.
Qed.

(** One turn of the loop of [CatalogParser.parse]. *)
Lemma catalog_parse_url_unfold (url : string) (self : CatalogParser.t)
      (w : list request) :
  CatalogParser.parse_url url self w =
  let rq := Spec.request_for (CatalogParser.auth self) (Some 10) url in
  match Spec.catalog_entry self url
          (Spec.fetched is_RequestException (network w rq)) with
  | Ret kv =>
    (Ret tt,
     CatalogParser.set_result
       (dict_set (CatalogParser.result self) (fst kv) (snd kv)) self,
     (w ++ [rq])%list)
  | Raise e => (Raise e, self, (w ++ [rq])%list)
  end.
Proof.
  unfold CatalogParser.parse_url, bind. rewrite catalog_fetch_unfold. cbn zeta.
  destruct (Spec.fetched is_RequestException
              (network w (Spec.request_for (CatalogParser.auth self)
                                           (Some 10) url)))
    as [[r|]|e]; cbn [Spec.catalog_entry obind]; try reflexivity.
  destruct (negb (status_code r =? 200)); [reflexivity|].
  unfold get_self, lift, set_self. rewrite extract_links_eq, get_page_key_eq.
  destruct (Spec.page_links (CatalogParser.link_selector self)
                            (BeautifulSoup (content r)) url);
    reflexivity.
Qed.

(** One turn of the loop of [PageParser.parse]. *)
Lemma page_parse_url_unfold (url : string) (self : PageParser.t)
      (w : list request) :
  PageParser.parse_url url self w =
  let rq := Spec.request_for (PageParser.auth self) None url in
  match Spec.page_record (PageParser.selectors self) url
          (Spec.fetched PageParser.catches (network w rq)) with
  | Ret rec =>
    (Ret tt,
     PageParser.set_data (PageParser.data self ++ [rec])%list self,
     (w ++ [rq])%list)
  | Raise e => (Raise e, self, (w ++ [rq])%list)
  end.
Proof.
  unfold PageParser.parse_url, bind. rewrite page_fetch_unfold. cbn zeta.
  destruct (Spec.fetched PageParser.catches
              (network w (Spec.request_for (PageParser.auth self) None url)))
    as [[r|]|e]; cbn [Spec.page_record obind]; try reflexivity.
  destruct (negb (ok r)); [reflexivity|].
  unfold PageParser._parse_page, bind, get_self, lift, set_self.
  destruct (PageParser.fill_row (BeautifulSoup (content r))
              (PageParser.selectors self) [("URL", Some url)]);
    reflexivity.
Qed.

End FetchFacts.

(* ===================================================================== *)
(** ** Dicts                                                             *)
(* ===================================================================== *)

Section DictFacts.
Import Py.
Context {V : Type}.
Implicit Types (d : dict V) (k : string) (v : V).

Lemma mem_In (k : string) (l : list string) : mem k l = true <-> In k l.
Proof.
  unfold mem. rewrite existsb_exists. split.
  - intros [x [Hin Heq]]. apply String.eqb_eq in Heq. now subst.
  - intros Hin. exists k. split; [assumption | apply String.eqb_refl].
Qed.

Lemma mem_false_not_In (k : string) (l : list string) :
  mem k l = false <-> ~ In k l.
Proof.
  rewrite <- mem_In. destruct (mem k l); split; congruence.
Qed.

Lemma dict_get_set_same d k v : dict_get (dict_set d k v) k = Some v.
Proof.
  induction d as [|[k' v'] d IH]; cbn.
  - now rewrite String.eqb_refl.
  - destruct (String.eqb k' k) eqn:E; cbn; rewrite E; auto.
Qed.

Lemma dict_get_set_other d k k' v :
  k' <> k -> dict_get (dict_set d k v) k' = dict_get d k'.
Proof.
  intros Hne. induction d as [|[k0 v0] d IH]; cbn.
  - destruct (String.eqb_spec k k'); congruence.
  - destruct (String.eqb_spec k0 k) as [->|Hk]; cbn.
    + destruct (String.eqb_spec k k'); congruence.
    + destruct (String.eqb_spec k0 k'); auto.
Qed.


(** Writing a key the dict does not have appends it. *)
Lemma dict_set_fresh d k v :
  ~ In k (dict_keys d) -> dict_set d k v = (d ++ [(k, v)])%list.
Proof.
  induction d as [|[k' v'] d IH]; cbn; intros Hn; [reflexivity|].
  destruct (String.eqb_spec k' k) as [->|Hne].
  - exfalso. apply Hn. now left.
  - f_equal. apply IH. intros Hin. apply Hn. now right.
Qed.

Lemma dict_keys_app d1 d2 :
  dict_keys (d1 ++ d2)%list = (dict_keys d1 ++ dict_keys d2)%list.
Proof. unfold dict_keys. apply map_app. Qed.

(** Updating with items whose keys are new and pairwise distinct appends
    them in order. *)
Lemma dict_update_fresh (items : dict V) : forall d,
  unique_keys items = true ->
  (forall k, In k (dict_keys items) -> ~ In k (dict_keys d)) ->
  dict_update d items = (d ++ items)%list.
Proof.
  unfold dict_update.
  induction items as [|[k v] items IH]; intros d Hu Hf; cbn.
  - now rewrite app_nil_r.
  - cbn in Hu. apply andb_true_iff in Hu as [Hk Hu].
    apply negb_true_iff, mem_false_not_In in Hk.
    rewrite dict_set_fresh by (apply Hf; now left).
    rewrite IH; auto.
    + now rewrite <- app_assoc.
    + intros k' Hin. rewrite dict_keys_app, in_app_iff. cbn.
      intros [Hd|[<-|[]]].
      * apply (Hf k'); [now right | assumption].
      * contradiction.
Qed.

(** In a dict with distinct keys every item is what its key looks up. *)
Lemma dict_get_In_unique d k v :
  unique_keys d = true -> In (k, v) d -> dict_get d k = Some v.
Proof.
  induction d as [|[k' v'] d IH]; cbn; intros Hu Hin; [contradiction|].
  apply andb_true_iff in Hu as [Hk Hu].
  apply negb_true_iff, mem_false_not_In in Hk.
  destruct Hin as [Heq|Hin].
  - inversion Heq; subst. now rewrite String.eqb_refl.
  - destruct (String.eqb_spec k' k) as [->|Hne].
    + exfalso. apply Hk. unfold dict_keys.
      change k with (fst (k, v)). now apply in_map.
    + auto.
Qed.

End DictFacts.

Section WrittenFacts.
Import Py.



(** The last entry written under a key is what the result holds. *)
Lemma written_last (entries : list (string * list string)) :
  forall d i k v,
    nth_error entries i = Some (k, v) ->
    (forall j kv, (i < j)%nat -> nth_error entries j = Some kv -> fst kv <> k) ->
    dict_get (Spec.written entries d) k = Some v.
Proof.
  induction entries as [|[k' v'] entries IH]; intros d i k v Hn Hlater.
  - destruct i; discriminate.
  - unfold Spec.written. cbn. destruct i as [|i]; cbn in Hn.
    + inversion Hn; subst. clear Hn.
      assert (Hgen : forall es d0,
                 (forall j kv, nth_error es j = Some kv -> fst kv <> k) ->
                 dict_get d0 k = Some v ->
                 dict_get (Spec.written es d0) k = Some v).
      { induction es as [|[k1 v1] es IHes]; intros d0 Hne Hd0; cbn; auto.
        apply IHes.
        - intros j kv Hj. apply (Hne (S j) kv Hj).
        - rewrite dict_get_set_other; auto.
          intros ->. apply (Hne O (k1, v1)); reflexivity. }
      apply Hgen.
      * intros j kv Hj. apply (Hlater (S j) kv); [lia | exact Hj].
      * apply dict_get_set_same.
    + apply (IH _ i); auto.
      intros j kv Hlt Hj. apply (Hlater (S j) kv); [lia | exact Hj].
Qed.

End WrittenFacts.

(* ===================================================================== *)
(** ** Loops over the urls                                               *)
(* ===================================================================== *)

Section LoopFacts.
Import Py Requests.
Context {net : Network}.
Variables (S X E : Type).
(** The call one turn sends, the entry it computes from the answer, and the
    update of the object with that entry. *)
Variable rq : S -> X -> request.
Variable entry : S -> X -> outcome response -> outcome E.
Variable upd : E -> S -> S.
Variable body : X -> M S unit.

Hypothesis body_unfold : forall x s w,
  body x s w =
  match entry s x (network w (rq s x)) with
  | Ret e => (Ret tt, upd e s, (w ++ [rq s x])%list)
  | Raise ex => (Raise ex, s, (w ++ [rq s x])%list)
  end.
Hypothesis rq_upd : forall e s x, rq (upd e s) x = rq s x.
Hypothesis entry_upd : forall e s x o, entry (upd e s) x o = entry s x o.

Lemma answer_shift (w : list request) (r0 : request) (rqs : list request)
      (i : nat) (r : request) :
  Spec.answer (w ++ [r0])%list rqs i r = Spec.answer w (r0 :: rqs) (Datatypes.S i) r.
Proof.
  unfold Spec.answer. cbn [firstn]. now rewrite <- app_assoc.
Qed.

Lemma answer_first (w : list request) (rqs : list request) (r : request) :
  Spec.answer w rqs 0 r = network w r.
Proof. unfold Spec.answer. cbn. now rewrite app_nil_r. Qed.

(** When every turn computes an entry, the loop runs to its end: it sends
    one call per item, in order, and applies the entries in order. *)
Lemma for_each_entries (xs : list X) : forall s w,
  (forall i x, nth_error xs i = Some x ->
     returns (entry s x (Spec.answer w (map (rq s) xs) i (rq s x))) = true) ->
  exists es,
    for_each xs body s w
    = (Ret tt, fold_left (fun acc e => upd e acc) es s,
       (w ++ map (rq s) xs)%list)
    /\ List.length es = List.length xs
    /\ forall i x, nth_error xs i = Some x ->
         exists e, nth_error es i = Some e
                   /\ entry s x (Spec.answer w (map (rq s) xs) i (rq s x))
                      = Ret e.
Proof.
  induction xs as [|x xs IH]; intros s w Hret.
  - exists []. cbn. rewrite app_nil_r. repeat split.
    intros [|i] y Hy; discriminate.
  - pose proof (Hret O x eq_refl) as H0. rewrite answer_first in H0.
    destruct (entry s x (network w (rq s x))) as [e|ex] eqn:He;
      [clear H0 | discriminate].
    destruct (IH (upd e s) (w ++ [rq s x])%list) as (es & Hrun & Hlen & Hnth).
    { intros i y Hy. rewrite entry_upd, rq_upd.
      replace (map (rq (upd e s)) xs) with (map (rq s) xs)
        by (apply map_ext; intros; now rewrite rq_upd).
      rewrite answer_shift. exact (Hret (Datatypes.S i) y Hy). }
    exists (e :: es). split; [|split].
    + cbn [for_each]. unfold bind at 1. rewrite body_unfold, He, Hrun.
      cbn [fold_left map]. f_equal.
      replace (map (rq (upd e s)) xs) with (map (rq s) xs)
        by (apply map_ext; intros; now rewrite rq_upd).
      now rewrite <- app_assoc.
    + cbn. now rewrite Hlen.
    + intros [|i] y Hy; cbn in Hy.
      * inversion Hy; subst y. exists e. split; [reflexivity|].
        now rewrite answer_first.
      * destruct (Hnth i y Hy) as (e' & He' & Hent). exists e'.
        split; [exact He'|].
        rewrite entry_upd, rq_upd in Hent.
        replace (map (rq (upd e s)) xs) with (map (rq s) xs) in Hent
          by (apply map_ext; intros; now rewrite rq_upd).
        rewrite answer_shift in Hent. exact Hent.
Qed.

(** Conversely, a loop that ran to its end computed an entry at every
    turn. *)
Lemma for_each_returned (xs : list X) : forall s w u s' w',
  for_each xs body s w = (Ret u, s', w') ->
  forall i x, nth_error xs i = Some x ->
    returns (entry s x (Spec.answer w (map (rq s) xs) i (rq s x))) = true.
Proof.
  induction xs as [|x xs IH]; intros s w u s' w' Hrun i y Hy.
  - destruct i; discriminate.
  - cbn [for_each] in Hrun. unfold bind at 1 in Hrun.
    rewrite body_unfold in Hrun.
    destruct (entry s x (network w (rq s x))) as [e|ex] eqn:He;
      [|discriminate].
    destruct i as [|i]; cbn in Hy.
    + inversion Hy; subst y. now rewrite answer_first, He.
    + specialize (IH _ _ _ _ _ Hrun i y Hy).
      rewrite entry_upd, rq_upd in IH.
      replace (map (rq (upd e s)) xs) with (map (rq s) xs) in IH
        by (apply map_ext; intros; now rewrite rq_upd).
      rewrite answer_shift in IH. exact IH.
Qed.

(** The first turn that raises ends the loop: the turns before it have
    updated the object, its own call is the last one sent. *)
Lemma for_each_aborts (xs : list X) : forall s w i x ex,
  nth_error xs i = Some x ->
  (forall j y, (j < i)%nat -> nth_error xs j = Some y ->
     returns (entry s y (Spec.answer w (map (rq s) xs) j (rq s y))) = true) ->
  entry s x (Spec.answer w (map (rq s) xs) i (rq s x)) = Raise ex ->
  exists es,
    for_each xs body s w
    = (Raise ex, fold_left (fun acc e => upd e acc) es s,
       (w ++ map (rq s) (firstn (Datatypes.S i) xs))%list)
    /\ List.length es = i
    /\ forall j y, (j < i)%nat -> nth_error xs j = Some y ->
         exists e, nth_error es j = Some e
                   /\ entry s y (Spec.answer w (map (rq s) xs) j (rq s y))
                      = Ret e.
Proof.
  induction xs as [|x0 xs IH]; intros s w i x ex Hi Hbefore Hraise.
  - destruct i; discriminate.
  - destruct i as [|i]; cbn in Hi.
    + inversion Hi; subst x0. rewrite answer_first in Hraise.
      exists []. split; [|split].
      * cbn [for_each]. unfold bind at 1. rewrite body_unfold, Hraise.
        reflexivity.
      * reflexivity.
      * intros j y Hj. lia.
    + pose proof (Hbefore O x0 ltac:(lia) eq_refl) as H0.
      rewrite answer_first in H0.
      destruct (entry s x0 (network w (rq s x0))) as [e|ex0] eqn:He;
        [clear H0 | discriminate].
      assert (Hmap : map (rq (upd e s)) xs = map (rq s) xs)
        by (apply map_ext; intros; now rewrite rq_upd).
      destruct (IH (upd e s) (w ++ [rq s x0])%list i x ex Hi)
        as (es & Hrun & Hlen & Hnth).
      { intros j y Hj Hy. rewrite entry_upd, rq_upd, Hmap, answer_shift.
        apply (Hbefore (Datatypes.S j) y); [lia | exact Hy]. }
      { rewrite entry_upd, rq_upd, Hmap, answer_shift. exact Hraise. }
      exists (e :: es). split; [|split].
      * cbn [for_each]. unfold bind at 1. rewrite body_unfold, He, Hrun.
        cbn [fold_left]. f_equal.
        change (firstn (Datatypes.S (Datatypes.S i)) (x0 :: xs))
          with (x0 :: firstn (Datatypes.S i) xs).
        cbn [map]. rewrite <- app_assoc.
        f_equal. cbn [app]. f_equal.
        apply map_ext. intros. now rewrite rq_upd.
      * cbn. now rewrite Hlen.
      * intros [|j] y Hj Hy; cbn in Hy.
        -- inversion Hy; subst y. exists e. split; [reflexivity|].
           now rewrite answer_first.
        -- destruct (Hnth j y ltac:(lia) Hy) as (e' & He' & Hent).
           exists e'. split; [exact He'|].
           rewrite entry_upd, rq_upd, Hmap, answer_shift in Hent. exact Hent.
Qed.

End LoopFacts.

(* ===================================================================== *)
(** ** pandas                                                            *)
(* ===================================================================== *)

Section PandasFacts.
Import Py Pandas.
Context {opt : Options}.

Lemma position_of_mem (col : string) (cols : list string) :
  mem col cols = true -> exists i, position col cols = Some i.
Proof.
  induction cols as [|c cols IH]; cbn; [discriminate|].
  rewrite (String.eqb_sym col c).
  destruct (String.eqb c col); cbn.
  - intros _. now exists O.
  - intros H. destruct (IH H) as [i Hi]. rewrite Hi. now exists (S i).
Qed.

Lemma position_nth_map {A} (f : string -> A) (dflt : A) (col : string)
      (cols : list string) : forall i,
  position col cols = Some i -> nth i (map f cols) dflt = f col.
Proof.
  induction cols as [|c cols IH]; cbn; intros i H; [discriminate|].
  destruct (String.eqb_spec c col) as [->|Hne].
  - now inversion H.
  - destruct (position col cols) as [j|]; [|discriminate].
    inversion H; subst. cbn. now apply IH.
Qed.

Lemma remove_nth_map {A B} (f : A -> B) (l : list A) : forall i,
  remove_nth i (map f l) = map f (remove_nth i l).
Proof.
  induction l as [|x l IH]; intros [|i]; cbn; auto. now rewrite IH.
Qed.

Lemma add_keys_fold_mono (ks : list string) : forall cols k,
  mem k cols = true ->
  mem k (fold_left (fun acc k0 => if mem k0 acc then acc else (acc ++ [k0])%list)
                   ks cols) = true.
Proof.
  induction ks as [|k0 ks IH]; intros cols k H; cbn; auto.
  apply IH. destruct (mem k0 cols); auto.
  apply mem_In. apply in_or_app. left. now apply mem_In.
Qed.

Lemma add_keys_mono (cols : list string) (r : row) (k : string) :
  mem k cols = true -> mem k (add_keys cols r) = true.
Proof. apply add_keys_fold_mono. Qed.

Lemma add_keys_has (r : row) (k : string) : forall cols,
  In k (dict_keys r) -> mem k (add_keys cols r) = true.
Proof.
  unfold add_keys. induction (dict_keys r) as [|k0 ks IH]; intros cols Hin.
  - contradiction.
  - cbn. destruct Hin as [->|Hin]; [|now apply IH].
    apply add_keys_fold_mono. destruct (mem k cols) eqn:E; auto.
    apply mem_In. apply in_or_app. right. now left.
Qed.

Lemma columns_fold_mono (data : list row) : forall cols k,
  mem k cols = true -> mem k (fold_left add_keys data cols) = true.
Proof.
  induction data as [|r data IH]; intros cols k H; cbn; auto.
  apply IH. now apply add_keys_mono.
Qed.

(** A key of the first record is a column. *)
Lemma columns_of_first (r : row) (data : list row) (k : string) :
  In k (dict_keys r) -> mem k (columns_of (r :: data)) = true.
Proof.
  intros Hin. unfold columns_of. cbn. apply columns_fold_mono.
  now apply add_keys_has.
Qed.

(** No records, no columns: [set_index] has nothing to index by. *)
Lemma set_index_no_records (col : string) :
  set_index (from_records []) col = Raise (KeyError col).
Proof. reflexivity. Qed.

(** A string is stored as it is, whatever the column. *)
Lemma stored_string (data : list row) (r : row) (col s : string) :
  dict_get r col = Some (Some s) -> stored data r col = Value (Some s).
Proof. intros H. unfold stored, cell_of. now rewrite H. Qed.

(** Without [infer_string], a [None] stays [None] in a column where no row
    lacks the key. *)
Lemma stored_none_object (data : list row) (r : row) (col : string) :
  infer_string = false ->
  existsb is_nan (column_of data col) = false ->
  stored data r col = cell_of r col.
Proof.
  intros Hopt Hnan. unfold stored, store, none_as_nan.
  destruct (cell_of r col) as [[s|]|]; try reflexivity.
  rewrite Hopt, Hnan. now destruct (existsb is_str (column_of data col)).
Qed.

(** With a first record that has the key, [set_index] returns: the labels
    are the cells of that key and every row is its record read under the
    remaining columns, record by record in the order of [data]. *)
Lemma set_index_from_records (col : string) (r : row) (data : list row) :
  In col (dict_keys r) ->
  exists df,
    set_index (from_records (r :: data)) col = Ret df
    /\ index df
       = LabelIndex col (map (fun rec => stored (r :: data) rec col) (r :: data))
    /\ rows df
       = map (fun rec => map (stored (r :: data) rec) (columns df)) (r :: data).
Proof.
  intros Hin. unfold set_index.
  destruct (position_of_mem col (columns (from_records (r :: data))))
    as [i Hi].
  { now apply columns_of_first. }
  rewrite Hi. eexists. split; [reflexivity|]. cbn [index rows columns].
  split.
  - f_equal. unfold from_records. cbn [rows columns] in *.
    rewrite map_map. apply map_ext. intros rec.
    now apply position_nth_map.
  - unfold from_records. cbn [rows columns] in *.
    rewrite map_map. apply map_ext. intros rec. apply remove_nth_map.
Qed.

End PandasFacts.

(* ===================================================================== *)
(** ** Records of [PageParser]                                           *)
(* ===================================================================== *)

Section RecordFacts.
Import Py Requests Bs4.
Context {htm : Html}.

Lemma set_data_app (recs : list Pandas.row) : forall self,
  fold_left (fun acc rec =>
               PageParser.set_data (PageParser.data acc ++ [rec])%list acc)
            recs self
  = PageParser.set_data (PageParser.data self ++ recs)%list self.
Proof.
  induction recs as [|rec recs IH]; intros self; cbn.
  - rewrite app_nil_r. now destruct self.
  - rewrite IH. unfold PageParser.set_data. cbn. now rewrite <- app_assoc.
Qed.

Lemma set_result_written (entries : list (string * list string)) :
  forall self,
  fold_left (fun acc kv =>
               CatalogParser.set_result
                 (dict_set (CatalogParser.result acc) (fst kv) (snd kv)) acc)
            entries self
  = CatalogParser.set_result
      (Spec.written entries (CatalogParser.result self)) self.
Proof.
  induction entries as [|[k v] entries IH]; intros self; cbn.
  - now destruct self.
  - rewrite IH. reflexivity.
Qed.

(** [fill_row] leaves alone the keys that are no field of the selectors. *)
Lemma fill_row_other (sp : soup) (items : dict string) (k : string) :
  forall r r', PageParser.fill_row sp items r = Ret r' ->
               ~ In k (dict_keys items) ->
               dict_get r' k = dict_get r k.
Proof.
  induction items as [|[col sel] items IH]; intros r r' Hf Hn; cbn in Hf.
  - now inversion Hf.
  - destruct (select_one sp sel) as [el|e]; cbn in Hf; [|discriminate].
    rewrite (IH _ _ Hf) by (intros Hin; apply Hn; now right).
    apply dict_get_set_other. intros ->. apply Hn. now left.
Qed.

Lemma dict_update_other {V} (items : dict V) (k : string) : forall d,
  ~ In k (dict_keys items) -> dict_get (dict_update d items) k = dict_get d k.
Proof.
  unfold dict_update.
  induction items as [|[k0 v0] items IH]; intros d Hn; cbn; [reflexivity|].
  rewrite IH by (intros Hin; apply Hn; now right).
  apply dict_get_set_other. intros ->. apply Hn. now left.
Qed.

Lemma null_keys (selectors : dict string) :
  dict_keys (map (fun kv : string * string => (fst kv, @None string)) selectors)
  = dict_keys selectors.
Proof. unfold dict_keys. rewrite map_map. reflexivity. Qed.

Lemma null_unique (selectors : dict string) :
  unique_keys (map (fun kv : string * string => (fst kv, @None string)) selectors)
  = unique_keys selectors.
Proof.
  induction selectors as [|[k v] selectors IH]; cbn; [reflexivity|].
  now rewrite null_keys, IH.
Qed.

(** With distinct field names, none of them [URL], the row of
    [_add_empty_row] is [URL] followed by every field at [None]. *)
Lemma empty_row_null (selectors : dict string) (url : string) :
  unique_keys selectors = true ->
  ~ In "URL" (dict_keys selectors) ->
  Spec.empty_row selectors url = Spec.null_record selectors url.
Proof.
  intros Hu Hn. unfold Spec.empty_row, Spec.null_record.
  rewrite dict_update_fresh.
  - reflexivity.
  - now rewrite null_unique.
  - intros k Hin. rewrite null_keys in Hin. cbn. intros [<-|[]].
    contradiction.
Qed.

(** Whatever the page, the record of a url holds that url under [URL]
    unless a field of the selectors is itself called [URL]. *)
Lemma page_record_url (selectors : dict string) (url : string)
      (fetch : outcome (option response)) (rec : Pandas.row) :
  Spec.page_record selectors url fetch = Ret rec ->
  ~ In "URL" (dict_keys selectors) ->
  dict_get rec "URL" = Some (Some url).
Proof.
  intros Hrec Hn. unfold Spec.page_record in Hrec.
  assert (He : dict_get (Spec.empty_row selectors url) "URL" = Some (Some url)).
  { unfold Spec.empty_row. rewrite dict_update_other; [reflexivity|].
    now rewrite null_keys. }
  destruct fetch as [[r|]|e]; cbn in Hrec; try discriminate.
  - destruct (negb (ok r)).
    + inversion Hrec; subst. exact He.
    + rewrite (fill_row_other _ _ _ _ _ Hrec Hn). reflexivity.
  - inversion Hrec; subst. exact He.
Qed.

(** Every record has the key [URL]. *)
Lemma page_record_has_url (selectors : dict string) (url : string)
      (fetch : outcome (option response)) (rec : Pandas.row) :
  Spec.page_record selectors url fetch = Ret rec ->
  In "URL" (dict_keys rec).
Proof.
  intros Hrec.
  assert (Hset : forall (d : Pandas.row) k v,
             In "URL" (dict_keys d) -> In "URL" (dict_keys (dict_set d k v))).
  { intros d k v. induction d as [|[k0 v0] d IH]; cbn; [tauto|].
    destruct (String.eqb k0 k); cbn; tauto. }
  assert (Hfill : forall sp items (r r' : Pandas.row),
             PageParser.fill_row sp items r = Ret r' ->
             In "URL" (dict_keys r) -> In "URL" (dict_keys r')).
  { intros sp items. induction items as [|[col sel] items IH];
      intros r r' Hf Hin; cbn in Hf.
    - now inversion Hf; subst.
    - destruct (select_one sp sel); cbn in Hf; [|discriminate].
      eapply IH; [eassumption|]. now apply Hset. }
  assert (Hupd : forall (items d : Pandas.row),
             In "URL" (dict_keys d) -> In "URL" (dict_keys (dict_update d items))).
  { unfold dict_update. induction items as [|[k0 v0] items IH];
      intros d Hin; cbn; auto. apply IH. now apply Hset. }
  unfold Spec.page_record in Hrec.
  destruct fetch as [[r|]|e]; cbn in Hrec; try discriminate.
  - destruct (negb (ok r)).
    + inversion Hrec; subst. apply Hupd. now left.
    + eapply Hfill; [eassumption|]. now left.
  - inversion Hrec; subst. apply Hupd. now left.
Qed.

End RecordFacts.

(* ===================================================================== *)
(** ** RecordExtractor ([PageParser])                                    *)
(* ===================================================================== *)

Section PageFacts.
Import Py Requests Bs4.
Context {net : Network} {htm : Html} {opt : Pandas.Options}.

(** The loop of [parse], when every turn yields a record. *)
Lemma page_loop (urls : list string) (self : PageParser.t)
      (w : list request) :
  (forall i url, nth_error urls i = Some url ->
     returns (Spec.page_record (PageParser.selectors self) url
                (Spec.page_fetch (PageParser.auth self) w urls i url)) = true) ->
  exists recs,
    for_each urls PageParser.parse_url self w
    = (Ret tt,
       PageParser.set_data (PageParser.data self ++ recs)%list self,
       (w ++ map (Spec.request_for (PageParser.auth self) None) urls)%list)
    /\ List.length recs = List.length urls
    /\ forall i url, nth_error urls i = Some url ->
         exists rec, nth_error recs i = Some rec
                     /\ Spec.page_record (PageParser.selectors self) url
                          (Spec.page_fetch (PageParser.auth self) w urls i url)
                        = Ret rec.
Proof.
  intros Hret.
  destruct (for_each_entries PageParser.t string Pandas.row
              (fun s x => Spec.request_for (PageParser.auth s) None x)
              (fun s x o => Spec.page_record (PageParser.selectors s) x
                              (Spec.fetched PageParser.catches o))
              (fun rec s => PageParser.set_data
                              (PageParser.data s ++ [rec])%list s)
              PageParser.parse_url
              (fun x s w0 => page_parse_url_unfold x s w0)
              (fun _ _ _ => eq_refl) (fun _ _ _ _ => eq_refl)
              urls self w Hret) as (recs & Hrun & Hlen & Hnth).
  exists recs. rewrite set_data_app in Hrun. auto.
Qed.

(** And a loop that ran to its end had a record at every turn. *)
Lemma page_loop_inv (urls : list string) (self : PageParser.t)
      (w : list request) (u : unit) (s' : PageParser.t) (w' : list request) :
  for_each urls PageParser.parse_url self w = (Ret u, s', w') ->
  forall i url, nth_error urls i = Some url ->
    returns (Spec.page_record (PageParser.selectors self) url
               (Spec.page_fetch (PageParser.auth self) w urls i url)) = true.
Proof.
  intros Hrun.
  exact (for_each_returned PageParser.t string Pandas.row
           (fun s x => Spec.request_for (PageParser.auth s) None x)
           (fun s x o => Spec.page_record (PageParser.selectors s) x
                           (Spec.fetched PageParser.catches o))
           (fun rec s => PageParser.set_data
                           (PageParser.data s ++ [rec])%list s)
           PageParser.parse_url
           (fun x s w0 => page_parse_url_unfold x s w0)
           (fun _ _ _ => eq_refl) (fun _ _ _ _ => eq_refl)
           urls self w u s' w' Hrun).
Qed.

(** [parse] is the loop followed by [_build_dataframe]. *)
Lemma page_parse_unfold (self : PageParser.t) (w : list request) :
  PageParser.parse self w =
  match for_each (PageParser.urls self) PageParser.parse_url self w with
  | (Ret _, s', w') =>
    (Pandas.set_index (Pandas.from_records (PageParser.data s')) "URL", s', w')
  | (Raise e, s', w') => (Raise e, s', w')
  end.
Proof.
  unfold PageParser.parse, bind, get_self.
  destruct (for_each (PageParser.urls self) PageParser.parse_url self w)
    as [[[u|e] s'] w']; reflexivity.
Qed.

(** Labels read off records that all hold their url under [URL]. *)
Lemma labels_are_urls (urls : list string) (data recs : list Pandas.row) :
  List.length recs = List.length urls ->
  (forall i url, nth_error urls i = Some url ->
     exists rec, nth_error recs i = Some rec
                 /\ dict_get rec "URL" = Some (Some url)) ->
  map (fun rec => Pandas.stored data rec "URL") recs
  = map (fun u => Pandas.Value (Some u)) urls.
Proof.
  intros Hlen Hnth. apply nth_error_ext. intros i.
  rewrite !nth_error_map.
  destruct (nth_error urls i) as [url|] eqn:Hu.
  - destruct (Hnth i url Hu) as (rec & Hrec & Hget). rewrite Hrec. cbn.
    now rewrite (stored_string _ _ _ _ Hget).
  - apply nth_error_None in Hu. rewrite <- Hlen in Hu.
    apply nth_error_None in Hu. now rewrite Hu.
Qed.

(** C10.  On the empty url sequence [parse] of a fresh [PageParser] does not
    return a table, empty or otherwise: the loop appends no record, the
    frame built from no records has no [URL] column, and [set_index] raises
    [KeyError], which leaves [parse]. *)
Theorem parse_no_urls_raises
        (selectors : dict string) (auth : option CNC1Auth.t)
        (w : list request) :
  PageParser.parse (PageParser.__init__ (UrlList []) selectors auth) w
  = (Raise (KeyError "URL"),
     PageParser.__init__ (UrlList []) selectors auth, w).
Proof. reflexivity. Qed.

(** C7.  Whenever [parse] returns a table, its rows are the records of the
    input urls in input order, one per occurrence: the [i]-th call went to
    the [i]-th url, the [i]-th record is the one built from the answer to
    that call, failed or not, the index labels and the rows of the table are
    read off the records in that same order, each value as pandas stores it
    in its column, and, no field being itself called [URL], the labels are
    the input urls as given. *)
Theorem rows_follow_input_order
        (urls : list string) (selectors : dict string)
        (auth : option CNC1Auth.t) (w : list request)
        (df : Pandas.DataFrame) (s' : PageParser.t) (w' : list request) :
  PageParser.parse (PageParser.__init__ (UrlList urls) selectors auth) w
  = (Ret df, s', w') ->
  w' = (w ++ map (Spec.request_for auth None) urls)%list
  /\ List.length (PageParser.data s') = List.length urls
  /\ List.length (Pandas.rows df) = List.length urls
  /\ (forall i url, nth_error urls i = Some url ->
        exists rec, nth_error (PageParser.data s') i = Some rec
                    /\ Spec.page_record selectors url (Spec.page_fetch auth w urls i url)
                       = Ret rec)
  /\ Pandas.index df
     = Pandas.LabelIndex "URL"
         (map (fun rec => Pandas.stored (PageParser.data s') rec "URL")
              (PageParser.data s'))
  /\ Pandas.rows df
     = map (fun rec => map (Pandas.stored (PageParser.data s') rec)
                           (Pandas.columns df))
           (PageParser.data s')
  /\ (~ In "URL" (dict_keys selectors) ->
      Pandas.index df
      = Pandas.LabelIndex "URL" (map (fun u => Pandas.Value (Some u)) urls)).
Proof.
  intros Hparse. rewrite page_parse_unfold in Hparse.
  set (self := PageParser.__init__ (UrlList urls) selectors auth) in *.
  change (PageParser.urls self) with urls in Hparse.
  destruct (for_each urls PageParser.parse_url self w)
    as [[[u|e] s1] w1] eqn:Hloop; [|discriminate].
  pose proof (page_loop_inv urls self w u s1 w1 Hloop) as Hret.
  destruct (page_loop urls self w Hret) as (recs & Hrun & Hlen & Hnth).
  rewrite Hrun in Hloop. inversion Hloop; subst u s1 w1. clear Hloop.
  change (PageParser.data self) with (@nil Pandas.row) in Hparse.
  cbn [app PageParser.set_data PageParser.data] in Hparse.
  inversion Hparse as [[Hdf Hs Hw]]. clear Hparse.
  cbn [PageParser.data PageParser.auth PageParser.selectors self
       PageParser.__init__] in Hnth, Hs, Hw |- *.
  destruct recs as [|r recs].
  { cbn in Hdf. discriminate. }
  assert (Hr : In "URL" (dict_keys r)).
  { destruct urls as [|url0 urls']; [discriminate|].
    destruct (Hnth O url0 eq_refl) as (rec & Hrec & Hpr).
    inversion Hrec; subst rec. eapply page_record_has_url; eassumption. }
  destruct (set_index_from_records "URL" r recs Hr) as (df' & Hset & Hidx & Hrows).
  assert (Hd : Ret df' = Ret df) by (rewrite <- Hset; exact Hdf).
  inversion Hd; subst df'. clear Hd.
  subst s' w'. cbn [PageParser.data PageParser.set_data].
  repeat split; auto.
  - rewrite Hrows, length_map. exact Hlen.
  - intros Hno. rewrite Hidx. f_equal.
    apply labels_are_urls; [exact Hlen|].
    intros i url Hu. destruct (Hnth i url Hu) as (rec & Hrec & Hpr).
    exists rec. split; [exact Hrec|].
    eapply page_record_url; eassumption.
Qed.

(** With distinct field names that the row does not have yet, and selectors
    that compile, [fill_row] appends one item per field, in order: the text
    of the first match, or [None]. *)
Lemma fill_row_fresh (sp : soup) (items : dict string) : forall r : Pandas.row,
  unique_keys items = true ->
  (forall k, In k (dict_keys items) -> ~ In k (dict_keys r)) ->
  (forall col sel, In (col, sel) items -> returns (select sp sel) = true) ->
  PageParser.fill_row sp items r
  = Ret (r ++ map (fun kv => (fst kv, Spec.first_text sp (snd kv))) items)%list.
Proof.
  induction items as [|[col sel] items IH]; intros r Hu Hf Hsel; cbn.
  - now rewrite app_nil_r.
  - cbn in Hu. apply andb_true_iff in Hu as [Hk Hu].
    apply negb_true_iff, mem_false_not_In in Hk.
    pose proof (Hsel col sel (or_introl eq_refl)) as Hs.
    unfold select_one, Spec.first_text.
    destruct (select sp sel) as [elements|e]; [|discriminate]. cbn [obind].
    rewrite dict_set_fresh by (apply Hf; now left).
    rewrite IH; auto.
    + now rewrite <- app_assoc.
    + intros k Hin. rewrite dict_keys_app, in_app_iff. cbn.
      intros [Hd|[<-|[]]].
      * apply (Hf k); [now right | assumption].
      * contradiction.
    + intros c s0 Hin. apply (Hsel c s0). now right.
Qed.

Lemma first_text_keys (sp : soup) (items : dict string) :
  dict_keys (map (fun kv : string * string =>
                    (fst kv, Spec.first_text sp (snd kv))) items)
  = dict_keys items.
Proof. unfold dict_keys. rewrite map_map. reflexivity. Qed.

Lemma first_text_unique (sp : soup) (items : dict string) :
  unique_keys (map (fun kv : string * string =>
                      (fst kv, Spec.first_text sp (snd kv))) items)
  = unique_keys items.
Proof.
  induction items as [|[k v] items IH]; cbn; [reflexivity|].
  now rewrite first_text_keys, IH.
Qed.

(** For an element with a single string, [get_text(strip=True)] gives its
    trimmed text content. *)
Lemma get_text_single (el : element) (s : string) :
  _all_strings el = [s] -> get_text_strip el = strip (Spec.text_content el).
Proof.
  intros H. unfold get_text_strip, Spec.text_content. rewrite H.
  cbn [map filter String.concat].
  destruct (strip s); reflexivity.
Qed.

(** C6, as amended.  Let the SelectorMap have distinct field names, none of
    them [URL], and selectors that compile.  Then [_parse_page] appends one
    record for the page: under [URL] the url it was called with, which is
    the input url, and under every field [None] when [select] returns no
    element for its selector, and else the text [get_text(strip=True)]
    gives for the first one: the strings of the element, each stripped, the
    empty ones dropped, joined without a separator.  For an element with a
    single string this is its trimmed text content.  [parse] builds this
    very record for a url whose fetch came back with a response that is
    [ok]. *)
Theorem parse_page_sets_fields
        (url : string) (r : response) (self : PageParser.t) :
  unique_keys (PageParser.selectors self) = true ->
  ~ In "URL" (dict_keys (PageParser.selectors self)) ->
  (forall col sel, In (col, sel) (PageParser.selectors self) ->
     returns (select (BeautifulSoup (content r)) sel) = true) ->
  exists rec,
    (forall w,
       PageParser._parse_page url r self w
       = (Ret tt,
          PageParser.set_data (PageParser.data self ++ [rec])%list self, w))
    /\ (forall w,
          network w (Spec.request_for (PageParser.auth self) None url) = Ret r ->
          ok r = true ->
          PageParser.parse_url url self w
          = (Ret tt,
             PageParser.set_data (PageParser.data self ++ [rec])%list self,
             (w ++ [Spec.request_for (PageParser.auth self) None url])%list))
    /\ dict_get rec "URL" = Some (Some url)
    /\ dict_keys rec = "URL" :: dict_keys (PageParser.selectors self)
    /\ (forall col sel, In (col, sel) (PageParser.selectors self) ->
          exists elements,
            select (BeautifulSoup (content r)) sel = Ret elements
            /\ dict_get rec col
               = Some (option_map
                         (fun el =>
                            String.concat
                              "" (filter truthy (map strip (_all_strings el))))
                         (hd_error elements))
            /\ (forall el s,
                  hd_error elements = Some el -> _all_strings el = [s] ->
                  dict_get rec col
                  = Some (Some (strip (Spec.text_content el))))).
Proof.
  intros Hu Hn Hsel.
  set (sp := BeautifulSoup (content r)) in *.
  set (rec := (("URL", Some url)
               :: map (fun kv => (fst kv, Spec.first_text sp (snd kv)))
                      (PageParser.selectors self)) : Pandas.row).
  assert (Hfill : PageParser.fill_row sp (PageParser.selectors self)
                                      [("URL", Some url)] = Ret rec).
  { rewrite fill_row_fresh; auto.
    intros k Hin. cbn. intros [<-|[]]. contradiction. }
  exists rec. split; [|split; [|split; [|split]]].
  - intros w. unfold PageParser._parse_page, bind, get_self, lift, set_self.
    fold sp. now rewrite Hfill.
  - intros w Hnet Hok. rewrite page_parse_url_unfold. cbn zeta.
    rewrite Hnet. cbn [Spec.fetched Spec.page_record obind].
    rewrite Hok. cbn [negb]. fold sp. now rewrite Hfill.
  - reflexivity.
  - unfold rec, dict_keys. cbn [map fst]. f_equal. now rewrite map_map.
  - intros col sel Hin. pose proof (Hsel col sel Hin) as Hs.
    destruct (select sp sel) as [elements|e] eqn:Hsp; [|discriminate].
    exists elements. split; [reflexivity|].
    assert (Hget : dict_get rec col
                   = Some (option_map get_text_strip (hd_error elements))).
    { apply dict_get_In_unique.
      + unfold rec. cbn [unique_keys].
        rewrite first_text_keys, first_text_unique, Hu.
        apply mem_false_not_In in Hn. now rewrite Hn.
      + right. apply in_map_iff. exists (col, sel). split; [|exact Hin].
        cbn. unfold Spec.first_text. now rewrite Hsp. }
    split; [exact Hget|].
    intros el s Hel Hone. rewrite Hget, Hel. cbn [option_map].
    now rewrite (get_text_single el s Hone).
Qed.

End PageFacts.

(* ===================================================================== *)
(** ** urljoin on plain urls                                             *)
(* ===================================================================== *)

Section UrlFacts.
Import Py UrlParse.

Lemma chars_app (a b : string) : chars (a ++ b) = (chars a ++ chars b)%list.
Proof.
  unfold chars. induction a as [|c a IH]; cbn; [reflexivity | now rewrite IH].
Qed.

Lemma str_app (a b : list ascii) : str (a ++ b)%list = (str a ++ str b)%string.
Proof.
  unfold str. induction a as [|c a IH]; cbn; [reflexivity | now rewrite IH].
Qed.

Lemma str_chars (s : string) : str (chars s) = s.
Proof. apply string_of_list_ascii_of_string. Qed.

Lemma chars_str (l : list ascii) : chars (str l) = l.
Proof. apply list_ascii_of_string_of_list_ascii. Qed.

Lemma chars_concat (segs : list string) :
  chars (String.concat "/" segs) = join slash (map chars segs).
Proof.
  induction segs as [|s segs IH]; [reflexivity|].
  destruct segs as [|s' segs]; [reflexivity|].
  change (String.concat "/" (s :: s' :: segs))
    with (s ++ "/" ++ String.concat "/" (s' :: segs)).
  rewrite chars_app. change ("/" ++ String.concat "/" (s' :: segs))
    with (String slash (String.concat "/" (s' :: segs))).
  cbn [chars list_ascii_of_string]. fold (chars (String.concat "/" (s' :: segs))).
  rewrite IH. reflexivity.
Qed.

(** *** Cutting and splitting at a character that occurs nowhere else *)

Lemma has_char_app (c : ascii) (a b : list ascii) :
  has_char c (a ++ b) = has_char c a || has_char c b.
Proof. apply existsb_app. Qed.

Lemma cut_none (c : ascii) (l : list ascii) :
  has_char c l = false -> cut c l = None.
Proof.
  induction l as [|x l IH]; cbn; [reflexivity|].
  rewrite (Ascii.eqb_sym c x). destruct (Ascii.eqb x c); cbn; [discriminate|].
  intros H. now rewrite IH.
Qed.

Lemma cut_app (c : ascii) (a b : list ascii) :
  has_char c a = false -> cut c (a ++ c :: b) = Some (a, b).
Proof.
  induction a as [|x a IH]; cbn.
  - now rewrite Ascii.eqb_refl.
  - rewrite (Ascii.eqb_sym c x). destruct (Ascii.eqb x c); cbn; [discriminate|].
    intros H. now rewrite IH.
Qed.

Lemma split_none (c : ascii) (a : list ascii) :
  has_char c a = false -> split c a = [a].
Proof.
  induction a as [|x a IH]; cbn; [reflexivity|].
  rewrite (Ascii.eqb_sym c x). destruct (Ascii.eqb x c); cbn; [discriminate|].
  intros H. now rewrite IH.
Qed.

Lemma split_app (c : ascii) (a b : list ascii) :
  has_char c a = false -> split c (a ++ c :: b) = a :: split c b.
Proof.
  induction a as [|x a IH]; cbn.
  - now rewrite Ascii.eqb_refl.
  - rewrite (Ascii.eqb_sym c x). destruct (Ascii.eqb x c); cbn; [discriminate|].
    intros H. now rewrite IH.
Qed.

Lemma split_join (c : ascii) (segs : list (list ascii)) :
  segs <> [] -> Forall (fun s => has_char c s = false) segs ->
  split c (join c segs) = segs.
Proof.
  induction segs as [|s segs IH]; [contradiction|]. intros _ Hall.
  inversion Hall as [|? ? Hs Hrest]; subst.
  destruct segs as [|s' segs].
  - cbn. now apply split_none.
  - change (join c (s :: s' :: segs)) with (s ++ c :: join c (s' :: segs))%list.
    rewrite split_app by assumption. f_equal. apply IH; [discriminate | assumption].
Qed.

Lemma span_until_app (stop : ascii -> bool) (a : list ascii) (x : ascii)
      (b : list ascii) :
  forallb (fun c => negb (stop c)) a = true -> stop x = true ->
  span_until stop (a ++ x :: b) = (a, x :: b).
Proof.
  intros Ha Hx. induction a as [|y a IH]; cbn.
  - now rewrite Hx.
  - cbn in Ha. apply andb_true_iff in Ha as [Hy Ha].
    apply negb_true_iff in Hy. rewrite Hy, IH; auto.
Qed.

(** *** Plain characters *)

Lemma plain_char_visible (c : ascii) :
  Spec.plain_char c = true -> 32 < code c < 127.
Proof.
  unfold Spec.plain_char. intros H.
  apply andb_true_iff in H as [H _]. apply andb_true_iff in H as [H1 H2].
  apply Z.ltb_lt in H1. apply Z.ltb_lt in H2. lia.
Qed.

Lemma plain_char_not (c x : ascii) :
  Spec.plain_char c = true -> In x (chars "/?#;:[]") -> Ascii.eqb x c = false.
Proof.
  unfold Spec.plain_char. intros H Hx.
  apply andb_true_iff in H as [_ H]. apply negb_true_iff in H.
  destruct (Ascii.eqb_spec x c) as [->|]; [|reflexivity].
  unfold has_char in H. rewrite <- H. symmetry. apply existsb_exists.
  exists c. split; [exact Hx | apply Ascii.eqb_refl].
Qed.

Lemma plain_has_char (x : ascii) (l : list ascii) :
  forallb Spec.plain_char l = true -> In x (chars "/?#;:[]") ->
  has_char x l = false.
Proof.
  intros Hl Hx. induction l as [|c l IH]; [reflexivity|].
  cbn in Hl. apply andb_true_iff in Hl as [Hc Hl].
  unfold has_char in *. cbn [existsb].
  now rewrite (plain_char_not c x Hc Hx), IH.
Qed.

Lemma plain_no_char (x : ascii) (s : string) :
  Spec.plain s = true -> In x (chars "/?#;:[]") -> has_char x (chars s) = false.
Proof. intros H. now apply plain_has_char. Qed.

Lemma has_char_join (x : ascii) (segs : list (list ascii)) :
  Ascii.eqb x slash = false ->
  Forall (fun s => has_char x s = false) segs ->
  has_char x (join slash segs) = false.
Proof.
  intros Hx. induction 1 as [|s segs Hs Hall IH]; [reflexivity|].
  destruct segs as [|s' segs]; [exact Hs|].
  change (join slash (s :: s' :: segs))
    with (s ++ slash :: join slash (s' :: segs))%list.
  rewrite has_char_app, Hs. unfold has_char in *. cbn [existsb orb].
  now rewrite Hx, IH.
Qed.

Lemma plain_segs_no_char (x : ascii) (segs : list string) :
  forallb Spec.plain segs = true -> In x (chars "?#;:[]") ->
  has_char x (chars (String.concat "/" segs)) = false.
Proof.
  intros Hall Hx. rewrite chars_concat. apply has_char_join.
  - cbn in Hx. unfold slash.
    repeat (destruct Hx as [<-|Hx]; [reflexivity|]). contradiction.
  - apply Forall_map, Forall_forall. intros s Hs.
    rewrite forallb_forall in Hall. apply plain_no_char; [now apply Hall|].
    cbn in Hx |- *. tauto.
Qed.

End UrlFacts.

Section UrlSplitFacts.
Import Py UrlParse.

Lemma clean_visible (l : list ascii) :
  forallb (fun c => 32 <? code c) l = true ->
  remove_unsafe (lstrip_c0 l) = l.
Proof.
  intros H.
  assert (Hl : lstrip_c0 l = l).
  { destruct l as [|x r]; [reflexivity|]. cbn in H |- *.
    apply andb_true_iff in H as [Hx _]. apply Z.ltb_lt in Hx.
    destruct (Z.leb_spec (code x) 32); [lia | reflexivity]. }
  rewrite Hl. unfold remove_unsafe. induction l as [|x r IH]; [reflexivity|].
  cbn in H. apply andb_true_iff in H as [Hx Hr]. apply Z.ltb_lt in Hx.
  cbn [filter].
  destruct (Z.eqb_spec (code x) 9); [lia|].
  destruct (Z.eqb_spec (code x) 10); [lia|].
  destruct (Z.eqb_spec (code x) 13); [lia|].
  cbn [orb negb]. f_equal. apply IH; [exact Hr|].
  destruct r as [|y r]; [reflexivity|]. cbn in Hr |- *.
  apply andb_true_iff in Hr as [Hy _]. apply Z.ltb_lt in Hy.
  destruct (Z.leb_spec (code y) 32); [lia | reflexivity].
Qed.

Lemma plain_visible (l : list ascii) :
  forallb Spec.plain_char l = true -> forallb (fun c => 32 <? code c) l = true.
Proof.
  intros H. apply forallb_forall. intros c Hc.
  rewrite forallb_forall in H. apply Z.ltb_lt.
  apply (plain_char_visible c (H c Hc)).
Qed.

Lemma forallb_join (P : ascii -> bool) (segs : list (list ascii)) :
  P slash = true -> Forall (fun s => forallb P s = true) segs ->
  forallb P (join slash segs) = true.
Proof.
  intros HP. induction 1 as [|s segs Hs Hall IH]; [reflexivity|].
  destruct segs as [|s' segs]; [exact Hs|].
  change (join slash (s :: s' :: segs))
    with (s ++ slash :: join slash (s' :: segs))%list.
  rewrite forallb_app, Hs. cbn [forallb andb]. now rewrite HP, IH.
Qed.

Lemma visible_path (segs : list string) :
  forallb Spec.plain segs = true ->
  forallb (fun c => 32 <? code c) (chars (String.concat "/" segs)) = true.
Proof.
  intros H. rewrite chars_concat.
  apply forallb_join; [reflexivity|]. apply Forall_map, Forall_forall.
  intros s Hs. rewrite forallb_forall in H. apply plain_visible, (H s Hs).
Qed.

(** No character of a plain string starts one of the code points that
    [_checknetloc] refuses. *)
Lemma contains_high (c : ascii) (d s : string) :
  127 <= code c -> forallb Spec.plain_char (chars s) = true ->
  contains (String c d) s = false.
Proof.
  intros Hc. induction s as [|x s IH]; intros Hs; [reflexivity|].
  cbn in Hs. apply andb_true_iff in Hs as [Hx Hs].
  cbn [contains String.prefix].
  destruct (Ascii.ascii_dec c x) as [->|Hne].
  - apply plain_char_visible in Hx. lia.
  - now apply IH.
Qed.

Lemma checknetloc_plain (host : string) :
  Spec.plain host = true -> _checknetloc (chars host) = Ret tt.
Proof.
  intros H. unfold _checknetloc. rewrite str_chars.
  assert (Hd : Forall (fun d => contains d host = false) nfkc_delimiters).
  { unfold nfkc_delimiters.
    repeat (apply Forall_cons;
            [apply contains_high; [vm_compute; discriminate | exact H]|]).
    apply Forall_nil. }
  assert (He : existsb (fun d => contains d host) nfkc_delimiters = false).
  { induction Hd as [|d ds Hd1 _ IH]; [reflexivity|]. cbn [existsb].
    now rewrite Hd1, IH. }
  now rewrite He.
Qed.

Lemma web_scheme_inv (sch : string) :
  Spec.web_scheme sch = true -> sch = "http" \/ sch = "https".
Proof.
  unfold Spec.web_scheme. intros H. apply orb_true_iff in H as [H|H];
    apply String.eqb_eq in H; auto.
Qed.

End UrlSplitFacts.

Section UrlParseFacts.
Import Py UrlParse.

Lemma plain_char_delim (c : ascii) :
  Spec.plain_char c = true -> is_netloc_delim c = false.
Proof. destruct c as [[] [] [] [] [] [] [] []]; vm_compute; congruence. Qed.

(** [urlparse] takes a plain page url apart at its scheme, host and path;
    nothing else is in it. *)
Lemma urlparse_page (sch host : string) (segs : list string) (d : string) :
  Spec.web_scheme sch = true -> Spec.plain host = true ->
  forallb Spec.plain segs = true ->
  urlparse (Spec.page_at sch host segs) d =
  Ret {| p_scheme := sch; p_netloc := host;
         p_path := "/" ++ String.concat "/" segs;
         p_params := ""; p_query := ""; p_fragment := "" |}.
Proof.
  intros Hsch Hhost Hsegs.
  set (pth := (slash :: chars (String.concat "/" segs))%list).
  assert (Hchars : chars (Spec.page_at sch host segs)
                   = (chars sch ++ ":"%char :: slash :: slash
                        :: chars host ++ pth)%list).
  { unfold Spec.page_at, pth. rewrite !chars_app. reflexivity. }
  assert (Hvis : forallb (fun c => 32 <? code c)
                   (chars (Spec.page_at sch host segs)) = true).
  { rewrite Hchars, forallb_app. apply andb_true_iff. split.
    - destruct (web_scheme_inv sch Hsch) as [-> | ->]; reflexivity.
    - cbn [forallb]. rewrite forallb_app. unfold pth. cbn [forallb].
      rewrite (plain_visible _ Hhost), (visible_path _ Hsegs). reflexivity. }
  unfold urlparse, urlsplit. rewrite (clean_visible _ Hvis), Hchars.
  assert (Hs : split_scheme (str (remove_unsafe (strip_c0 (chars d))))
                 (chars sch ++ ":"%char :: slash :: slash :: chars host ++ pth)
               = (sch, (slash :: slash :: chars host ++ pth)%list)).
  { unfold split_scheme. rewrite cut_app.
    - destruct (web_scheme_inv sch Hsch) as [-> | ->]; reflexivity.
    - destruct (web_scheme_inv sch Hsch) as [-> | ->]; reflexivity. }
  rewrite Hs. unfold split_netloc. rewrite Ascii.eqb_refl. cbn [andb].
  unfold pth at 1. rewrite span_until_app.
  2:{ apply forallb_forall. intros c Hc. unfold Spec.plain in Hhost.
      rewrite forallb_forall in Hhost.
      now rewrite (plain_char_delim c (Hhost c Hc)). }
  2:{ reflexivity. }
  rewrite (plain_no_char "["%char host Hhost) by (cbn; tauto).
  rewrite (plain_no_char "]"%char host Hhost) by (cbn; tauto).
  cbn [xorb andb obind].
  assert (Hp : forall x, In x (chars "?#;") -> has_char x pth = false).
  { intros x Hx. unfold pth, has_char. cbn [existsb].
    fold (has_char x (chars (String.concat "/" segs))).
    rewrite plain_segs_no_char by (exact Hsegs || (cbn in Hx |- *; tauto)).
    cbn in Hx. destruct Hx as [<-|[<-|[<-|[]]]]; reflexivity. }
  fold pth.
  rewrite (cut_none "#"%char pth) by (apply Hp; cbn; tauto).
  rewrite (cut_none "?"%char pth) by (apply Hp; cbn; tauto).
  rewrite (checknetloc_plain host Hhost). cbn [obind scheme path netloc query fragment].
  rewrite !chars_str, !str_chars.
  rewrite (Hp ";"%char) by (cbn; tauto). rewrite andb_false_r.
  unfold pth. change (str (slash :: chars (String.concat "/" segs)))
    with (String slash (str (chars (String.concat "/" segs)))).
  rewrite str_chars. reflexivity.
Qed.

End UrlParseFacts.

Section UrlJoinFacts.
Import Py UrlParse.

Lemma last_app_ne {A} (l r : list A) (d : A) :
  r <> [] -> last (l ++ r) d = last r d.
Proof.
  intros Hr. induction l as [|x l IH]; [reflexivity|].
  change (last ((x :: l) ++ r) d)
    with (match (l ++ r)%list with [] => x | _ :: _ => last (l ++ r) d end).
  destruct (l ++ r)%list eqn:E.
  - apply app_eq_nil in E. tauto.
  - congruence.
Qed.

Lemma split_netloc_none (r : string) :
  String.prefix "//" r = false -> split_netloc (chars r) = Ret ([], chars r).
Proof.
  destruct r as [|a [|b r]]; [reflexivity | reflexivity |].
  intros H. unfold split_netloc, chars. cbn [list_ascii_of_string].
  destruct (Ascii.eqb_spec a slash) as [->|Ha]; [|reflexivity].
  destruct (Ascii.eqb_spec b slash) as [->|Hb]; [|reflexivity].
  unfold slash in H. cbn in H. destruct r; discriminate H.
Qed.

(** A reference without scheme and network location is all path, and takes
    the scheme of the base. *)
Lemma urlparse_path (sch r : string) :
  Spec.web_scheme sch = true ->
  forallb (fun c => 32 <? code c) (chars r) = true ->
  (forall x, In x (chars "?#;:") -> has_char x (chars r) = false) ->
  String.prefix "//" r = false ->
  urlparse r sch =
  Ret {| p_scheme := sch; p_netloc := ""; p_path := r;
         p_params := ""; p_query := ""; p_fragment := "" |}.
Proof.
  intros Hsch Hvis Hno H2.
  unfold urlparse, urlsplit. rewrite (clean_visible _ Hvis).
  assert (Hd : str (remove_unsafe (strip_c0 (chars sch))) = sch).
  { destruct (web_scheme_inv sch Hsch) as [-> | ->]; reflexivity. }
  rewrite Hd. unfold split_scheme.
  rewrite (cut_none ":"%char) by (apply Hno; cbn; tauto).
  rewrite (split_netloc_none r H2). cbn [obind].
  rewrite (cut_none "#"%char) by (apply Hno; cbn; tauto).
  rewrite (cut_none "?"%char) by (apply Hno; cbn; tauto).
  change (_checknetloc []) with (@Ret unit tt).
  cbn [obind scheme path netloc query fragment].
  rewrite !str_chars. rewrite (Hno ";"%char) by (cbn; tauto).
  rewrite andb_false_r. rewrite str_chars. reflexivity.
Qed.

Lemma concat_head (c : ascii) (s : string) (rest : list string) :
  String.concat "/" (String c s :: rest)
  = String c (String.concat "/" (s :: rest)).
Proof. destruct rest; reflexivity. Qed.

Lemma segment_inv (s : string) :
  Spec.segment s = true ->
  truthy s = true /\ Spec.plain s = true /\ s <> "." /\ s <> "..".
Proof.
  unfold Spec.segment. intros H.
  apply andb_true_iff in H as [H H4]. apply andb_true_iff in H as [H H3].
  apply andb_true_iff in H as [H1 H2].
  apply negb_true_iff, String.eqb_neq in H3, H4. auto.
Qed.

Lemma segments_plain (l : list string) :
  forallb Spec.segment l = true -> forallb Spec.plain l = true.
Proof.
  intros H. apply forallb_forall. intros s Hs. rewrite forallb_forall in H.
  apply (segment_inv s (H s Hs)).
Qed.

Lemma split_concat (l : list string) :
  l <> [] -> forallb Spec.plain l = true ->
  split slash (chars (String.concat "/" l)) = map chars l.
Proof.
  intros Hne Hall. rewrite chars_concat. apply split_join.
  - destruct l; [contradiction | discriminate].
  - apply Forall_map, Forall_forall. intros s Hs. rewrite forallb_forall in Hall.
    apply plain_no_char; [exact (Hall s Hs) | cbn; tauto].
Qed.

Lemma str_join (l : list string) :
  str (join slash (map chars l)) = String.concat "/" l.
Proof. now rewrite <- chars_concat, str_chars. Qed.

(** *** The loop on segments *)

Lemma resolve_names (names : list string) (rest acc : list (list ascii)) :
  forallb Spec.segment names = true ->
  resolve (map chars names ++ rest) acc
  = resolve rest (acc ++ map chars names).
Proof.
  revert acc. induction names as [|s names IH]; intros acc H.
  - cbn. now rewrite app_nil_r.
  - cbn in H. apply andb_true_iff in H as [Hs H].
    destruct (segment_inv s Hs) as (_ & _ & Hd & Hdd).
    cbn [map app resolve]. unfold seg_eqb. rewrite str_chars.
    change (str dotdot) with "..". change (str dot) with ".".
    apply String.eqb_neq in Hd, Hdd. rewrite Hd, Hdd, IH by exact H.
    now rewrite <- app_assoc.
Qed.

Lemma removelast_map {A B} (f : A -> B) (l : list A) :
  removelast (map f l) = map f (removelast l).
Proof.
  induction l as [|x l IH]; [reflexivity|].
  destruct l as [|y l]; [reflexivity|].
  change (removelast (map f (x :: y :: l)))
    with (f x :: removelast (map f (y :: l))).
  now rewrite IH.
Qed.

Lemma resolve_steps_empty (steps : list Spec.step) (rest : list (list ascii)) :
  resolve (map (fun st => chars (Spec.step_text st)) steps ++ rest) []
  = resolve rest [].
Proof.
  induction steps as [|[|] steps IH]; [reflexivity | exact IH | exact IH].
Qed.

Lemma climb_empty (steps : list Spec.step) : Spec.climb steps [] = [].
Proof.
  induction steps as [|[|] steps IH]; [reflexivity | exact IH | exact IH].
Qed.

(** The dot segments of a reference walk up the directories of the base;
    once they have passed the root, the leading empty segment is gone too. *)
Lemma resolve_steps (steps : list Spec.step) (rest : list (list ascii))
      (dirs : list string) :
  exists acc,
    resolve (map (fun st => chars (Spec.step_text st)) steps ++ rest)
            ([] :: map chars dirs)
    = resolve rest acc
    /\ (acc = [] :: map chars (Spec.climb steps dirs)
        \/ (acc = [] /\ Spec.climb steps dirs = [])).
Proof.
  revert dirs. induction steps as [|[|] steps IH]; intros dirs.
  - exists ([] :: map chars dirs). split; [reflexivity | now left].
  - exact (IH dirs).
  - destruct dirs as [|d dirs].
    + exists []. split.
      * exact (resolve_steps_empty steps rest).
      * right. split; [reflexivity | exact (climb_empty steps)].
    + destruct (IH (removelast (d :: dirs))) as (acc & Hacc & Hor).
      exists acc. split; [|exact Hor].
      rewrite <- Hacc. rewrite <- removelast_map. reflexivity.
Qed.

Lemma drop_inner_empty_joined (first : list ascii)
      (inner kept rest : list (list ascii)) :
  filter nonempty inner = kept -> rest <> [] ->
  forallb nonempty rest = true ->
  drop_inner_empty (first :: inner ++ rest) = first :: kept ++ rest.
Proof.
  intros Hk Hne Hall. unfold drop_inner_empty.
  destruct (inner ++ rest)%list as [|x tl] eqn:E.
  - apply app_eq_nil in E. tauto.
  - rewrite <- E, removelast_app, last_app_ne, filter_app, Hk by exact Hne.
    f_equal. rewrite <- app_assoc. f_equal.
    assert (Hf : filter nonempty (removelast rest) = removelast rest).
    { apply forallb_filter_id. apply forallb_forall. intros y Hy.
      rewrite forallb_forall in Hall. apply Hall.
      rewrite (app_removelast_last [] Hne). apply in_or_app. now left. }
    rewrite Hf. symmetry. now apply app_removelast_last.
Qed.

End UrlJoinFacts.

Section UrlJoinLaws.
Import Py UrlParse.

Lemma web_scheme_tables (sch : string) :
  Spec.web_scheme sch = true ->
  truthy sch = true /\ mem sch uses_relative = true
  /\ mem sch uses_netloc = true.
Proof.
  intros H. destruct (web_scheme_inv sch H) as [-> | ->]; repeat split.
Qed.

Lemma step_text_plain (st : Spec.step) :
  truthy (Spec.step_text st) = true /\ Spec.plain (Spec.step_text st) = true.
Proof. destruct st; split; reflexivity. Qed.

Lemma parts_plain (steps : list Spec.step) (names : list string) :
  forallb Spec.segment names = true ->
  forallb Spec.plain (map Spec.step_text steps ++ names) = true.
Proof.
  intros H. rewrite forallb_app, (segments_plain _ H), andb_true_r.
  apply forallb_forall. intros s Hs. apply in_map_iff in Hs as (st & <- & _).
  apply step_text_plain.
Qed.

Lemma parts_nonempty (steps : list Spec.step) (names : list string) :
  forallb Spec.segment names = true ->
  forallb nonempty
    (map (fun st => chars (Spec.step_text st)) steps ++ map chars names) = true.
Proof.
  intros H. rewrite forallb_app. apply andb_true_iff. split.
  - apply forallb_forall. intros s Hs. apply in_map_iff in Hs as (st & <- & _).
    now destruct st.
  - apply forallb_forall. intros x Hx. apply in_map_iff in Hx as (s & <- & Hs).
    rewrite forallb_forall in H. destruct (segment_inv s (H s Hs)) as (Ht & _).
    now destruct s.
Qed.

Lemma parts_head (steps : list Spec.step) (names : list string) :
  names <> [] -> forallb Spec.segment names = true ->
  exists c s rest,
    (map Spec.step_text steps ++ names)%list = String c s :: rest
    /\ Spec.plain_char c = true.
Proof.
  intros Hne H. destruct steps as [|st steps].
  - destruct names as [|n rest]; [contradiction|]. cbn in H.
    apply andb_true_iff in H as [Hn _].
    destruct (segment_inv n Hn) as (Ht & Hp & _).
    destruct n as [|c s]; [discriminate|]. exists c, s, rest. split; [reflexivity|].
    unfold Spec.plain in Hp. cbn in Hp. now apply andb_true_iff in Hp as [Hp _].
  - destruct st.
    + exists "."%char, "", (map Spec.step_text steps ++ names)%list.
      split; reflexivity.
    + exists "."%char, ".", (map Spec.step_text steps ++ names)%list.
      split; reflexivity.
Qed.

Lemma chars_nonempty (s : string) : nonempty (chars s) = truthy s.
Proof. now destruct s. Qed.

Lemma segments_nonempty (l : list string) :
  forallb Spec.segment l = true -> forallb nonempty (map chars l) = true.
Proof.
  intros H. apply forallb_forall. intros x Hx. apply in_map_iff in Hx as (s & <- & Hs).
  rewrite forallb_forall in H. rewrite chars_nonempty.
  apply (segment_inv s (H s Hs)).
Qed.

Lemma merged_segments (dirs : list string) (file : string)
      (rest : list (list ascii)) :
  forallb Spec.segment dirs = true -> rest <> [] ->
  forallb nonempty rest = true ->
  drop_inner_empty
    ((if nonempty (last ([] :: map chars dirs ++ [chars file]) [])
      then removelast ([] :: map chars dirs ++ [chars file])
      else [] :: map chars dirs ++ [chars file]) ++ rest)
  = [] :: map chars dirs ++ rest.
Proof.
  intros Hdirs Hne Hall.
  assert (Hf : filter nonempty (map chars dirs) = map chars dirs).
  { apply forallb_filter_id, segments_nonempty, Hdirs. }
  change ([] :: map chars dirs ++ [chars file])%list
    with (([] :: map chars dirs) ++ [chars file])%list.
  rewrite last_last, removelast_last.
  destruct (nonempty (chars file)) eqn:E.
  - change (([] :: map chars dirs) ++ rest)%list
      with ([] :: map chars dirs ++ rest)%list.
    now apply drop_inner_empty_joined.
  - rewrite <- app_assoc.
    change (([] :: map chars dirs) ++ [chars file] ++ rest)%list
      with ([] :: map chars dirs ++ [chars file] ++ rest)%list.
    rewrite app_assoc. apply drop_inner_empty_joined; [|exact Hne|exact Hall].
    rewrite filter_app, Hf. cbn [filter]. rewrite E. apply app_nil_r.
Qed.

Lemma resolve_merged (dirs : list string) (steps : list Spec.step)
      (names : list string) :
  forallb Spec.segment dirs = true -> forallb Spec.segment names = true ->
  exists acc,
    resolve ([] :: map chars dirs
                ++ map (fun st => chars (Spec.step_text st)) steps
                ++ map chars names) []
    = (acc ++ map chars names)%list
    /\ (acc = [] :: map chars (Spec.climb steps dirs)
        \/ (acc = [] /\ Spec.climb steps dirs = [])).
Proof.
  intros Hdirs Hnames.
  destruct (resolve_steps steps (map chars names) dirs) as (acc & Hacc & Hor).
  exists acc. split; [|exact Hor]. cbn [resolve].
  change (seg_eqb [] dotdot) with false. change (seg_eqb [] dot) with false.
  cbn iota. rewrite (resolve_names dirs _ _ Hdirs). cbn [app]. rewrite Hacc.
  rewrite <- (app_nil_r (map chars names)) at 1.
  now rewrite (resolve_names names _ _ Hnames).
Qed.

Lemma last_name (names : list string) (pre : list (list ascii)) :
  names <> [] -> forallb Spec.segment names = true ->
  exists n, last (pre ++ map chars names) [] = chars n
            /\ Spec.segment n = true.
Proof.
  intros Hne H. exists (last names "").
  rewrite last_app_ne by (destruct names; [contradiction | discriminate]).
  rewrite (app_removelast_last "" Hne) at 1. rewrite map_app. cbn [map]. rewrite last_last.
  split; [reflexivity|]. rewrite forallb_forall in H. apply H.
  rewrite (app_removelast_last "" Hne) at 2. apply in_or_app. right. now left.
Qed.

Lemma joined_path (acc : list (list ascii)) (kept names : list string) :
  names <> [] -> forallb Spec.segment names = true ->
  acc = [] :: map chars kept \/ (acc = [] /\ kept = []) ->
  let j := str (join slash (acc ++ map chars names)) in
  truthy j = true
  /\ (if truthy j && negb (String.prefix "/" j) then "/" ++ j else j)
     = "/" ++ String.concat "/" (kept ++ names).
Proof.
  intros Hne Hnames [-> | [-> ->]].
  - cbn [app]. rewrite <- map_app.
    set (t := (kept ++ names)%list).
    assert (Ht : t <> []).
    { unfold t. intros E. apply app_eq_nil in E. tauto. }
    assert (Hj : str (join slash ([] :: map chars t))
                 = "/" ++ String.concat "/" t).
    { destruct t as [|x t']; [contradiction|].
      change (join slash ([] :: map chars (x :: t')))
        with (slash :: join slash (map chars (x :: t'))).
      change (str (slash :: join slash (map chars (x :: t'))))
        with (String slash (str (join slash (map chars (x :: t'))))).
      now rewrite str_join. }
    cbv zeta. rewrite Hj. split; [reflexivity|].
    change ("/" ++ String.concat "/" t) with (String "/" (String.concat "/" t)).
    cbn [truthy String.prefix andb]. destruct (ascii_dec "/" "/"); [|contradiction].
    now destruct (String.concat "/" t).
  - cbn [app]. rewrite str_join. cbv zeta.
    destruct (parts_head [] names Hne Hnames) as (c & s & rest & E & Hc).
    cbn [map app] in E. rewrite E, concat_head. cbn [truthy String.prefix andb].
    destruct (ascii_dec "/" c) as [<-|]; [discriminate Hc|]. split; reflexivity.
Qed.

(** A relative reference is resolved in the directory of the page: the file
    name of the page goes, every [..] leaves one directory, none above the
    root, and the names follow. *)
Lemma urljoin_relative (sch host : string) (dirs : list string) (file : string)
      (steps : list Spec.step) (names : list string) :
  Spec.web_scheme sch = true ->
  truthy host = true -> Spec.plain host = true ->
  forallb Spec.segment dirs = true -> Spec.plain file = true ->
  names <> [] -> forallb Spec.segment names = true ->
  urljoin (Spec.page_at sch host (dirs ++ [file])) (Spec.rel_ref steps names)
  = Ret (Spec.page_at sch host (Spec.climb steps dirs ++ names)).
Proof.
  intros Hsch Hth Hhost Hdirs Hfile Hne Hnames.
  destruct (web_scheme_tables sch Hsch) as (Hts & Hrel & Hnl).
  destruct (parts_head steps names Hne Hnames) as (c & s & rest & Hparts & Hc).
  assert (Hpp := parts_plain steps names Hnames).
  assert (Hbase : forallb Spec.plain (dirs ++ [file]) = true).
  { rewrite forallb_app, (segments_plain _ Hdirs). cbn. now rewrite Hfile. }
  unfold urljoin.
  assert (Htb : truthy (Spec.page_at sch host (dirs ++ [file])) = true).
  { unfold Spec.page_at. destruct sch; [discriminate Hts | reflexivity]. }
  assert (Htu : truthy (Spec.rel_ref steps names) = true).
  { unfold Spec.rel_ref. rewrite Hparts, concat_head. reflexivity. }
  rewrite Htb, Htu. cbn [negb].
  rewrite (urlparse_page sch host _ "" Hsch Hhost Hbase). cbn [obind p_scheme].
  rewrite (urlparse_path sch (Spec.rel_ref steps names) Hsch).
  2:{ apply visible_path, Hpp. }
  2:{ intros x Hx. apply plain_segs_no_char; [exact Hpp | cbn in Hx |- *; tauto]. }
  2:{ unfold Spec.rel_ref. rewrite Hparts, concat_head.
      cbn [String.prefix]. destruct (ascii_dec "/" c) as [<-|]; [|reflexivity].
      discriminate Hc. }
  cbn [obind p_scheme p_netloc p_path p_params p_query p_fragment].
  rewrite String.eqb_refl, Hrel, Hnl, Htu. cbn [negb orb andb truthy].
  assert (Hb : split slash (chars ("/" ++ String.concat "/" (dirs ++ [file])))
               = ([] :: map chars dirs ++ [chars file])%list).
  { change (chars ("/" ++ String.concat "/" (dirs ++ [file])))
      with (slash :: chars (String.concat "/" (dirs ++ [file]))).
    cbn [split]. rewrite Ascii.eqb_refl, split_concat, map_app;
      [reflexivity | | exact Hbase].
    intros E. apply app_eq_nil in E. destruct E as [_ E]. discriminate E. }
  assert (Hr : split slash (chars (Spec.rel_ref steps names))
               = (map (fun st => chars (Spec.step_text st)) steps
                    ++ map chars names)%list).
  { unfold Spec.rel_ref. rewrite split_concat, map_app, map_map;
      [reflexivity | | exact Hpp].
    rewrite Hparts. discriminate. }
  assert (Hp : String.prefix "/" (Spec.rel_ref steps names) = false).
  { unfold Spec.rel_ref. rewrite Hparts, concat_head. cbn [String.prefix].
    destruct (ascii_dec "/" c) as [<-|]; [discriminate Hc | reflexivity]. }
  rewrite Hb, Hr, Hp.
  rewrite (merged_segments dirs file _ Hdirs).
  2:{ intros E. apply app_eq_nil in E. destruct E as [_ E].
      destruct names; [contradiction | discriminate E]. }
  2:{ apply parts_nonempty, Hnames. }
  destruct (resolve_merged dirs steps names Hdirs Hnames) as (acc & Hres & Hor).
  rewrite Hres.
  destruct (last_name names
              ([] :: map chars dirs
                  ++ map (fun st => chars (Spec.step_text st)) steps)
              Hne Hnames)
    as (n & Hlast & Hn).
  cbn [app] in Hlast. rewrite <- app_assoc in Hlast. rewrite Hlast.
  destruct (segment_inv n Hn) as (_ & _ & Hd & Hdd).
  assert (Hdots : seg_eqb (chars n) dot || seg_eqb (chars n) dotdot = false).
  { unfold seg_eqb. rewrite str_chars.
    change (str dot) with ".". change (str dotdot) with "..".
    apply String.eqb_neq in Hd, Hdd. now rewrite Hd, Hdd. }
  rewrite Hdots.
  destruct (joined_path acc (Spec.climb steps dirs) names Hne Hnames Hor)
    as [Hj1 Hj2].
  cbv zeta in Hj1, Hj2. rewrite Hj1.
  unfold urlunparse, urlunsplit.
  cbn [p_scheme p_netloc p_path p_params p_query p_fragment truthy
       scheme netloc path query fragment].
  rewrite Hth, Hts. cbn [orb]. rewrite Hj2. reflexivity.
Qed.

Lemma prefix_slash (s : string) : String.prefix "/" ("/" ++ s) = true.
Proof. now destruct s. Qed.

(** [urlunparse] puts a plain page url together again. *)
Lemma urlunparse_page (sch host : string) (segs : list string) :
  truthy sch = true -> truthy host = true ->
  urlunparse {| p_scheme := sch; p_netloc := host;
                p_path := "/" ++ String.concat "/" segs;
                p_params := ""; p_query := ""; p_fragment := "" |}
  = Spec.page_at sch host segs.
Proof.
  intros Hs Hh. unfold urlunparse, urlunsplit.
  cbn [p_scheme p_netloc p_path p_params p_query p_fragment truthy
       scheme netloc path query fragment].
  rewrite Hs, Hh, prefix_slash. cbn [orb negb andb]. now rewrite andb_false_r.
Qed.

(** A reference that starts with a slash is resolved at the root of the
    site, whatever the path of the page. *)
Lemma urljoin_rooted (sch host : string) (segs names : list string) :
  Spec.web_scheme sch = true ->
  truthy host = true -> Spec.plain host = true ->
  forallb Spec.plain segs = true -> forallb Spec.segment names = true ->
  urljoin (Spec.page_at sch host segs) ("/" ++ String.concat "/" names)
  = Ret (Spec.page_at sch host names).
Proof.
  intros Hsch Hth Hhost Hsegs Hnames.
  destruct (web_scheme_tables sch Hsch) as (Hts & Hrel & Hnl).
  assert (Hpl := segments_plain _ Hnames).
  unfold urljoin.
  assert (Htb : truthy (Spec.page_at sch host segs) = true).
  { unfold Spec.page_at. destruct sch; [discriminate Hts | reflexivity]. }
  rewrite Htb. cbn [negb truthy append].
  rewrite (urlparse_page sch host _ "" Hsch Hhost Hsegs). cbn [obind p_scheme].
  fold (append "/" (String.concat "/" names)).
  rewrite (urlparse_path sch ("/" ++ String.concat "/" names) Hsch).
  2:{ change (chars ("/" ++ String.concat "/" names))
        with (slash :: chars (String.concat "/" names)).
      cbn [forallb]. now rewrite (visible_path _ Hpl). }
  2:{ intros x Hx.
      change (chars ("/" ++ String.concat "/" names))
        with (slash :: chars (String.concat "/" names)).
      unfold has_char. cbn [existsb].
      fold (has_char x (chars (String.concat "/" names))).
      rewrite plain_segs_no_char by (exact Hpl || (cbn in Hx |- *; tauto)).
      cbn in Hx. destruct Hx as [<-|[<-|[<-|[<-|[]]]]]; reflexivity. }
  2:{ destruct names as [|n rest]; [reflexivity|].
      destruct (parts_head [] (n :: rest) ltac:(discriminate) Hnames)
        as (c & s & rest' & E & Hc).
      cbn [map app] in E. rewrite E, concat_head.
      change ("/" ++ String c (String.concat "/" (s :: rest')))
        with (String "/" (String c (String.concat "/" (s :: rest')))).
      cbn [String.prefix]. destruct (ascii_dec "/" "/"); [|contradiction].
      destruct (ascii_dec "/" c) as [<-|]; [discriminate Hc | reflexivity]. }
  cbn [obind p_scheme p_netloc p_path p_params p_query p_fragment].
  rewrite String.eqb_refl, Hrel, Hnl, prefix_slash.
  cbn [negb orb andb truthy append].
  fold (append "/" (String.concat "/" names)).
  change (chars ("/" ++ String.concat "/" names))
    with (slash :: chars (String.concat "/" names)).
  cbn [split]. rewrite Ascii.eqb_refl.
  destruct names as [|n rest].
  - rewrite <- (urlunparse_page sch host [] Hts Hth). reflexivity.
  - rewrite split_concat by (discriminate || exact Hpl).
    assert (Hres : resolve ([] :: map chars (n :: rest)) []
                   = [] :: map chars (n :: rest)).
    { cbn [resolve].
      change (seg_eqb [] dotdot) with false. change (seg_eqb [] dot) with false.
      cbn iota. rewrite <- (app_nil_r (map chars (n :: rest))) at 1.
      now rewrite (resolve_names (n :: rest) _ _ Hnames). }
    rewrite Hres.
    destruct (last_name (n :: rest) [[]] ltac:(discriminate) Hnames)
      as (m & Hlast & Hm).
    cbn [app] in Hlast. rewrite Hlast.
    destruct (segment_inv m Hm) as (_ & _ & Hd & Hdd).
    assert (Hdots : seg_eqb (chars m) dot || seg_eqb (chars m) dotdot = false).
    { unfold seg_eqb. rewrite str_chars.
      change (str dot) with ".". change (str dotdot) with "..".
      apply String.eqb_neq in Hd, Hdd. now rewrite Hd, Hdd. }
    rewrite Hdots.
    change (join slash ([] :: map chars (n :: rest)))
      with (slash :: join slash (map chars (n :: rest))).
    change (str (slash :: join slash (map chars (n :: rest))))
      with (String slash (str (join slash (map chars (n :: rest))))).
    rewrite str_join. cbn [truthy].
    rewrite <- (urlunparse_page sch host (n :: rest) Hts Hth). reflexivity.
Qed.

(** A plain absolute url comes back as it is, whatever the page. *)
Lemma urljoin_absolute (sch host : string) (segs : list string)
      (sch' host' : string) (segs' : list string) :
  Spec.web_scheme sch = true -> Spec.plain host = true ->
  forallb Spec.plain segs = true ->
  Spec.web_scheme sch' = true ->
  truthy host' = true -> Spec.plain host' = true ->
  forallb Spec.plain segs' = true ->
  urljoin (Spec.page_at sch host segs) (Spec.page_at sch' host' segs')
  = Ret (Spec.page_at sch' host' segs').
Proof.
  intros Hsch Hhost Hsegs Hsch' Hth' Hhost' Hsegs'.
  destruct (web_scheme_tables sch Hsch) as (Hts & _ & _).
  destruct (web_scheme_tables sch' Hsch') as (Hts' & Hrel' & Hnl').
  unfold urljoin.
  assert (Htb : forall s h l, truthy s = true
                              -> truthy (Spec.page_at s h l) = true).
  { intros s h l H. unfold Spec.page_at. destruct s; [discriminate H | reflexivity]. }
  rewrite (Htb _ _ _ Hts), (Htb _ _ _ Hts'). cbn [negb].
  rewrite (urlparse_page sch host _ "" Hsch Hhost Hsegs). cbn [obind p_scheme].
  rewrite (urlparse_page sch' host' _ sch Hsch' Hhost' Hsegs').
  cbn [obind p_scheme p_netloc].
  rewrite Hrel', Hnl', Hth'. cbn [negb orb andb].
  destruct (String.eqb sch' sch); cbn [negb orb]; [|reflexivity].
  now rewrite (urlunparse_page sch' host' segs' Hts' Hth').
Qed.

End UrlJoinLaws.

(* ===================================================================== *)
(** ** CatalogExtractor ([CatalogParser])                                *)
(* ===================================================================== *)

Section CatalogFacts.
Import Py Requests Bs4.
Context {net : Network} {htm : Html}.

(** What [join_all] returns is the hrefs joined, one for one, in order. *)
Lemma join_all_Forall2 (base_url : string) (hrefs : list string) :
  forall links, Spec.join_all base_url hrefs = Ret links ->
                Forall2 (fun h u => UrlParse.urljoin base_url h = Ret u)
                        hrefs links.
Proof.
  induction hrefs as [|h hrefs IH]; intros links Hj; cbn in Hj.
  - inversion Hj. constructor.
  - destruct (UrlParse.urljoin base_url h) as [u|e] eqn:Hu; cbn in Hj;
      [|discriminate].
    destruct (Spec.join_all base_url hrefs) as [us|e]; cbn in Hj;
      [|discriminate].
    inversion Hj; subst. constructor; auto.
Qed.

(** The kept hrefs of a list of elements are those of its parts, one after
    the other. *)
Lemma kept_hrefs_app (before after : list element) :
  Spec.kept_hrefs (before ++ after)
  = (Spec.kept_hrefs before ++ Spec.kept_hrefs after)%list.
Proof.
  unfold Spec.kept_hrefs. now rewrite flat_map_app, map_app, filter_app.
Qed.

(** C8.  [_extract_links] resolves every kept href against the url it is
    handed, and [parse] hands it the url it requested: of the elements the
    selector matches, in document order, those without an href and those
    whose href strips to the empty string are skipped, and the others are
    joined onto the page url with [urljoin], one link per element, in the
    same order.  [urljoin] resolves a relative reference of plain segments
    against the directory of the page, each [..] leaving one directory, and
    a reference that starts with a slash against the root of the site; it
    returns a plain absolute http or https url as it is.  So for the page at
    https://example.com/a/b the href c.html becomes
    https://example.com/a/c.html, /x becomes https://example.com/x, and
    https://other.com/y stays as it is. *)
Theorem extract_links_resolves_in_order
        (self : CatalogParser.t) (sp : soup) (base_url : string)
        (elements : list element) :
  select sp (CatalogParser.link_selector self) = Ret elements ->
  CatalogParser._extract_links self sp base_url
  = Spec.join_all base_url (Spec.kept_hrefs elements)
  /\ (forall links,
        CatalogParser._extract_links self sp base_url = Ret links ->
        Forall2 (fun h u => UrlParse.urljoin base_url h = Ret u)
                (Spec.kept_hrefs elements) links)
  /\ (forall h, In h (Spec.kept_hrefs elements) <->
                exists el raw, In el elements /\ attr el "href" = Some raw
                               /\ h = strip raw /\ h <> "")
  /\ (forall before el after,
        elements = (before ++ el :: after)%list ->
        Spec.kept_hrefs elements
        = (Spec.kept_hrefs before
             ++ match attr el "href" with
                | Some raw => if truthy (strip raw) then [strip raw] else []
                | None => []
                end
             ++ Spec.kept_hrefs after)%list)
  /\ (forall url w r,
        network w (Spec.request_for (CatalogParser.auth self) (Some 10) url)
        = Ret r ->
        status_code r = 200 ->
        BeautifulSoup (content r) = sp ->
        CatalogParser.parse_url url self w
        = match Spec.join_all url (Spec.kept_hrefs elements) with
          | Ret links =>
            (Ret tt,
             CatalogParser.set_result
               (dict_set (CatalogParser.result self)
                         (CatalogParser._get_page_key sp url) links) self,
             (w ++ [Spec.request_for (CatalogParser.auth self) (Some 10) url])%list)
          | Raise e =>
            (Raise e, self,
             (w ++ [Spec.request_for (CatalogParser.auth self) (Some 10) url])%list)
          end)
  /\ (forall sch host dirs file steps names,
        Spec.web_scheme sch = true ->
        truthy host = true -> Spec.plain host = true ->
        forallb Spec.segment dirs = true -> Spec.plain file = true ->
        names <> [] -> forallb Spec.segment names = true ->
        UrlParse.urljoin (Spec.page_at sch host (dirs ++ [file]))
                         (Spec.rel_ref steps names)
        = Ret (Spec.page_at sch host (Spec.climb steps dirs ++ names)))
  /\ (forall sch host segs names,
        Spec.web_scheme sch = true ->
        truthy host = true -> Spec.plain host = true ->
        forallb Spec.plain segs = true -> forallb Spec.segment names = true ->
        UrlParse.urljoin (Spec.page_at sch host segs)
                         ("/" ++ String.concat "/" names)
        = Ret (Spec.page_at sch host names))
  /\ (forall sch host segs sch' host' segs',
        Spec.web_scheme sch = true -> Spec.plain host = true ->
        forallb Spec.plain segs = true ->
        Spec.web_scheme sch' = true ->
        truthy host' = true -> Spec.plain host' = true ->
        forallb Spec.plain segs' = true ->
        UrlParse.urljoin (Spec.page_at sch host segs)
                         (Spec.page_at sch' host' segs')
        = Ret (Spec.page_at sch' host' segs'))
  /\ UrlParse.urljoin "https://example.com/a/b" "c.html"
     = Ret "https://example.com/a/c.html"
  /\ UrlParse.urljoin "https://example.com/a/b" "/x"
     = Ret "https://example.com/x"
  /\ UrlParse.urljoin "https://example.com/a/b" "https://other.com/y"
     = Ret "https://other.com/y".
Proof.
  intros Hsel.
  assert (Heq : forall b, CatalogParser._extract_links self sp b
                          = Spec.join_all b (Spec.kept_hrefs elements)).
  { intros b. rewrite extract_links_eq. unfold Spec.page_links.
    now rewrite Hsel. }
  split; [exact (Heq base_url)|].
  split; [|split; [|split; [|split; [|split; [|split; [|split]]]]]].
  - intros links Hl. rewrite Heq in Hl. now apply join_all_Forall2.
  - intros h. unfold Spec.kept_hrefs. rewrite filter_In, in_map_iff. split.
    + intros [[raw [Hraw Hin]] Ht]. apply in_flat_map in Hin as [el [Hel Hh]].
      exists el, raw. destruct (attr el "href") as [h0|]; [|contradiction].
      destruct Hh as [->|[]]. subst h. repeat split; auto.
      intros He. rewrite He in Ht. discriminate.
    + intros (el & raw & Hel & Hattr & -> & Hne). split.
      * exists raw. split; [reflexivity|]. apply in_flat_map. exists el.
        split; [exact Hel|]. rewrite Hattr. now left.
      * destruct (strip raw); [contradiction | reflexivity].
  - intros before el after ->.
    change (before ++ el :: after)%list with (before ++ [el] ++ after)%list.
    rewrite !kept_hrefs_app. f_equal. f_equal.
    unfold Spec.kept_hrefs. cbn [flat_map].
    destruct (attr el "href") as [raw|]; [|reflexivity].
    cbn [app map filter]. now destruct (truthy (strip raw)).
  - intros url w r Hnet Hst Hsp.
    rewrite catalog_parse_url_unfold. cbn zeta. rewrite Hnet.
    cbn [Spec.fetched Spec.catalog_entry obind]. rewrite Hst, Hsp.
    cbn [Z.eqb Pos.eqb negb]. rewrite <- extract_links_eq, Heq.
    destruct (Spec.join_all url (Spec.kept_hrefs elements)); reflexivity.
  - exact urljoin_relative.
  - exact urljoin_rooted.
  - exact urljoin_absolute.
  - repeat split.
Qed.

(** The loop of [parse], when every turn yields an entry. *)
Lemma catalog_loop (urls : list string) (self : CatalogParser.t)
      (w : list request) :
  (forall i url, nth_error urls i = Some url ->
     returns (Spec.catalog_entry self url
                (Spec.catalog_fetch (CatalogParser.auth self) w urls i url))
     = true) ->
  exists entries,
    for_each urls CatalogParser.parse_url self w
    = (Ret tt,
       CatalogParser.set_result
         (Spec.written entries (CatalogParser.result self)) self,
       (w ++ map (Spec.request_for (CatalogParser.auth self) (Some 10)) urls)%list)
    /\ List.length entries = List.length urls
    /\ forall i url, nth_error urls i = Some url ->
         exists kv, nth_error entries i = Some kv
                    /\ Spec.catalog_entry self url
                         (Spec.catalog_fetch (CatalogParser.auth self) w urls i url)
                       = Ret kv.
Proof.
  intros Hret.
  destruct (for_each_entries CatalogParser.t string (string * list string)
              (fun s x => Spec.request_for (CatalogParser.auth s) (Some 10) x)
              (fun s x o => Spec.catalog_entry s x
                              (Spec.fetched is_RequestException o))
              (fun kv s => CatalogParser.set_result
                             (dict_set (CatalogParser.result s) (fst kv) (snd kv))
                             s)
              CatalogParser.parse_url
              (fun x s w0 => catalog_parse_url_unfold x s w0)
              (fun _ _ _ => eq_refl) (fun _ _ _ _ => eq_refl)
              urls self w Hret) as (entries & Hrun & Hlen & Hnth).
  exists entries. rewrite set_result_written in Hrun. auto.
Qed.

(** [parse] is the loop followed by the return of [self.result]. *)
Lemma catalog_parse_unfold (self : CatalogParser.t) (w : list request) :
  CatalogParser.parse self w =
  match for_each (CatalogParser.urls self) CatalogParser.parse_url self w with
  | (Ret _, s', w') => (Ret (CatalogParser.result s'), s', w')
  | (Raise e, s', w') => (Raise e, s', w')
  end.
Proof.
  unfold CatalogParser.parse, bind, get_self, ret.
  destruct (for_each (CatalogParser.urls self) CatalogParser.parse_url self w)
    as [[[u|e] s'] w']; reflexivity.
Qed.

(** The first turn of [parse] that raises ends the run: [parse] raises the
    same error, the urls after that one are not requested, and the object
    holds the entries of the urls before it. *)
Lemma catalog_run_aborts (self : CatalogParser.t) (w : list request)
      (i : nat) (url : string) (e : exn) :
  nth_error (CatalogParser.urls self) i = Some url ->
  (forall j y, (j < i)%nat -> nth_error (CatalogParser.urls self) j = Some y ->
     returns (Spec.catalog_entry self y
                (Spec.catalog_fetch (CatalogParser.auth self) w
                                    (CatalogParser.urls self) j y)) = true) ->
  Spec.catalog_entry self url
    (Spec.catalog_fetch (CatalogParser.auth self) w (CatalogParser.urls self)
                        i url) = Raise e ->
  exists entries,
    CatalogParser.parse self w
    = (Raise e,
       CatalogParser.set_result
         (Spec.written entries (CatalogParser.result self)) self,
       (w ++ map (Spec.request_for (CatalogParser.auth self) (Some 10))
                 (firstn (Datatypes.S i) (CatalogParser.urls self)))%list)
    /\ List.length entries = i
    /\ forall j y, (j < i)%nat -> nth_error (CatalogParser.urls self) j = Some y ->
         exists kv, nth_error entries j = Some kv
                    /\ Spec.catalog_entry self y
                         (Spec.catalog_fetch (CatalogParser.auth self) w
                                             (CatalogParser.urls self) j y)
                       = Ret kv.
Proof.
  intros Hi Hbefore Hraise.
  destruct (for_each_aborts CatalogParser.t string (string * list string)
              (fun s x => Spec.request_for (CatalogParser.auth s) (Some 10) x)
              (fun s x o => Spec.catalog_entry s x
                              (Spec.fetched is_RequestException o))
              (fun kv s => CatalogParser.set_result
                             (dict_set (CatalogParser.result s) (fst kv) (snd kv))
                             s)
              CatalogParser.parse_url
              (fun x s w0 => catalog_parse_url_unfold x s w0)
              (fun _ _ _ => eq_refl) (fun _ _ _ _ => eq_refl)
              (CatalogParser.urls self) self w i url e Hi Hbefore Hraise)
    as (entries & Hrun & Hlen & Hnth).
  rewrite set_result_written in Hrun.
  exists entries. split; [|split; [exact Hlen | exact Hnth]].
  rewrite catalog_parse_unfold, Hrun. reflexivity.
Qed.

End CatalogFacts.

(* ===================================================================== *)
(** ** Whole runs, and the two fetch operations side by side             *)
(* ===================================================================== *)

Section BatchFacts.
Import Py Requests Bs4.
Context {net : Network} {htm : Html} {opt : Pandas.Options}.





End BatchFacts.

Section FetchComparison.
Import Py Requests Bs4.
Context {net : Network} {htm : Html}.

(** C2, as amended.  For the same auth object, url and calls so far, both
    [_fetch_page] operations send exactly one call and leave their parser as
    it was, and they make the same choice between the session and a plain
    GET: the two calls have the same method, url and headers and go through
    the session in the same case, namely when an authenticated auth object
    is present, and then they are the same call.  Both hand on a response as
    it is and turn a [RequestException] into an unavailable page.  The
    success criteria differ: [CatalogParser.parse] records the empty list
    for every response whose status is not exactly 200, [PageParser.parse]
    appends the empty row for every response that is not [ok], that is of
    status 400 to 599; the two criteria agree on status 200 and on the
    statuses 400 to 599. *)
Theorem fetch_operations_compared
        (url : string) (c : CatalogParser.t) (p : PageParser.t)
        (w : list request) :
  CatalogParser.auth c = PageParser.auth p ->
  let rc := Spec.request_for (CatalogParser.auth c) (Some 10) url in
  let rp := Spec.request_for (PageParser.auth p) None url in
  CatalogParser._fetch_page url c w
  = (Spec.fetched is_RequestException (network w rc), c, (w ++ [rc])%list)
  /\ PageParser._fetch_page url p w
     = (Spec.fetched PageParser.catches (network w rp), p, (w ++ [rp])%list)
  /\ (via_session rc = via_session rp /\ r_method rc = r_method rp
      /\ r_url rc = r_url rp /\ r_headers rc = r_headers rp
      /\ r_data rc = r_data rp)
  /\ (via_session rc = true <->
      exists a, CatalogParser.auth c = Some a
                /\ CNC1Auth.is_authenticated a = true)
  /\ (via_session rc = true -> rc = rp)
  /\ (forall o, (forall e, o = Raise e -> is_RequestException e = true) ->
                Spec.fetched is_RequestException o
                = Spec.fetched PageParser.catches o)
  /\ (forall r, network w rc = Ret r -> status_code r <> 200 ->
        CatalogParser.parse_url url c w
        = (Ret tt,
           CatalogParser.set_result (dict_set (CatalogParser.result c) url []) c,
           (w ++ [rc])%list))
  /\ (forall r, network w rp = Ret r -> ok r = false ->
        PageParser.parse_url url p w
        = (Ret tt,
           PageParser.set_data
             (PageParser.data p ++ [Spec.empty_row (PageParser.selectors p) url])%list
             p,
           (w ++ [rp])%list))
  /\ (forall r, status_code r = 200 \/ 400 <= status_code r < 600 ->
        Spec.catalog_unavailable (Some r) = Spec.page_unavailable (Some r)).
Proof.
  intros Hauth rc rp.
  split; [apply catalog_fetch_unfold|].
  split; [apply page_fetch_unfold|].
  assert (Hshape : via_session rc = via_session rp /\ r_method rc = r_method rp
                   /\ r_url rc = r_url rp /\ r_headers rc = r_headers rp
                   /\ r_data rc = r_data rp).
  { unfold rc, rp. rewrite Hauth. unfold Spec.request_for.
    destruct (PageParser.auth p) as [a|]; [|cbn; auto].
    destruct (CNC1Auth.is_authenticated a); cbn; auto. }
  split; [exact Hshape|]. split; [|split; [|split; [|split; [|split]]]].
  - unfold rc, Spec.request_for.
    destruct (CatalogParser.auth c) as [a|].
    + destruct (CNC1Auth.is_authenticated a) eqn:Ha; cbn; split.
      * intros _. now exists a.
      * reflexivity.
      * discriminate.
      * intros (a' & Ha' & Hb). inversion Ha'; subst. congruence.
    + cbn. split; [discriminate | intros (a & Ha & _); discriminate].
  - unfold rc, rp. rewrite Hauth. unfold Spec.request_for.
    destruct (PageParser.auth p) as [a|]; [|cbn; discriminate].
    destruct (CNC1Auth.is_authenticated a); cbn; [reflexivity | discriminate].
  - intros o Ho. destruct o as [r|e]; cbn; [reflexivity|].
    unfold PageParser.catches. now rewrite (Ho e eq_refl).
  - intros r Hr H200. rewrite catalog_parse_url_unfold. cbn zeta. fold rc.
    rewrite Hr. cbn [Spec.fetched Spec.catalog_entry obind].
    apply Z.eqb_neq in H200. rewrite H200. reflexivity.
  - intros r Hr Hok. rewrite page_parse_url_unfold. cbn zeta. fold rp.
    rewrite Hr. cbn [Spec.fetched Spec.page_record obind].
    rewrite Hok. reflexivity.
  - intros r Hs. unfold Spec.catalog_unavailable, Spec.page_unavailable, ok.
    f_equal. destruct Hs as [H200|Hrange].
    + rewrite H200. reflexivity.
    + destruct (Z.eqb_spec (status_code r) 200) as [E|E]; [lia|].
      symmetry. cbn [negb]. apply negb_false_iff. apply andb_true_iff. split; [apply Z.leb_le | apply Z.ltb_lt]; lia.
Qed.

End FetchComparison.

(* ===================================================================== *)
(** ** The statements at work on the fixtures                            *)
(* ===================================================================== *)

Section DemoFacts.
Import Py Requests Bs4.


(** The scenarios of the specification on the fixtures: a page with both
    fields, a page that times out, a page without a price. *)
Example scenario_records :
  PageParser.data (snd (fst (Demo.page_run Demo.pandas3)))
  = [[("URL", Some Demo.p1); ("Title", Some "Widget"); ("Price", Some "9.99")];
     [("URL", Some Demo.p2); ("Title", None); ("Price", None)];
     [("URL", Some Demo.p3); ("Title", Some "Widget"); ("Price", None)]].
Proof. reflexivity. Qed.

(** A catalog page keyed by its stripped heading, one without a heading
    keyed by its url. *)
Example scenario_catalog :
  fst (fst (@CatalogParser.parse Demo.online Demo.html
              (CatalogParser.__init__
                 (UrlList [Demo.catalog_url; "https://example.com/plain"])
                 ".item" (Some Demo.logged_in)) []))
  = Ret [("Mills", ["https://example.com/a/c.html"; "https://example.com/x";
                    "https://other.com/y"]);
         ("https://example.com/plain", ["https://example.com/z"])].
Proof. reflexivity. Qed.

Example urljoin_dots :
  UrlParse.urljoin "https://example.com/a/b/" "../c;p=1?q#f"
  = Ret "https://example.com/a/c;p=1?q#f"
  /\ UrlParse.urljoin "https://example.com/a/b?x=1" "?y=2"
     = Ret "https://example.com/a/b?y=2"
  /\ UrlParse.urljoin "https://example.com/a/b" "mailto:a@b" = Ret "mailto:a@b".
Proof. repeat split. Qed.

(** Hrefs that [urlsplit] rejects: a bracket without its partner, a
    bracketed host that is no IPv6 or IPvFuture address, text before the
    bracket, and a host with a character whose NFKC form holds a slash; and
    bracketed hosts it accepts. *)
Example urljoin_rejects :
  UrlParse.urljoin "https://example.com/a/b" "//[x/y" = Raise ValueError
  /\ UrlParse.urljoin "https://example.com/a/b" "//[abc]/y" = Raise ValueError
  /\ UrlParse.urljoin "https://example.com/a/b" "//[1.2.3.4]/y"
     = Raise ValueError
  /\ UrlParse.urljoin "https://example.com/a/b" "//x[::1]/y" = Raise ValueError
  /\ UrlParse.urljoin "https://example.com/a/b" "//exa℀mple.com/y"
     = Raise ValueError
  /\ UrlParse.urljoin "https://example.com/a/b" "//[::1]:80/y"
     = Ret "https://[::1]:80/y"
  /\ UrlParse.urljoin "https://example.com/a/b" "//[v1.x]/y"
     = Ret "https://[v1.x]/y".
Proof. repeat split. Qed.



Lemma demo_selectors_compile (sp : @soup Demo.html) (col sel : string) :
  In (col, sel) Demo.selectors -> returns (@select Demo.html sp sel) = true.
Proof.
  intros [H|[H|[]]]; inversion H; subst; reflexivity.
Qed.

Lemma demo_no_url_field : ~ In "URL" (dict_keys Demo.selectors).
Proof. cbn. intros [H|[H|[]]]; discriminate H. Qed.




(** C2 as stated fails: on the plain path the two operations send different
    calls, one with a timeout of 10 seconds and one with none, and a page
    answered with status 204 is unavailable to [CatalogParser], which
    records the empty list, and available to [PageParser], which extracts
    its fields. *)
Lemma fetch_operations_differ :
  snd (@CatalogParser._fetch_page Demo.online Demo.c204
         (CatalogParser.__init__ (OneUrl Demo.c204) ".item" None) [])
  <> snd (@PageParser._fetch_page Demo.online Demo.c204
            (PageParser.__init__ (OneUrl Demo.c204) Demo.selectors None) [])
  /\ fst (fst (@CatalogParser.parse Demo.online Demo.html
                 (CatalogParser.__init__ (OneUrl Demo.c204) ".item" None) []))
     = Ret [(Demo.c204, [])]
  /\ PageParser.data
       (snd (fst (@PageParser.parse Demo.online Demo.html Demo.pandas3
                    (PageParser.__init__ (OneUrl Demo.c204) Demo.selectors None)
                    [])))
     = [[("URL", Some Demo.c204); ("Title", Some "Mills"); ("Price", None)]].
Proof.
  split; [|split; reflexivity].
  vm_compute. intros H. discriminate H.
Qed.

(** C2 at work, without a session. *)
Lemma fetch_operations_compared_witness :
  @CatalogParser._fetch_page Demo.online Demo.p2
    (CatalogParser.__init__ (OneUrl Demo.p2) ".item" None) []
  = (Ret None, CatalogParser.__init__ (OneUrl Demo.p2) ".item" None,
     [Spec.request_for None (Some 10) Demo.p2])
  /\ @PageParser._fetch_page Demo.online Demo.p2
       (PageParser.__init__ (OneUrl Demo.p2) Demo.selectors None) []
     = (Ret None, PageParser.__init__ (OneUrl Demo.p2) Demo.selectors None,
        [Spec.request_for None None Demo.p2]).
Proof.
  pose proof (@fetch_operations_compared Demo.online Demo.html Demo.p2
                (CatalogParser.__init__ (OneUrl Demo.p2) ".item" None)
                (PageParser.__init__ (OneUrl Demo.p2) Demo.selectors None)
                [] eq_refl) as H.
  cbv zeta in H. destruct H as (Hc & Hp & _). split; [exact Hc | exact Hp].
Defined.

(** C3 as stated fails: without connectivity [login] raises. *)
Lemma login_raises_offline :
  @CNC1Auth.login Demo.offline Demo.user []
  = (Raise ConnectionError, Demo.user, [Spec.login_request Demo.user]).
Proof. reflexivity. Qed.

(** C3 at work: a wrong password, and no connectivity. *)
Lemma login_signals_failure_witness :
  (exists b s,
     @CNC1Auth.login Demo.online Demo.stranger []
     = (Ret b, s, [Spec.login_request Demo.stranger])
     /\ (b = false -> s = Demo.stranger))
  /\ @CNC1Auth.login Demo.offline Demo.user []
     = (Raise ConnectionError, Demo.user, [Spec.login_request Demo.user]).
Proof.
  split.
  - exact (proj1 (@login_signals_failure Demo.online Demo.stranger [])
             {| status_code := 200;
                text := "<p>" ++ CNC1Auth.FAILURE_MARKER ++ "</p>";
                content := "<p>" ++ CNC1Auth.FAILURE_MARKER ++ "</p>" |}
             eq_refl).
  - exact (proj2 (@login_signals_failure Demo.offline Demo.user [])
             ConnectionError eq_refl).
Defined.

(** C4 as stated fails: a login answered with 204 No Content and a clean
    body is a success in the words of the specification, and [login]
    returns false and leaves the session unauthenticated. *)
Lemma login_rejects_204 :
  @network Demo.online_204 [] (Spec.login_request Demo.user)
  = Ret {| status_code := 204; text := "{}"; content := "{}" |}
  /\ Spec.spec_login_success
       {| status_code := 204; text := "{}"; content := "{}" |} = true
  /\ @CNC1Auth.login Demo.online_204 Demo.user []
     = (Ret false, Demo.user, [Spec.login_request Demo.user]).
Proof. repeat split. Qed.

(** C4 at work: the right password, answered with 200. *)
Lemma login_true_iff_200_without_marker_witness :
  fst (fst (@CNC1Auth.login Demo.online Demo.user [])) = Ret true
  /\ CNC1Auth.is_authenticated
       (snd (fst (@CNC1Auth.login Demo.online Demo.user []))) = true.
Proof.
  destruct (@login_true_iff_200_without_marker Demo.online Demo.user []
              {| status_code := 200; text := "{}"; content := "{}" |} eq_refl)
    as (Hiff & Hauth & _).
  assert (Ht : fst (fst (@CNC1Auth.login Demo.online Demo.user [])) = Ret true).
  { apply Hiff. split; reflexivity. }
  split; [exact Ht | exact (Hauth Ht)].
Defined.

(** C5 at work: before a login, after one, and after one with
    [headers=None]. *)
Lemma get_unauthenticated_sends_nothing_witness :
  @CNC1Auth.get Demo.online Demo.p1 CNC1Auth.no_kwargs Demo.user []
  = (Ret None, Demo.user, [])
  /\ @CNC1Auth.get Demo.online Demo.p1
       {| CNC1Auth.kw_headers := Some None; CNC1Auth.kw_timeout := None |}
       Demo.user []
     = (Ret None, Demo.user, [])
  /\ (exists rq,
        snd (@CNC1Auth.get Demo.online Demo.p1 CNC1Auth.no_kwargs
               Demo.logged_in [])
        = [rq] /\ r_method rq = GET /\ r_url rq = Demo.p1
        /\ via_session rq = true)
  /\ @CNC1Auth.get Demo.online Demo.p1
       {| CNC1Auth.kw_headers := Some None; CNC1Auth.kw_timeout := None |}
       Demo.logged_in []
     = (Raise AttributeError, Demo.logged_in, []).
Proof.
  split; [|split; [|split]].
  - exact (proj1 (@get_unauthenticated_sends_nothing Demo.online Demo.p1
                    CNC1Auth.no_kwargs Demo.user []) eq_refl).
  - exact (proj1 (@get_unauthenticated_sends_nothing Demo.online Demo.p1
                    {| CNC1Auth.kw_headers := Some None;
                       CNC1Auth.kw_timeout := None |} Demo.user []) eq_refl).
  - exact (proj1 (proj2 (@get_unauthenticated_sends_nothing Demo.online Demo.p1
                           CNC1Auth.no_kwargs Demo.logged_in []))
                 eq_refl ltac:(discriminate)).
  - exact (proj2 (proj2 (@get_unauthenticated_sends_nothing Demo.online Demo.p1
                           {| CNC1Auth.kw_headers := Some None;
                              CNC1Auth.kw_timeout := None |}
                           Demo.logged_in []))
                 eq_refl eq_refl).
Defined.

(** C6 as stated fails.  With a field that is itself called [URL] the
    record holds the text of the heading under [URL], not the requested
    url.  And for a heading with nested markup, Big followed by Widget in
    bold, the field holds BigWidget, the strings stripped one by one, where
    the trimmed text content is Big Widget. *)
Lemma parse_page_sets_fields_fails :
  (PageParser.data
     (snd (fst (@PageParser.parse Demo.online Demo.html Demo.pandas3
                  (PageParser.__init__ (OneUrl Demo.p1) [("URL", "h1")] None)
                  [])))
   = [[("URL", Some "Widget")]]
   /\ "Widget" <> Demo.p1)
  /\ (PageParser.data
        (snd (fst (@PageParser.parse Demo.online Demo.html Demo.pandas3
                     (PageParser.__init__ (OneUrl Demo.nested)
                                          [("Title", "h1")] None)
                     [])))
      = [[("URL", Some Demo.nested); ("Title", Some "BigWidget")]]
      /\ option_map (fun el => strip (@Spec.text_content Demo.html el))
                    (@find Demo.html (Demo.parse_html Demo.nested_html) "h1")
         = Some "Big Widget").
Proof. repeat split. discriminate. Qed.

(** C6 at work: the page without a price. *)
Lemma parse_page_sets_fields_witness :
  exists rec,
    @PageParser._parse_page Demo.html Demo.p3
      {| status_code := 200; text := Demo.widget_no_price_html;
         content := Demo.widget_no_price_html |}
      (PageParser.__init__ (OneUrl Demo.p3) Demo.selectors None) []
    = (Ret tt,
       PageParser.set_data [rec]
         (PageParser.__init__ (OneUrl Demo.p3) Demo.selectors None), [])
    /\ dict_get rec "URL" = Some (Some Demo.p3)
    /\ dict_get rec "Title" = Some (Some "Widget")
    /\ dict_get rec "Price" = Some None.
Proof.
  destruct (@parse_page_sets_fields Demo.online Demo.html Demo.p3
              {| status_code := 200; text := Demo.widget_no_price_html;
                 content := Demo.widget_no_price_html |}
              (PageParser.__init__ (OneUrl Demo.p3) Demo.selectors None)
              eq_refl demo_no_url_field
              (fun col sel => demo_selectors_compile _ col sel))
    as (rec & Hrun & _ & Hurl & _ & Hfields).
  exists rec. split; [exact (Hrun [])|]. split; [exact Hurl|]. split.
  - destruct (Hfields "Title" "h1" (or_introl eq_refl))
      as (els & Hsel & _ & Hone).
    vm_compute in Hsel. inversion Hsel; subst els.
    exact (Hone _ "Widget" eq_refl eq_refl).
  - destruct (Hfields "Price" ".price" (or_intror (or_introl eq_refl)))
      as (els & Hsel & Hget & _).
    vm_compute in Hsel. inversion Hsel; subst els. exact Hget.
Defined.

(** C7 at work: three urls, the second timing out. *)
Lemma rows_follow_input_order_witness :
  exists df s' w',
    Demo.page_run Demo.pandas3 = (Ret df, s', w')
    /\ Pandas.index df
       = Pandas.LabelIndex "URL"
           [Pandas.Value (Some Demo.p1); Pandas.Value (Some Demo.p2);
            Pandas.Value (Some Demo.p3)]
    /\ List.length (Pandas.rows df) = 3%nat.
Proof.
  destruct (Demo.page_run Demo.pandas3) as [[[df|e] s'] w'] eqn:Hrun.
  - exists df, s', w'. split; [reflexivity|].
    destruct (@rows_follow_input_order Demo.online Demo.html Demo.pandas3
                [Demo.p1; Demo.p2; Demo.p3] Demo.selectors None []
                df s' w' Hrun)
      as (_ & _ & Hrows & _ & _ & _ & Hidx).
    split; [exact (Hidx demo_no_url_field) | exact Hrows].
  - vm_compute in Hrun. discriminate Hrun.
Defined.

(** C8 at work: the catalog page of the fixtures, fetched from
    https://example.com/a/b, one turn of [parse] on it, and a reference that
    leaves two directories. *)
Lemma extract_links_resolves_in_order_witness :
  @CatalogParser._extract_links Demo.html
    (CatalogParser.__init__ (OneUrl Demo.catalog_url) ".item" None)
    (Demo.parse_html Demo.catalog_html) Demo.catalog_url
  = Ret ["https://example.com/a/c.html"; "https://example.com/x";
         "https://other.com/y"]
  /\ @CatalogParser.parse_url Demo.online Demo.html Demo.catalog_url
       (CatalogParser.__init__ (OneUrl Demo.catalog_url) ".item" None) []
     = (Ret tt,
        CatalogParser.set_result
          [("Mills", ["https://example.com/a/c.html"; "https://example.com/x";
                      "https://other.com/y"])]
          (CatalogParser.__init__ (OneUrl Demo.catalog_url) ".item" None),
        [Spec.request_for None (Some 10) Demo.catalog_url])
  /\ UrlParse.urljoin "https://example.com/shop/mills/index.html"
                      "./../../img/a.png"
     = Ret "https://example.com/img/a.png".
Proof.
  pose proof (@extract_links_resolves_in_order Demo.online Demo.html
                (CatalogParser.__init__ (OneUrl Demo.catalog_url) ".item" None)
                (Demo.parse_html Demo.catalog_html) Demo.catalog_url
                [Demo.a "A" (Some "c.html"); Demo.a "B" (Some "/x");
                 Demo.a "C" (Some "https://other.com/y");
                 Demo.a "D" (Some "  "); Demo.a "E" None]
                eq_refl) as (Hlinks & _ & _ & _ & Hturn & Hrel & _).
  split; [rewrite Hlinks; reflexivity|]. split.
  - rewrite (Hturn Demo.catalog_url []
               {| status_code := 200; text := Demo.catalog_html;
                  content := Demo.catalog_html |} eq_refl eq_refl eq_refl).
    reflexivity.
  - exact (Hrel "https" "example.com" ["shop"; "mills"] "index.html"
                [Spec.Here; Spec.Up; Spec.Up] ["img"; "a.png"]
                eq_refl eq_refl eq_refl eq_refl eq_refl
                ltac:(discriminate) eq_refl).
Defined.

(** C8 does not hold for every absolute href: [urljoin] takes the href apart
    and puts it together again, which lower-cases the scheme and drops an
    empty fragment, so the link is not the href that went in. *)
Lemma absolute_href_rewritten :
  @CatalogParser._extract_links Demo.html
    (CatalogParser.__init__ (OneUrl Demo.catalog_url) ".item" None)
    (Demo.parse_html Demo.shouted_html) Demo.catalog_url
  = Ret ["https://other.com/y"; "https://other.com/y"]
  /\ UrlParse.urljoin "https://example.com/a/b" "HTTPS://other.com/y"
     = Ret "https://other.com/y"
  /\ "HTTPS://other.com/y" <> "https://other.com/y"
  /\ UrlParse.urljoin "https://example.com/a/b" "https://other.com/y#"
     = Ret "https://other.com/y"
  /\ "https://other.com/y#" <> "https://other.com/y".
Proof. repeat split; try reflexivity; discriminate. Qed.

(** C9 at work: failed logins and fetches after a successful login. *)
Lemma authenticated_is_forever_witness :
  CNC1Auth.is_authenticated
    (fst (@CNC1Auth.run Demo.offline
            [CNC1Auth.Login; CNC1Auth.Get Demo.p1 CNC1Auth.no_kwargs;
             CNC1Auth.IsAuthenticated; CNC1Auth.Login; CNC1Auth.GetSession]
            Demo.logged_in []))
  = true.
Proof.
  exact (@authenticated_is_forever Demo.offline
           [CNC1Auth.Login; CNC1Auth.Get Demo.p1 CNC1Auth.no_kwargs;
            CNC1Auth.IsAuthenticated; CNC1Auth.Login; CNC1Auth.GetSession]
           Demo.logged_in [] eq_refl).
Defined.

End DemoFacts.


(* ===================================================================== *)
(** ** More on dicts and frames                                          *)
(* ===================================================================== *)

Section MoreDictFacts.
Import Py.
Context {V : Type}.
Implicit Types (d : dict V) (k : string) (v : V).

Lemma dict_has_In d k : dict_has d k = true <-> In k (dict_keys d).
Proof.
  unfold dict_has. induction d as [|[k' v'] d IH]; cbn.
  - split; [discriminate | contradiction].
  - destruct (String.eqb_spec k' k) as [->|Hne].
    + split; auto.
    + rewrite IH. split; [auto | intros [?|?]; [congruence | assumption]].
Qed.

Lemma dict_set_keys d k v k' :
  In k' (dict_keys (dict_set d k v)) <-> k' = k \/ In k' (dict_keys d).
Proof.
  induction d as [|[k0 v0] d IH]; cbn.
  - split; [intros [?|[]]; auto | intros [?|[]]; auto].
  - destruct (String.eqb_spec k0 k) as [->|Hne]; cbn.
    + split; [intros [?|?]; auto | intros [?|[?|?]]; auto].
    + rewrite IH. tauto.
Qed.

Lemma dict_set_unique d k v :
  unique_keys d = true -> unique_keys (dict_set d k v) = true.
Proof.
  induction d as [|[k0 v0] d IH]; cbn; intros Hu; [reflexivity|].
  apply andb_true_iff in Hu as [Hk Hu].
  destruct (String.eqb_spec k0 k) as [->|Hne]; cbn.
  - now rewrite Hk, Hu.
  - rewrite IH by assumption. rewrite andb_true_r.
    apply negb_true_iff, mem_false_not_In in Hk.
    apply negb_true_iff, mem_false_not_In.
    rewrite dict_set_keys. intros [?|?]; [congruence | contradiction].
Qed.

Lemma dict_set_length d k v :
  (List.length (dict_set d k v) <= Datatypes.S (List.length d))%nat.
Proof.
  induction d as [|[k0 v0] d IH]; cbn; [lia|].
  destruct (String.eqb k0 k); cbn; lia.
Qed.

Lemma dict_get_In_keys d k :
  In k (dict_keys d) -> exists v, dict_get d k = Some v.
Proof.
  intros Hin. apply dict_has_In in Hin. unfold dict_has in Hin.
  destruct (dict_get d k) as [v|]; [now exists v | discriminate].
Qed.

Lemma unique_keys_NoDup d : unique_keys d = true -> NoDup (dict_keys d).
Proof.
  induction d as [|[k v] d IH]; cbn; intros Hu; [constructor|].
  apply andb_true_iff in Hu as [Hk Hu].
  apply negb_true_iff, mem_false_not_In in Hk. constructor; auto.
Qed.

End MoreDictFacts.

Section MoreWrittenFacts.
Import Py.

Lemma written_unique (entries : list (string * list string)) : forall d,
  unique_keys d = true -> unique_keys (Spec.written entries d) = true.
Proof.
  unfold Spec.written.
  induction entries as [|[k v] entries IH]; intros d Hu; cbn; auto.
  apply IH. now apply dict_set_unique.
Qed.

Lemma written_length (entries : list (string * list string)) : forall d,
  (List.length (Spec.written entries d)
   <= List.length d + List.length entries)%nat.
Proof.
  unfold Spec.written.
  induction entries as [|[k v] entries IH]; intros d; cbn; [lia|].
  specialize (IH (dict_set d k v)). pose proof (dict_set_length d k v). lia.
Qed.

(** The keys of the result are the keys it had and the keys written. *)
Lemma written_keys (entries : list (string * list string)) : forall d k,
  dict_has (Spec.written entries d) k = true
  <-> dict_has d k = true \/ exists i v, nth_error entries i = Some (k, v).
Proof.
  unfold Spec.written.
  induction entries as [|[k0 v0] entries IH]; intros d k; cbn.
  - split; [auto | intros [?|(i & v & H)]; [assumption | destruct i; discriminate]].
  - rewrite IH. rewrite !dict_has_In, dict_set_keys. split.
    + intros [[->|Hd]|(i & v & Hi)].
      * right. now exists O, v0.
      * now left.
      * right. now exists (Datatypes.S i), v.
    + intros [Hd|(i & v & Hi)].
      * left. now right.
      * destruct i as [|i]; cbn in Hi.
        -- inversion Hi; subst. left. now left.
        -- right. now exists i, v.
Qed.

(** A key that no entry writes keeps what it held. *)
Lemma written_other (entries : list (string * list string)) : forall d k,
  (forall i kv, nth_error entries i = Some kv -> fst kv <> k) ->
  dict_get (Spec.written entries d) k = dict_get d k.
Proof.
  unfold Spec.written.
  induction entries as [|[k0 v0] entries IH]; intros d k Hne; cbn;
    [reflexivity|].
  rewrite IH by (intros i kv Hi; apply (Hne (Datatypes.S i) kv Hi)).
  apply dict_get_set_other. intros ->. now apply (Hne O (k0, v0)).
Qed.

End MoreWrittenFacts.

Section MorePandasFacts.
Import Py Pandas.

Lemma add_keys_fold_known (ks : list string) : forall cols,
  (forall k, In k ks -> In k cols) ->
  fold_left (fun acc k0 => if mem k0 acc then acc else (acc ++ [k0])%list)
            ks cols = cols.
Proof.
  induction ks as [|k ks IH]; intros cols Hin; cbn; [reflexivity|].
  assert (Hk : mem k cols = true) by (apply mem_In, Hin; now left).
  rewrite Hk. apply IH. intros k' Hk'. apply Hin. now right.
Qed.

Lemma add_keys_fold_new (ks : list string) : forall cols,
  NoDup ks -> (forall k, In k ks -> ~ In k cols) ->
  fold_left (fun acc k0 => if mem k0 acc then acc else (acc ++ [k0])%list)
            ks cols = (cols ++ ks)%list.
Proof.
  induction ks as [|k ks IH]; intros cols Hnd Hnew; cbn.
  - now rewrite app_nil_r.
  - inversion Hnd as [|? ? Hk Hnd']; subst.
    assert (Hm : mem k cols = false)
      by (apply mem_false_not_In, Hnew; now left).
    rewrite Hm, IH; auto.
    + now rewrite <- app_assoc.
    + intros k' Hk' Hin. apply in_app_or in Hin as [Hin|[<-|[]]].
      * apply (Hnew k'); [now right | assumption].
      * contradiction.
Qed.

(** Records that all have the same keys give exactly these columns. *)
Lemma columns_of_same_keys (ks : list string) (r : row) (data : list row) :
  NoDup ks -> dict_keys r = ks ->
  (forall r', In r' data -> dict_keys r' = ks) ->
  columns_of (r :: data) = ks.
Proof.
  intros Hnd Hr Hall. unfold columns_of. cbn [fold_left].
  assert (H0 : add_keys [] r = ks).
  { unfold add_keys. rewrite Hr, add_keys_fold_new; auto. }
  rewrite H0. clear H0 Hr.
  induction data as [|r' data IH]; cbn [fold_left]; [reflexivity|].
  assert (H1 : add_keys ks r' = ks).
  { unfold add_keys. rewrite (Hall r' (or_introl eq_refl)).
    now apply add_keys_fold_known. }
  rewrite H1. apply IH. intros r0 Hin. apply Hall. now right.
Qed.

Lemma set_index_length (df df' : DataFrame) (col : string) :
  set_index df col = Ret df' ->
  List.length (rows df') = List.length (rows df).
Proof.
  unfold set_index. destruct (position col (columns df)); [|discriminate].
  intros H. inversion H; subst. cbn. now rewrite length_map.
Qed.

End MorePandasFacts.

(* ===================================================================== *)
(** ** More on the runs of the two parsers                               *)
(* ===================================================================== *)

Section RunFacts.
Import Py Requests Bs4.
Context {net : Network} {htm : Html} {opt : Pandas.Options}.

(** A [parse] of [PageParser] that returned, on an object in any state: the
    loop appended one record per url and the table is built from all the
    records the object holds. *)
Lemma page_parse_returned (self : PageParser.t) (w : list request)
      (df : Pandas.DataFrame) (s' : PageParser.t) (w' : list request) :
  PageParser.parse self w = (Ret df, s', w') ->
  exists recs,
    s' = PageParser.set_data (PageParser.data self ++ recs)%list self
    /\ w' = (w ++ map (Spec.request_for (PageParser.auth self) None)
                      (PageParser.urls self))%list
    /\ List.length recs = List.length (PageParser.urls self)
    /\ (forall i url, nth_error (PageParser.urls self) i = Some url ->
          exists rec, nth_error recs i = Some rec
                      /\ Spec.page_record (PageParser.selectors self) url
                           (Spec.page_fetch (PageParser.auth self) w
                                            (PageParser.urls self) i url)
                         = Ret rec)
    /\ Pandas.set_index
         (Pandas.from_records (PageParser.data self ++ recs)%list) "URL"
       = Ret df.
Proof.
  intros Hparse. rewrite page_parse_unfold in Hparse.
  destruct (for_each (PageParser.urls self) PageParser.parse_url self w)
    as [[[u|e] s1] w1] eqn:Hloop; [|discriminate].
  pose proof (page_loop_inv _ self w u s1 w1 Hloop) as Hret.
  destruct (page_loop _ self w Hret) as (recs & Hrun & Hlen & Hnth).
  rewrite Hrun in Hloop. inversion Hloop; subst u s1 w1. clear Hloop.
  cbn [PageParser.data PageParser.set_data] in Hparse.
  inversion Hparse as [[Hdf Hs Hw]].
  exists recs. repeat split; auto.
Qed.

(** The loop of [CatalogParser.parse], read backwards. *)
Lemma catalog_loop_inv (urls : list string) (self : CatalogParser.t)
      (w : list request) (u : unit) (s' : CatalogParser.t)
      (w' : list request) :
  for_each urls CatalogParser.parse_url self w = (Ret u, s', w') ->
  forall i url, nth_error urls i = Some url ->
    returns (Spec.catalog_entry self url
               (Spec.catalog_fetch (CatalogParser.auth self) w urls i url))
    = true.
Proof.
  intros Hrun.
  exact (for_each_returned CatalogParser.t string (string * list string)
           (fun s x => Spec.request_for (CatalogParser.auth s) (Some 10) x)
           (fun s x o => Spec.catalog_entry s x
                           (Spec.fetched is_RequestException o))
           (fun kv s => CatalogParser.set_result
                          (dict_set (CatalogParser.result s) (fst kv) (snd kv))
                          s)
           CatalogParser.parse_url
           (fun x s w0 => catalog_parse_url_unfold x s w0)
           (fun _ _ _ => eq_refl) (fun _ _ _ _ => eq_refl)
           urls self w u s' w' Hrun).
Qed.

(** What an entry holds: the url and no link for a page that is
    unavailable or not of status 200, and else the key of the page with the
    links extracted from it, the url of the page being the base. *)
Lemma catalog_entry_value (self : CatalogParser.t) (url : string)
      (fetch : outcome (option response)) (k : string) (v : list string) :
  Spec.catalog_entry self url fetch = Ret (k, v) ->
  (exists resp, fetch = Ret resp /\ Spec.catalog_unavailable resp = true
                /\ k = url /\ v = [])
  \/ (exists r, fetch = Ret (Some r) /\ status_code r = 200
                /\ k = match find (BeautifulSoup (content r)) "h1" with
                       | Some h => get_text_strip h
                       | None => url
                       end
                /\ exists elements,
                     select (BeautifulSoup (content r))
                            (CatalogParser.link_selector self) = Ret elements
                     /\ Spec.join_all url (Spec.kept_hrefs elements) = Ret v).
Proof.
  unfold Spec.catalog_entry. destruct fetch as [[r|]|e]; cbn [obind];
    try discriminate.
  - destruct (Z.eqb_spec (status_code r) 200) as [H200|H200]; cbn [negb].
    + unfold Spec.page_links.
      destruct (select (BeautifulSoup (content r))
                       (CatalogParser.link_selector self))
        as [elements|e] eqn:Hsel; cbn [obind]; [|discriminate].
      destruct (Spec.join_all url (Spec.kept_hrefs elements))
        as [links|e] eqn:Hl; cbn [obind]; [|discriminate].
      intros H. inversion H; subst. right. exists r.
      repeat split; auto. exists elements. auto.
    + intros H. inversion H; subst. left. exists (Some r).
      repeat split. cbn. now apply negb_true_iff, Z.eqb_neq.
  - intros H. inversion H; subst. left. exists None. repeat split.
Qed.

(** X3.  Whatever [CatalogParser.parse] returns, on an object in any state,
    is what one write per url, in input order, makes of the result the
    object held ([parse] does not reset it): for a page that is unavailable
    or not of status 200 the url itself with the empty list, and else the
    key of the page, the text of its first heading or the url, with the
    links extracted from it.  The keys stay distinct, no more keys are
    added than there are urls, a key written more than once holds the links
    of the last url that wrote it, and a key no url wrote keeps what it
    held. *)
Theorem catalog_result_last_write_wins
        (self : CatalogParser.t) (w : list request)
        (res : dict (list string)) (s' : CatalogParser.t)
        (w' : list request) :
  CatalogParser.parse self w = (Ret res, s', w') ->
  exists entries,
    res = Spec.written entries (CatalogParser.result self)
    /\ s' = CatalogParser.set_result res self
    /\ List.length entries = List.length (CatalogParser.urls self)
    /\ (forall i url, nth_error (CatalogParser.urls self) i = Some url ->
          exists k v,
            nth_error entries i = Some (k, v)
            /\ ((exists resp,
                    Spec.catalog_fetch (CatalogParser.auth self) w
                                       (CatalogParser.urls self) i url
                    = Ret resp
                    /\ Spec.catalog_unavailable resp = true
                    /\ k = url /\ v = [])
                \/ (exists r,
                      Spec.catalog_fetch (CatalogParser.auth self) w
                                         (CatalogParser.urls self) i url
                      = Ret (Some r)
                      /\ status_code r = 200
                      /\ k = match find (BeautifulSoup (content r)) "h1" with
                             | Some h => get_text_strip h
                             | None => url
                             end
                      /\ exists elements,
                           select (BeautifulSoup (content r))
                                  (CatalogParser.link_selector self)
                           = Ret elements
                           /\ Spec.join_all url (Spec.kept_hrefs elements)
                              = Ret v)))
    /\ (unique_keys (CatalogParser.result self) = true ->
        unique_keys res = true)
    /\ (List.length res
        <= List.length (CatalogParser.result self)
           + List.length (CatalogParser.urls self))%nat
    /\ (forall k, dict_has res k = true
                  <-> dict_has (CatalogParser.result self) k = true
                      \/ exists i v, nth_error entries i = Some (k, v))
    /\ (forall i k v,
          nth_error entries i = Some (k, v) ->
          (forall j kv, (i < j)%nat -> nth_error entries j = Some kv ->
                        fst kv <> k) ->
          dict_get res k = Some v)
    /\ (forall k,
          (forall i kv, nth_error entries i = Some kv -> fst kv <> k) ->
          dict_get res k = dict_get (CatalogParser.result self) k).
Proof.
  intros Hparse. rewrite catalog_parse_unfold in Hparse.
  destruct (for_each (CatalogParser.urls self) CatalogParser.parse_url self w)
    as [[[u|e] s1] w1] eqn:Hloop; [|discriminate].
  pose proof (catalog_loop_inv _ self w u s1 w1 Hloop) as Hret.
  destruct (catalog_loop _ self w Hret) as (entries & Hrun & Hlen & Hnth).
  rewrite Hrun in Hloop. inversion Hloop; subst u s1 w1. clear Hloop.
  cbn [CatalogParser.result CatalogParser.set_result] in Hparse.
  inversion Hparse as [[Hres Hs Hw]]. clear Hparse.
  exists entries. split; [reflexivity|]. split; [reflexivity|].
  split; [exact Hlen|]. split; [|split; [|split; [|split; [|split]]]].
  - intros i url Hu. destruct (Hnth i url Hu) as ([k v] & Hkv & Hent).
    exists k, v. split; [exact Hkv|].
    exact (catalog_entry_value _ _ _ _ _ Hent).
  - apply written_unique.
  - pose proof (written_length entries (CatalogParser.result self)) as Hl.
    lia.
  - intros k. apply written_keys.
  - intros i k v Hi Hlater. eapply written_last; eassumption.
  - intros k Hne. now apply written_other.
Qed.

(** X4.  An error that [CatalogParser._fetch_page] does not catch ends the
    run at the url where it occurs, on an object in any state: [parse]
    raises it, the urls after that one are never requested, and the result
    the object holds is what the writes of the urls before it make of the
    result it held, one write per url, each the entry of its url. *)
Theorem catalog_run_stops_at_uncaught_error
        (self : CatalogParser.t) (w : list request)
        (i : nat) (url : string) (e : exn) :
  nth_error (CatalogParser.urls self) i = Some url ->
  (forall j y, (j < i)%nat -> nth_error (CatalogParser.urls self) j = Some y ->
     returns (Spec.catalog_entry self y
                (Spec.catalog_fetch (CatalogParser.auth self) w
                                    (CatalogParser.urls self) j y)) = true) ->
  Spec.answer w (map (Spec.request_for (CatalogParser.auth self) (Some 10))
                     (CatalogParser.urls self)) i
              (Spec.request_for (CatalogParser.auth self) (Some 10) url)
  = Raise e ->
  is_RequestException e = false ->
  exists entries,
    CatalogParser.parse self w
    = (Raise e,
       CatalogParser.set_result
         (Spec.written entries (CatalogParser.result self)) self,
       (w ++ map (Spec.request_for (CatalogParser.auth self) (Some 10))
                 (firstn (Datatypes.S i) (CatalogParser.urls self)))%list)
    /\ List.length entries = i
    /\ (forall j y, (j < i)%nat ->
          nth_error (CatalogParser.urls self) j = Some y ->
          exists kv, nth_error entries j = Some kv
                     /\ Spec.catalog_entry self y
                          (Spec.catalog_fetch (CatalogParser.auth self) w
                                              (CatalogParser.urls self) j y)
                        = Ret kv).
Proof.
  intros Hi Hbefore Hans He.
  apply (catalog_run_aborts self w i url e Hi Hbefore).
  unfold Spec.catalog_fetch. rewrite Hans. cbn [Spec.fetched].
  rewrite He. reflexivity.
Qed.

(** X5.  The same for [PageParser]: an error its [_fetch_page] does not
    catch, or one raised while a page is read, ends the run at that url.
    [parse] raises it and builds no table; the urls after that one are never
    requested, and [self.data] keeps the records of the urls before it. *)
Theorem page_run_stops_at_uncaught_error
        (urls : list string) (selectors : dict string)
        (auth : option CNC1Auth.t) (w : list request)
        (i : nat) (url : string) (e : exn) :
  nth_error urls i = Some url ->
  (forall j y, (j < i)%nat -> nth_error urls j = Some y ->
     returns (Spec.page_record selectors y (Spec.page_fetch auth w urls j y))
     = true) ->
  Spec.page_record selectors url (Spec.page_fetch auth w urls i url) = Raise e ->
  exists recs s',
    PageParser.parse (PageParser.__init__ (UrlList urls) selectors auth) w
    = (Raise e, s',
       (w ++ map (Spec.request_for auth None) (firstn (Datatypes.S i) urls))%list)
    /\ PageParser.data s' = recs
    /\ List.length recs = i
    /\ (forall j y, (j < i)%nat -> nth_error urls j = Some y ->
          exists rec, nth_error recs j = Some rec
                      /\ Spec.page_record selectors y
                           (Spec.page_fetch auth w urls j y) = Ret rec).
Proof.
  intros Hi Hbefore Hraise.
  set (self := PageParser.__init__ (UrlList urls) selectors auth) in *.
  destruct (for_each_aborts PageParser.t string Pandas.row
              (fun s x => Spec.request_for (PageParser.auth s) None x)
              (fun s x o => Spec.page_record (PageParser.selectors s) x
                              (Spec.fetched PageParser.catches o))
              (fun rec s => PageParser.set_data
                              (PageParser.data s ++ [rec])%list s)
              PageParser.parse_url
              (fun x s w0 => page_parse_url_unfold x s w0)
              (fun _ _ _ => eq_refl) (fun _ _ _ _ => eq_refl)
              urls self w i url e Hi Hbefore Hraise)
    as (recs & Hrun & Hlen & Hnth).
  rewrite set_data_app in Hrun.
  exists recs, (PageParser.set_data (PageParser.data self ++ recs)%list self).
  split; [|split; [reflexivity | split; [exact Hlen | exact Hnth]]].
  rewrite page_parse_unfold. change (PageParser.urls self) with urls.
  rewrite Hrun. reflexivity.
Qed.

(** X6.  The two parsers part ways on a [ValueError] raised by the fetch:
    [PageParser] treats it like a transport failure and appends the empty
    row for the url, [CatalogParser] catches only [RequestException] and
    lets every other error leave [parse_url], writing nothing. *)
Theorem value_error_caught_by_page_parser_only
        (url : string) (c : CatalogParser.t) (p : PageParser.t)
        (w : list request) (e : exn) :
  (network w (Spec.request_for (PageParser.auth p) None url) = Raise e ->
   is_ValueError e = true ->
   PageParser.parse_url url p w
   = (Ret tt,
      PageParser.set_data
        (PageParser.data p ++ [Spec.empty_row (PageParser.selectors p) url])%list
        p,
      (w ++ [Spec.request_for (PageParser.auth p) None url])%list))
  /\
  (network w (Spec.request_for (CatalogParser.auth c) (Some 10) url) = Raise e ->
   is_RequestException e = false ->
   CatalogParser.parse_url url c w
   = (Raise e, c,
      (w ++ [Spec.request_for (CatalogParser.auth c) (Some 10) url])%list)).
Proof.
  split.
  - intros Hnet Hv. rewrite page_parse_url_unfold. cbn zeta. rewrite Hnet.
    cbn [Spec.fetched]. unfold PageParser.catches. rewrite Hv, orb_true_r.
    reflexivity.
  - intros Hnet Hr. rewrite catalog_parse_url_unfold. cbn zeta. rewrite Hnet.
    cbn [Spec.fetched]. rewrite Hr. reflexivity.
Qed.

End RunFacts.

Section TableFacts.
Import Py Requests Bs4.
Context {net : Network} {htm : Html} {opt : Pandas.Options}.

Lemma fill_row_keys (sp : soup) (items : dict string) :
  forall r r' : Pandas.row,
  PageParser.fill_row sp items r = Ret r' ->
  unique_keys items = true ->
  (forall k, In k (dict_keys items) -> ~ In k (dict_keys r)) ->
  dict_keys r' = (dict_keys r ++ dict_keys items)%list.
Proof.
  induction items as [|[col sel] items IH]; intros r r' Hf Hu Hfresh;
    cbn in Hf.
  - inversion Hf; subst. cbn. now rewrite app_nil_r.
  - destruct (select_one sp sel) as [el|e]; cbn in Hf; [|discriminate].
    cbn in Hu. apply andb_true_iff in Hu as [Hk Hu].
    apply negb_true_iff, mem_false_not_In in Hk.
    rewrite dict_set_fresh in Hf by (apply Hfresh; now left).
    rewrite (IH _ _ Hf Hu).
    + rewrite dict_keys_app. cbn. now rewrite <- app_assoc.
    + intros k Hin. rewrite dict_keys_app, in_app_iff. cbn.
      intros [Hd|[<-|[]]].
      * apply (Hfresh k); [now right | assumption].
      * contradiction.
Qed.

(** Every record, of a fetched page or not, has the same keys: [URL] and
    then the fields as declared. *)
Lemma page_record_keys (selectors : dict string) (url : string)
      (fetch : outcome (option response)) (rec : Pandas.row) :
  Spec.page_record selectors url fetch = Ret rec ->
  unique_keys selectors = true ->
  ~ In "URL" (dict_keys selectors) ->
  dict_keys rec = "URL" :: dict_keys selectors.
Proof.
  intros Hrec Hu Hn.
  assert (He : dict_keys (Spec.empty_row selectors url)
               = "URL" :: dict_keys selectors).
  { rewrite empty_row_null by assumption. unfold Spec.null_record.
    cbn. f_equal. apply null_keys. }
  unfold Spec.page_record in Hrec.
  destruct fetch as [[r|]|e]; cbn [obind] in Hrec; try discriminate.
  - destruct (negb (ok r)).
    + inversion Hrec; subst. exact He.
    + rewrite (fill_row_keys _ _ _ _ Hrec Hu); [reflexivity|].
      intros k Hin. cbn. intros [<-|[]]. contradiction.
  - inversion Hrec; subst. exact He.
Qed.

(** A column has no NaN when every record has its key. *)
Lemma column_no_nan (data : list Pandas.row) (col : string) :
  (forall rec, In rec data -> In col (dict_keys rec)) ->
  existsb Pandas.is_nan (Pandas.column_of data col) = false.
Proof.
  intros Hall. unfold Pandas.column_of.
  induction data as [|rec data IH]; cbn [map existsb]; [reflexivity|].
  rewrite IH by (intros rec' Hin; apply Hall; now right).
  destruct (dict_get_In_keys rec col (Hall rec (or_introl eq_refl))) as [v Hv].
  unfold Pandas.cell_of. now rewrite Hv.
Qed.

(** X7.  With distinct field names, none of them [URL], every table
    [PageParser.parse] returns from a fresh parser has the fields of the
    SelectorMap as its columns, in the order they were declared, and one
    row per url, whichever urls failed; every record has a value or [None]
    under every field, and its row has one cell per field, the value as
    pandas stores it.  No cell is NaN for want of a key: a cell is NaN only
    under [infer_string], the default of pandas 3, and only where the record
    has [None] in a field that holds a string in some record; without
    [infer_string], the default of pandas 2, no cell is NaN. *)
Theorem table_columns_are_the_fields
        (urls : list string) (selectors : dict string)
        (auth : option CNC1Auth.t) (w : list request)
        (df : Pandas.DataFrame) (s' : PageParser.t) (w' : list request) :
  PageParser.parse (PageParser.__init__ (UrlList urls) selectors auth) w
  = (Ret df, s', w') ->
  unique_keys selectors = true ->
  ~ In "URL" (dict_keys selectors) ->
  Pandas.columns df = dict_keys selectors
  /\ List.length (Pandas.rows df) = List.length urls
  /\ (forall i rec, nth_error (PageParser.data s') i = Some rec ->
        dict_keys rec = "URL" :: dict_keys selectors
        /\ nth_error (Pandas.rows df) i
           = Some (map (Pandas.stored (PageParser.data s') rec)
                       (dict_keys selectors)))
  /\ (forall row, In row (Pandas.rows df) ->
        List.length row = List.length selectors)
  /\ (forall i rec col,
        nth_error (PageParser.data s') i = Some rec ->
        In col (dict_keys selectors) ->
        Pandas.stored (PageParser.data s') rec col = Pandas.NaN ->
        Pandas.infer_string = true
        /\ dict_get rec col = Some None
        /\ exists rec' s, In rec' (PageParser.data s')
                          /\ dict_get rec' col = Some (Some s))
  /\ (Pandas.infer_string = false ->
      forall row, In row (Pandas.rows df) -> ~ In Pandas.NaN row).
Proof.
  intros Hparse Hu Hn.
  destruct (page_parse_returned _ _ _ _ _ Hparse)
    as (recs & Hs & Hw & Hlen & Hnth & Hdf).
  cbn [PageParser.__init__ PageParser.data PageParser.urls as_list
       PageParser.selectors PageParser.auth app] in *.
  assert (Hdata : PageParser.data s' = recs) by (subst s'; reflexivity).
  assert (Hkeys : forall rec, In rec recs ->
                    dict_keys rec = "URL" :: dict_keys selectors).
  { intros rec Hin. apply In_nth_error in Hin as [i Hi].
    assert (Hlt : (i < List.length urls)%nat).
    { rewrite <- Hlen. apply nth_error_Some. congruence. }
    destruct (nth_error urls i) as [url|] eqn:Hu';
      [|apply nth_error_None in Hu'; lia].
    destruct (Hnth i url Hu') as (rec' & Hrec' & Hpr).
    rewrite Hi in Hrec'. inversion Hrec'; subst rec'.
    eapply page_record_keys; eassumption. }
  assert (Hhas : forall col, In col (dict_keys selectors) ->
                   forall rec, In rec recs -> In col (dict_keys rec)).
  { intros col Hcol rec Hrec. rewrite (Hkeys rec Hrec). now right. }
  rewrite Hdata. clear Hs Hdata.
  destruct recs as [|r recs]; [cbn in Hdf; discriminate|].
  assert (Hcols : Pandas.columns_of (r :: recs) = "URL" :: dict_keys selectors).
  { apply columns_of_same_keys.
    - constructor; [exact Hn | now apply unique_keys_NoDup].
    - apply Hkeys. now left.
    - intros r' Hin. apply Hkeys. now right. }
  set (data := (r :: recs) : list Pandas.row) in *.
  assert (Hrows : Pandas.rows df
                  = map (fun rec => map (Pandas.stored data rec)
                                        (dict_keys selectors)) data
                  /\ Pandas.columns df = dict_keys selectors).
  { unfold Pandas.set_index, Pandas.from_records in Hdf.
    cbn [Pandas.columns Pandas.rows] in Hdf. rewrite Hcols in Hdf.
    cbn [Pandas.position String.eqb Ascii.eqb Bool.eqb] in Hdf.
    inversion Hdf; subst df. cbn [Pandas.columns Pandas.rows].
    split; [|reflexivity]. rewrite map_map. reflexivity. }
  destruct Hrows as [Hrows Hcolumns]. rewrite Hrows.
  split; [exact Hcolumns|]. split; [now rewrite length_map|].
  split; [|split; [|split]].
  - intros i rec Hi. split.
    + apply Hkeys. eapply nth_error_In; eassumption.
    + unfold PageParser.row in *. now rewrite nth_error_map, Hi.
  - intros row Hin. apply in_map_iff in Hin as (rec & <- & _).
    unfold dict_keys. now rewrite !length_map.
  - intros i rec col Hi Hcol Hnan.
    assert (Hrec : In rec data) by (eapply nth_error_In; eassumption).
    destruct (dict_get_In_keys rec col (Hhas col Hcol rec Hrec)) as [v Hv].
    unfold Pandas.stored, Pandas.store, Pandas.cell_of in Hnan.
    rewrite Hv in Hnan. destruct v as [s|]; [discriminate|].
    unfold Pandas.none_as_nan in Hnan.
    rewrite (column_no_nan data col (Hhas col Hcol)) in Hnan.
    destruct (existsb Pandas.is_str (Pandas.column_of data col)) eqn:Hstr;
      [|discriminate].
    destruct Pandas.infer_string; [|discriminate].
    split; [reflexivity|]. split; [exact Hv|].
    apply existsb_exists in Hstr as (c & Hc & Hcs).
    unfold Pandas.column_of in Hc. apply in_map_iff in Hc as (rec' & <- & Hin').
    unfold Pandas.cell_of in Hcs.
    destruct (dict_get rec' col) as [[s|]|] eqn:Hg; try discriminate.
    exists rec', s. auto.
  - intros Hopt row Hin Hnan.
    apply in_map_iff in Hin as (rec & <- & Hrec).
    apply in_map_iff in Hnan as (col & Hcell & Hcol).
    rewrite (stored_none_object data rec col Hopt
               (column_no_nan data col (Hhas col Hcol))) in Hcell.
    destruct (dict_get_In_keys rec col (Hhas col Hcol rec Hrec)) as [v Hv].
    unfold Pandas.cell_of in Hcell. rewrite Hv in Hcell. discriminate.
Qed.

(** X8.  [parse] does not reset [self.data]: the table it returns has the
    rows the object held before the call followed by one row per url, so a
    second [parse] on the same object returns the rows of the first run and
    then the rows of the second. *)
Theorem parse_keeps_earlier_rows
        (self : PageParser.t) (w : list request)
        (df : Pandas.DataFrame) (s' : PageParser.t) (w' : list request) :
  PageParser.parse self w = (Ret df, s', w') ->
  List.length (Pandas.rows df)
  = (List.length (PageParser.data self)
     + List.length (PageParser.urls self))%nat
  /\ firstn (List.length (PageParser.data self)) (PageParser.data s')
     = PageParser.data self
  /\ PageParser.urls s' = PageParser.urls self
  /\ PageParser.selectors s' = PageParser.selectors self
  /\ PageParser.auth s' = PageParser.auth self.
Proof.
  intros Hparse.
  destruct (page_parse_returned _ _ _ _ _ Hparse)
    as (recs & Hs & Hw & Hlen & Hnth & Hdf).
  subst s'. cbn [PageParser.set_data PageParser.data PageParser.urls
                 PageParser.selectors PageParser.auth].
  repeat split.
  - rewrite (set_index_length _ _ _ Hdf). unfold Pandas.from_records.
    cbn [Pandas.rows]. rewrite length_map, length_app. lia.
  - rewrite firstn_app, Nat.sub_diag, firstn_all. cbn. apply app_nil_r.
Qed.

End TableFacts.

(* ===================================================================== *)
(** ** ConfigReader                                                      *)
(* ===================================================================== *)

Section ConfigFacts.
Import Py ConfigReader.

(** X9.  [get_auth_credentials] reads the password from the key [pass] of
    the [auth] section and never from a key [password]: writing [pass]
    changes the password returned, writing [password] changes nothing; the
    email is read from [email], and a key that is missing gives the empty
    string. *)
Theorem credentials_read_pass_not_password
        (path : string) (d a : dict json) (v : json) :
  let reader := fun section =>
    {| config_path := path;
       config_data := JDict (dict_set d "auth" (JDict section)) |} in
  let email := match dict_get a "email" with Some x => x | None => JStr "" end in
  get_auth_credentials (reader (dict_set a "password" v))
  = get_auth_credentials (reader a)
  /\ get_auth_credentials (reader (dict_set a "pass" v))
     = Ret [("email", email); ("password", v)]
  /\ get_auth_credentials (reader [])
     = Ret [("email", JStr ""); ("password", JStr "")].
Proof.
  cbv zeta. unfold get_auth_credentials, py_get. cbn [config_data obind].
  repeat (first [ rewrite dict_get_set_same
                | rewrite dict_get_set_other by discriminate ];
          cbn [obind]).
  repeat split.
Qed.

(** X10.  On a file that holds an object, a getter raises exactly when the
    section it reads is present and is not an object, [get_settings] never;
    a missing section gives the defaults: empty credentials, the empty link
    selector, no selectors, no settings.  On a file that holds anything
    else all four raise.  The only error any of them raises is
    [AttributeError], never [KeyError]. *)
Theorem getters_raise_only_on_non_objects (self : t) :
  (forall d, config_data self = JDict d ->
     returns (get_auth_credentials self) = section_ok d "auth"
     /\ returns (get_link_selector self) = section_ok d "settings"
     /\ returns (get_selectors self) = section_ok d "settings"
     /\ returns (get_settings self) = true
     /\ (dict_get d "auth" = None ->
         get_auth_credentials self
         = Ret [("email", JStr ""); ("password", JStr "")])
     /\ (dict_get d "settings" = None ->
         get_link_selector self = Ret (JStr "")
         /\ get_selectors self = Ret (JDict [])
         /\ get_settings self = Ret (JDict [])))
  /\ ((forall d, config_data self <> JDict d) ->
      get_auth_credentials self = Raise AttributeError
      /\ get_link_selector self = Raise AttributeError
      /\ get_selectors self = Raise AttributeError
      /\ get_settings self = Raise AttributeError)
  /\ (forall e,
        get_auth_credentials self = Raise e \/ get_link_selector self = Raise e
        \/ get_selectors self = Raise e \/ get_settings self = Raise e ->
        e = AttributeError).
Proof.
  unfold get_auth_credentials, get_link_selector, get_selectors, get_settings,
    section_ok.
  destruct self as [path data]. cbn [config_data]. split; [|split].
  - intros d ->. cbn [py_get obind].
    destruct (dict_get d "auth") as [[| | | | |]|];
      destruct (dict_get d "settings") as [[| | | | |]|];
      cbn; repeat split; intros; try discriminate; reflexivity.
  - intros Hno. destruct data; cbn; auto. exfalso. now apply (Hno items).
  - intros e. destruct data as [| | | | |d]; cbn;
      try (intros [H|[H|[H|H]]]; inversion H; reflexivity).
    destruct (dict_get d "auth") as [[| | | | |]|];
      destruct (dict_get d "settings") as [[| | | | |]|];
      cbn; intros [H|[H|[H|H]]]; inversion H; reflexivity.
Qed.

End ConfigFacts.

(* ===================================================================== *)
(** ** InputManager                                                      *)
(* ===================================================================== *)

Section StringFacts.
Import Py.

Lemma prefix_app (p s t : string) :
  String.prefix p s = true -> String.prefix p (s ++ t) = true.
Proof.
  revert p. induction s as [|c s IH]; intros p H.
  - destruct p; [destruct t; reflexivity | discriminate].
  - destruct p as [|a p]; [reflexivity|]. cbn in *.
    destruct (ascii_dec a c); [now apply IH | discriminate].
Qed.

Lemma contains_app_l (n a b : string) :
  contains n a = true -> contains n (a ++ b) = true.
Proof.
  induction a as [|c a IH]; cbn [contains]; intros H.
  - destruct (String.prefix n "") eqn:Hp; [|discriminate].
    change ("" ++ b) with b. destruct n; [|discriminate].
    destruct b; reflexivity.
  - destruct (String.prefix n (String c a)) eqn:Hp.
    + change (String c a ++ b) with (String c (a ++ b)). cbn [contains].
      change (String c (a ++ b)) with (String c a ++ b).
      now rewrite (prefix_app _ _ b Hp).
    + change (String c a ++ b) with (String c (a ++ b)). cbn [contains].
      rewrite (IH H). now destruct (String.prefix n (String c (a ++ b))).
Qed.

Lemma contains_app_r (n a b : string) :
  contains n b = true -> contains n (a ++ b) = true.
Proof.
  intros H. induction a as [|c a IH]; [exact H|].
  change (String c a ++ b) with (String c (a ++ b)). cbn [contains].
  rewrite IH. now destruct (String.prefix n (String c (a ++ b))).
Qed.

Lemma contains_self (n : string) : contains n n = true.
Proof.
  assert (Hp : String.prefix n n = true).
  { induction n as [|c n IH]; cbn; [reflexivity|].
    destruct (ascii_dec c c); [exact IH | contradiction]. }
  destruct n; cbn [contains]; now rewrite Hp.
Qed.

End StringFacts.

Section InputFacts.
Import Py InputManager.

Lemma validate_spec (link_type : string) (urls : list string) :
  validate link_type urls
  = (map (with_showall link_type) (filter is_http urls),
     map warning_text (filter (fun u => negb (is_http u)) urls)).
Proof.
  induction urls as [|u urls IH]; cbn [validate filter map]; [reflexivity|].
  rewrite IH. destruct (is_http u); reflexivity.
Qed.

(** The shortcut for an empty text area agrees with the loops. *)
Lemma get_urls_validate (link_type url_input : string) :
  get_urls link_type url_input = validate link_type (entries url_input).
Proof.
  unfold get_urls. destruct url_input; reflexivity.
Qed.

Lemma with_showall_keeps_http (link_type url : string) :
  is_http url = true -> is_http (with_showall link_type url) = true.
Proof.
  intros H. unfold with_showall.
  destruct (String.eqb link_type CATALOG); [|exact H].
  destruct (contains "?" url);
    [destruct (negb (contains SHOWALL url)); [|exact H]|];
    unfold is_http in *; apply orb_true_iff in H; apply orb_true_iff;
    (destruct H as [H|H]; [left|right]; now apply prefix_app).
Qed.

Lemma with_showall_marked (url : string) :
  contains SHOWALL (with_showall CATALOG url) = true
  /\ contains "?" (with_showall CATALOG url) = true.
Proof.
  unfold with_showall. rewrite String.eqb_refl.
  destruct (contains "?" url) eqn:Hq.
  - destruct (contains SHOWALL url) eqn:Hs; cbn [negb].
    + now split.
    + split.
      * apply contains_app_r, contains_app_r, contains_self.
      * now apply contains_app_l.
  - split.
    + apply contains_app_r, contains_app_r, contains_self.
    + apply contains_app_r, contains_app_l. reflexivity.
Qed.

Lemma with_showall_idem (url : string) :
  with_showall CATALOG (with_showall CATALOG url) = with_showall CATALOG url.
Proof.
  destruct (with_showall_marked url) as [Hs Hq].
  unfold with_showall at 1. now rewrite String.eqb_refl, Hq, Hs.
Qed.

Lemma validate_fixed (link_type : string) (l : list string) :
  (forall u, In u l -> is_http u = true /\ with_showall link_type u = u) ->
  validate link_type l = (l, []).
Proof.
  induction l as [|u l IH]; intros H; [reflexivity|].
  cbn [validate]. rewrite IH by (intros u' Hu'; apply H; now right).
  destruct (H u (or_introl eq_refl)) as [Hh Hw]. now rewrite Hh, Hw.
Qed.


(** X11.  Every url [get_urls] returns starts with http:// or https://, in
    either mode and for every text entered. *)
Theorem get_urls_returns_http_urls (link_type url_input u : string) :
  In u (fst (get_urls link_type url_input)) ->
  String.prefix "http://" u = true \/ String.prefix "https://" u = true.
Proof.
  rewrite get_urls_validate, validate_spec. cbn [fst]. intros H.
  apply in_map_iff in H as (e & <- & He). apply filter_In in He as [_ He].
  apply orb_true_iff. now apply with_showall_keeps_http.
Qed.

(** X12.  In catalog mode every url [get_urls] returns has a query part that
    carries SHOWALL_1=1, and it is the entry as typed or the entry followed
    by ?SHOWALL_1=1 or &SHOWALL_1=1.  Validating the returned urls again
    returns them unchanged and warns about none: the marker is never added
    twice. *)
Theorem get_urls_catalog_marks_once (url_input : string) :
  let valid := fst (get_urls CATALOG url_input) in
  (forall u, In u valid ->
     contains SHOWALL u = true /\ contains "?" u = true
     /\ exists e, In e (entries url_input)
                  /\ (u = e \/ u = e ++ "?" ++ SHOWALL \/ u = e ++ "&" ++ SHOWALL))
  /\ validate CATALOG valid = (valid, []).
Proof.
  cbv zeta. rewrite get_urls_validate, validate_spec. cbn [fst]. split.
  - intros u H. apply in_map_iff in H as (e & <- & He).
    apply filter_In in He as [Hin He].
    destruct (with_showall_marked e) as [Hs Hq]. repeat split; auto.
    exists e. split; [exact Hin|]. unfold with_showall.
    rewrite String.eqb_refl.
    destruct (contains "?" e); [destruct (negb (contains SHOWALL e))|]; auto.
  - apply validate_fixed. intros u H. apply in_map_iff in H as (e & <- & He).
    apply filter_In in He as [_ He]. split.
    + now apply with_showall_keeps_http.
    + apply with_showall_idem.
Qed.


End InputFacts.

(* ===================================================================== *)
(** ** More on AuthSession                                               *)
(* ===================================================================== *)

Section MoreAuthFacts.
Import Py Requests.
Context {net : Network}.

(** X1.  The headers an authenticated [get] hands to [session.get] are the
    dict of the caller with one key set by default: [User-Agent], in
    exactly this spelling, holds the caller's value if the dict has that
    key and the browser User-Agent of the class otherwise.  Every other
    key, another spelling of it such as [user-agent] included, is handed on
    as the caller gave it, so that a caller's [user-agent] is handed to
    [session.get] beside the [User-Agent] of the class; the Referer,
    Content-Type and X-Requested-With that [login] sends are not added, and
    the timeout is the caller's.  A caller that passes [headers=None] makes
    [get] raise [AttributeError], and no call is sent. *)
Theorem get_keeps_caller_headers
        (url : string) (kw : CNC1Auth.kwargs)
        (self : CNC1Auth.t) (w : list request) :
  CNC1Auth.is_authenticated self = true ->
  (forall passed,
     CNC1Auth.pop_headers kw = Some passed ->
     exists rq,
       snd (CNC1Auth.get url kw self w) = (w ++ [rq])%list
       /\ r_url rq = url
       /\ r_timeout rq = CNC1Auth.kw_timeout kw
       /\ dict_get (r_headers rq) "User-Agent"
          = Some (match dict_get passed "User-Agent" with
                  | Some ua => ua
                  | None => CNC1Auth.USER_AGENT
                  end)
       /\ (forall k, k <> "User-Agent" ->
                     dict_get (r_headers rq) k = dict_get passed k))
  /\ (CNC1Auth.pop_headers kw = None ->
      CNC1Auth.get url kw self w = (Raise AttributeError, self, w)).
Proof.
  unfold CNC1Auth.is_authenticated. intros Ha.
  rewrite get_unfold, Ha. split.
  - intros passed Hp. rewrite Hp.
    exists (Spec.get_request url kw). split; [|split; [|split; [|split]]].
    + destruct (network w (Spec.get_request url kw)); reflexivity.
    + reflexivity.
    + reflexivity.
    + cbn [Spec.get_request r_headers]. rewrite Hp.
      unfold dict_setdefault, dict_has.
      destruct (dict_get passed "User-Agent") as [ua|] eqn:Hua.
      * exact Hua.
      * apply dict_get_set_same.
    + intros k Hk. cbn [Spec.get_request r_headers]. rewrite Hp.
      unfold dict_setdefault. destruct (dict_has passed "User-Agent");
        [reflexivity | now apply dict_get_set_other].
  - intros Hp. now rewrite Hp.
Qed.

(** [get] returns [None] exactly when the object is unauthenticated:
    once authenticated it returns the response or raises, so [None] never
    stands for a failed request. *)
Lemma get_none_iff_unauthenticated
        (url : string) (kw : CNC1Auth.kwargs)
        (self : CNC1Auth.t) (w : list request) :
  fst (fst (CNC1Auth.get url kw self w)) = Ret None
  <-> CNC1Auth.is_authenticated self = false.
Proof.
  unfold CNC1Auth.is_authenticated. rewrite get_unfold.
  destruct (CNC1Auth._is_authenticated self).
  - destruct (CNC1Auth.pop_headers kw);
      [destruct (network w (Spec.get_request url kw))|]; cbn;
      split; discriminate.
  - split; reflexivity.
Qed.

(** X2.  Only [login] can authenticate and only [login] and an
    authenticated [get] reach the network: any sequence of calls without a
    [login] leaves an unauthenticated object exactly as it was and sends
    nothing. *)
Theorem no_login_no_network
        (ops : list CNC1Auth.op) (self : CNC1Auth.t) (w : list request) :
  CNC1Auth.is_authenticated self = false ->
  (forall o, In o ops -> o <> CNC1Auth.Login) ->
  CNC1Auth.run ops self w = (self, w).
Proof.
  unfold CNC1Auth.is_authenticated. intros Ha.
  induction ops as [|o ops IH]; intros Hno; [reflexivity|].
  cbn [CNC1Auth.run].
  assert (Hstep : CNC1Auth.step o self w = (self, w)).
  { destruct o as [|url kw| |]; unfold CNC1Auth.step; try reflexivity.
    - exfalso. now apply (Hno CNC1Auth.Login (or_introl eq_refl)).
    - rewrite get_unfold, Ha. reflexivity. }
  rewrite Hstep. apply IH. intros o' Ho'. apply Hno. now right.
Qed.

End MoreAuthFacts.

(* ===================================================================== *)
(** ** The interface: logger and article numbers                         *)
(* ===================================================================== *)

Section LoggerFacts.
Import Py StreamlitLogger.
Context {txt : PyText}.

Lemma last_n_length {A} (n : nat) (l : list A) :
  List.length (last_n n l) = Nat.min n (List.length l).
Proof. unfold last_n. rewrite length_skipn. lia. Qed.

Lemma log_all_logs (msgs : list (string * string)) : forall s,
  logs (fold_left (fun acc m => log (fst m) (snd m) acc) msgs s)
  = (logs s
     ++ map (fun m => ("[" ++ str_upper (snd m) ++ "] " ++ fst m)%string) msgs)%list.
Proof.
  induction msgs as [|m msgs IH]; intros s; cbn [fold_left map].
  - now rewrite app_nil_r.
  - rewrite IH. cbn [log logs]. now rewrite <- app_assoc.
Qed.

(** X14.  After [clear] the logger keeps every entry logged, in order, each
    as its level in upper case in brackets followed by the message, while
    the container shows only the last twenty of them, all of them when
    there are fewer, and nothing when none was logged. *)
Theorem logger_shows_last_twenty
        (msgs : list (string * string)) (self : t) :
  let s := fold_left (fun acc m => log (fst m) (snd m) acc) msgs (clear self) in
  logs s = map (fun m => "[" ++ str_upper (snd m) ++ "] " ++ fst m) msgs
  /\ (msgs = [] -> log_container s = None)
  /\ (msgs <> [] ->
      exists older shown,
        logs s = (older ++ shown)%list
        /\ List.length shown = Nat.min 20 (List.length msgs)
        /\ log_container s = Some (join_lines newline shown)).
Proof.
  cbv zeta. split; [|split].
  - rewrite log_all_logs. reflexivity.
  - intros ->. reflexivity.
  - intros Hne.
    destruct (exists_last Hne) as (pre & m & ->).
    rewrite fold_left_app. cbn [fold_left].
    set (s0 := fold_left (fun acc m0 => log (fst m0) (snd m0) acc) pre
                         (clear self)).
    set (all := (logs s0
                 ++ [("[" ++ str_upper (snd m) ++ "] " ++ fst m)%string])%list).
    exists (firstn (List.length all - 20) all), (last_n 20 all).
    split; [|split].
    + unfold last_n. now rewrite firstn_skipn.
    + rewrite last_n_length. unfold all, s0.
      rewrite log_all_logs. cbn [clear logs app].
      rewrite !length_app, !length_map. reflexivity.
    + reflexivity.
Qed.

End LoggerFacts.

Section ArticleFacts.
Import Py WebInterface.

Lemma update_nth_length {A} (f : A -> A) (l : list A) : forall i,
  List.length (update_nth i f l) = List.length l.
Proof.
  induction l as [|x l IH]; intros [|i]; cbn; auto.
Qed.

Lemma update_nth_spec {A} (f : A -> A) (l : list A) : forall i j,
  nth_error (update_nth i f l) j
  = if Nat.eqb j i then option_map f (nth_error l j) else nth_error l j.
Proof.
  induction l as [|x l IH]; intros [|i] [|j]; cbn; auto;
    now destruct (Nat.eqb j i).
Qed.

(** X15.  [_normalize_article] leaves the index, the column labels and the
    shape of the frame as they are and changes cells of the column
    [Артикул] only: there a non-empty string gets the prefix 123-, while an
    empty string, [None] and NaN stay as they are.  A frame without that
    column comes back unchanged. *)
Theorem normalize_touches_only_article_cells (d : Pandas.DataFrame) :
  let d' := _normalize_article d in
  Pandas.index d' = Pandas.index d
  /\ Pandas.columns d' = Pandas.columns d
  /\ List.length (Pandas.rows d') = List.length (Pandas.rows d)
  /\ (forall i row, nth_error (Pandas.rows d) i = Some row ->
        exists row',
          nth_error (Pandas.rows d') i = Some row'
          /\ List.length row' = List.length row
          /\ forall j cell, nth_error row j = Some cell ->
               nth_error row' j
               = Some (if match Pandas.position ARTICLE (Pandas.columns d) with
                          | Some p => Nat.eqb j p
                          | None => false
                          end
                       then prefix_article cell else cell))
  /\ (mem ARTICLE (Pandas.columns d) = false -> d' = d)
  /\ (forall s, s <> "" ->
        prefix_article (Pandas.Value (Some s))
        = Pandas.Value (Some ("123-" ++ s)))
  /\ prefix_article (Pandas.Value (Some "")) = Pandas.Value (Some "")
  /\ prefix_article (Pandas.Value None) = Pandas.Value None
  /\ prefix_article Pandas.NaN = Pandas.NaN.
Proof.
  cbv zeta.
  assert (Hsame : forall i row, nth_error (Pandas.rows d) i = Some row ->
            exists row', nth_error (Pandas.rows d) i = Some row'
              /\ List.length row' = List.length row
              /\ forall j cell, nth_error row j = Some cell ->
                   nth_error row' j = Some cell).
  { intros i row Hi. exists row. auto. }
  assert (Hpos : mem ARTICLE (Pandas.columns d) = false ->
                 Pandas.position ARTICLE (Pandas.columns d) = None).
  { generalize (Pandas.columns d). intros cols. unfold mem.
    induction cols as [|c cols IH]; cbn [existsb Pandas.position];
      [reflexivity|].
    rewrite (String.eqb_sym ARTICLE c).
    destruct (String.eqb c ARTICLE); cbn [orb option_map]; [discriminate|].
    intros H. now rewrite IH. }
  repeat split;
    try (intros s Hs; destruct s; [contradiction | reflexivity]).
  - unfold _normalize_article.
    destruct (negb (frame_empty d) && mem ARTICLE (Pandas.columns d));
      [destruct (Pandas.position ARTICLE (Pandas.columns d))|]; reflexivity.
  - unfold _normalize_article.
    destruct (negb (frame_empty d) && mem ARTICLE (Pandas.columns d));
      [destruct (Pandas.position ARTICLE (Pandas.columns d))|]; reflexivity.
  - unfold _normalize_article.
    destruct (negb (frame_empty d) && mem ARTICLE (Pandas.columns d));
      [destruct (Pandas.position ARTICLE (Pandas.columns d))|];
      cbn [Pandas.rows]; try reflexivity. apply length_map.
  - intros i row Hi. unfold _normalize_article.
    destruct (frame_empty d) eqn:He; cbn [negb andb].
    + (* no rows or no columns *)
      exists row. split; [exact Hi|]. split; [reflexivity|].
      intros j cell Hj. rewrite Hj. f_equal.
      unfold frame_empty in He. apply orb_true_iff in He as [He|He];
        apply Nat.eqb_eq in He.
      * destruct (Pandas.rows d); [destruct i; discriminate | discriminate].
      * destruct (Pandas.columns d); [reflexivity | discriminate].
    + destruct (mem ARTICLE (Pandas.columns d)) eqn:Hm.
      * destruct (Pandas.position ARTICLE (Pandas.columns d)) as [p|] eqn:Hp.
        -- cbn [Pandas.rows]. exists (update_nth p prefix_article row).
           split; [now rewrite nth_error_map, Hi|].
           split; [apply update_nth_length|].
           intros j cell Hj. rewrite update_nth_spec, Hj.
           now destruct (Nat.eqb j p).
        -- exists row. auto.
      * rewrite (Hpos eq_refl). exists row. auto.
  - intros Hm. unfold _normalize_article. rewrite Hm.
    now rewrite andb_false_r.
Qed.

End ArticleFacts.

(* ===================================================================== *)
(** ** The interface: login at start-up and the start button             *)
(* ===================================================================== *)

Section InterfaceFacts.
Import Py Requests Bs4 WebInterface.
Context {net : Network} {htm : Html} {opt : Pandas.Options} {txt : PyText}.

(** [_init_auth] in one equation. *)
Lemma init_auth_unfold (self : t) (w : list request) :
  _init_auth self w =
  match get_auth_credentials (config self) with
  | Raise e => (Ret None, add_error (INIT_FAILED ++ exn_str e) self, w)
  | Ret (email, pw) =>
    if truthy email && truthy pw then
      let a := CNC1Auth.__init__ email pw in
      match network w (Spec.login_request a) with
      | Ret resp =>
        if Spec.login_accepts resp
        then (Ret (Some (CNC1Auth.set_authenticated true a)), self,
              (w ++ [Spec.login_request a])%list)
        else (Ret None, add_error LOGIN_FAILED self,
              (w ++ [Spec.login_request a])%list)
      | Raise ex =>
        (Ret None, add_error (INIT_FAILED ++ exn_str ex) self,
         (w ++ [Spec.login_request a])%list)
      end
    else (Ret None, self, w)
  end.
Proof.
  unfold _init_auth, try_except_as, bind, get_self, lift, on_local, st_error,
    ret.
  destruct (get_auth_credentials (config self)) as [[email pw]|e];
    cbn [fst snd]; [|reflexivity].
  destruct (truthy email && truthy pw); [|reflexivity].
  rewrite login_unfold. cbn zeta.
  destruct (network w (Spec.login_request (CNC1Auth.__init__ email pw)))
    as [resp|ex]; [|reflexivity].
  destruct (Spec.login_accepts resp); reflexivity.
Qed.

Lemma truthy_false (s : string) : truthy s = false <-> s = "".
Proof.
  destruct s; cbn; split; intros H; try reflexivity; discriminate H.
Qed.

(** One case of the statement below: the result is known, every part of
    the statement follows by reading it. *)
Ltac init_auth_case :=
  eexists _, _, _; split; [reflexivity|];
  do 4 (split; [reflexivity|]);
  split; [|split; [|split]];
  [ intros a0 Ha0;
    first [ discriminate Ha0
          | inversion Ha0; subst; repeat split; reflexivity ]
  | intros e0 p0 H0 Hor;
    first [ discriminate H0
          | inversion H0; subst;
            first [ repeat split; reflexivity
                  | destruct Hor; congruence ] ]
  | intros e0 p0 H0 H1 H2;
    first [ discriminate H0
          | inversion H0; subst;
            first [ congruence
                  | split; [reflexivity|];
                    first [ discriminate
                          | intros _; eexists; split; [reflexivity|];
                            first [ left; reflexivity
                                  | right; eexists; reflexivity ] ] ] ]
  | intros e0 H0;
    first [ discriminate H0
          | inversion H0; subst; repeat split; reflexivity ] ].

(** X16.  [_init_auth] never raises, whatever the configuration and the
    network do.  It returns an auth object only when [login] returned true,
    and that object is authenticated; with an empty email or password it
    sends no call and shows no message; in every other case it returns
    [None] after exactly one message: the one for refused credentials when
    [login] returned false, the one carrying the text of the exception when
    reading the credentials or [login] raised.  At most one call is sent,
    the POST of [login]. *)
Theorem init_auth_never_raises (self : t) (w : list request) :
  exists r s' w',
    _init_auth self w = (Ret r, s', w')
    /\ config s' = config self /\ auth s' = auth self
    /\ logger s' = logger self /\ session_state s' = session_state self
    /\ (forall a, r = Some a ->
          CNC1Auth.is_authenticated a = true
          /\ s' = self
          /\ w' = (w ++ [Spec.login_request a])%list)
    /\ (forall email pw,
          get_auth_credentials (config self) = Ret (email, pw) ->
          email = "" \/ pw = "" ->
          r = None /\ s' = self /\ w' = w)
    /\ (forall email pw,
          get_auth_credentials (config self) = Ret (email, pw) ->
          email <> "" -> pw <> "" ->
          w' = (w ++ [Spec.login_request (CNC1Auth.__init__ email pw)])%list
          /\ (r = None ->
              exists text, st_errors s' = (st_errors self ++ [text])%list
                /\ (text = LOGIN_FAILED
                    \/ exists e, text = (INIT_FAILED ++ exn_str e)%string)))
    /\ (forall e, get_auth_credentials (config self) = Raise e ->
          r = None /\ w' = w
          /\ st_errors s'
             = (st_errors self ++ [(INIT_FAILED ++ exn_str e)%string])%list).
Proof.
  rewrite init_auth_unfold.
  destruct (get_auth_credentials (config self)) as [[email pw]|e].
  - destruct (truthy email) eqn:He; [destruct (truthy pw) eqn:Hp|];
      cbn [andb].
    + assert (Hne : email <> "") by (intros ->; discriminate).
      assert (Hnp : pw <> "") by (intros ->; discriminate).
      cbn zeta.
      destruct (network w (Spec.login_request (CNC1Auth.__init__ email pw)))
        as [resp|ex]; [destruct (Spec.login_accepts resp)|];
        init_auth_case.
    + apply truthy_false in Hp. init_auth_case.
    + apply truthy_false in He. init_auth_case.
  - init_auth_case.
Qed.

(** The text [_parse_catalog] logs for a category. *)
Lemma log_categories_spec (items : list (string * list string)) :
  forall product_urls s w,
  log_categories items product_urls s w
  = (Ret (product_urls ++ concat (map snd items))%list,
     set_logger
       (fold_left
          (fun lg kv =>
             StreamlitLogger.log
               ("Категория '" ++ fst kv ++ "': "
                ++ str_nat (List.length (snd kv)) ++ " товаров") "info" lg)
          items (logger s)) s,
     w).
Proof.
  induction items as [|[category urls] items IH]; intros product_urls s w.
  - cbn. rewrite app_nil_r. now destruct s.
  - cbn [log_categories]. unfold bind at 1, log at 1. rewrite IH.
    cbn [map concat fold_left fst snd set_logger logger config auth
         session_state st_errors].
    now rewrite <- app_assoc.
Qed.

Lemma category_logs (items : list (string * list string)) :
  forall lg,
  StreamlitLogger.logs
    (fold_left
       (fun lg0 kv =>
          StreamlitLogger.log
            ("Категория '" ++ fst kv ++ "': "
             ++ str_nat (List.length (snd kv)) ++ " товаров") "info" lg0)
       items lg)
  = (StreamlitLogger.logs lg
     ++ map (fun kv =>
               ("[" ++ str_upper "info" ++ "] Категория '" ++ fst kv
                ++ "': " ++ str_nat (List.length (snd kv))
                ++ " товаров")%string) items)%list.
Proof.
  induction items as [|kv items IH]; intros lg; cbn [fold_left map].
  - now rewrite app_nil_r.
  - rewrite IH. cbn [StreamlitLogger.log StreamlitLogger.logs].
    now rewrite <- app_assoc.
Qed.

(** [CatalogParser.parse], when it returns, has sent one call per url. *)
Lemma catalog_parse_calls (self : CatalogParser.t) (w : list request)
      (res : dict (list string)) (s' : CatalogParser.t) (w' : list request) :
  CatalogParser.parse self w = (Ret res, s', w') ->
  w' = (w ++ map (Spec.request_for (CatalogParser.auth self) (Some 10))
                 (CatalogParser.urls self))%list.
Proof.
  intros Hparse. rewrite catalog_parse_unfold in Hparse.
  destruct (for_each (CatalogParser.urls self) CatalogParser.parse_url self w)
    as [[[u|e] s1] w1] eqn:Hloop; [|discriminate].
  pose proof (catalog_loop_inv _ self w u s1 w1 Hloop) as Hret.
  destruct (catalog_loop _ self w Hret) as (entries & Hrun & _).
  rewrite Hrun in Hloop. inversion Hloop; subst. now inversion Hparse.
Qed.

(** What [_parse_catalog] makes of each way [CatalogParser.parse] can end. *)
Lemma parse_catalog_flattens_helper
        (urls : list string) (self : t) (w : list request) :
  (forall ls res p' w',
     get_link_selector (config self) = Ret ls ->
     CatalogParser.parse (CatalogParser.__init__ (UrlList urls) ls (auth self)) w
     = (Ret res, p', w') ->
     exists s',
       _parse_catalog urls self w = (Ret (concat (map snd res)), s', w')
       /\ config s' = config self /\ auth s' = auth self
       /\ session_state s' = session_state self
       /\ st_errors s' = st_errors self
       /\ StreamlitLogger.logs (logger s')
          = (StreamlitLogger.logs (logger self)
             ++ map (fun kv =>
                       ("[" ++ str_upper "info" ++ "] Категория '" ++ fst kv
                        ++ "': " ++ str_nat (List.length (snd kv))
                        ++ " товаров")%string) res)%list)
  /\ (forall ls e p' w',
        get_link_selector (config self) = Ret ls ->
        CatalogParser.parse
          (CatalogParser.__init__ (UrlList urls) ls (auth self)) w
        = (Raise e, p', w') ->
        _parse_catalog urls self w = (Raise e, self, w'))
  /\ (forall e, get_link_selector (config self) = Raise e ->
                _parse_catalog urls self w = (Raise e, self, w)).
Proof.
  unfold _parse_catalog, bind, get_self, lift, on_local.
  split; [|split].
  - intros ls res p' w' Hls Hparse. rewrite Hls, Hparse. cbn [fst].
    rewrite log_categories_spec. cbn [app].
    eexists. split; [reflexivity|].
    cbn [set_logger config auth session_state st_errors logger].
    repeat split. apply category_logs.
  - intros ls e p' w' Hls Hparse. now rewrite Hls, Hparse.
  - intros e Hls. now rewrite Hls.
Qed.


(** X17.  [_parse_catalog] hands on what [CatalogParser.parse] does: when
    [parse] returns the mapping, the product urls are the link lists of its
    categories one after the other, in the order of the keys and with
    repetitions kept, one line is logged per category, and nothing else of
    the interface changes; when [parse] raises, or the link selector cannot
    be read, the error leaves [_parse_catalog] with the interface as it
    was. *)
Theorem parse_catalog_flattens_the_mapping
        (urls : list string) (self : t) (w : list request) :
  (forall ls res p' w',
     get_link_selector (config self) = Ret ls ->
     CatalogParser.parse (CatalogParser.__init__ (UrlList urls) ls (auth self)) w
     = (Ret res, p', w') ->
     exists s',
       _parse_catalog urls self w = (Ret (concat (map snd res)), s', w')
       /\ config s' = config self /\ auth s' = auth self
       /\ session_state s' = session_state self
       /\ st_errors s' = st_errors self
       /\ StreamlitLogger.logs (logger s')
          = (StreamlitLogger.logs (logger self)
             ++ map (fun kv =>
                       ("[" ++ str_upper "info" ++ "] Категория '" ++ fst kv
                        ++ "': " ++ str_nat (List.length (snd kv))
                        ++ " товаров")%string) res)%list)
  /\ (forall ls e p' w',
        get_link_selector (config self) = Ret ls ->
        CatalogParser.parse
          (CatalogParser.__init__ (UrlList urls) ls (auth self)) w
        = (Raise e, p', w') ->
        _parse_catalog urls self w = (Raise e, self, w'))
  /\ (forall e, get_link_selector (config self) = Raise e ->
                _parse_catalog urls self w = (Raise e, self, w)).
Proof. apply parse_catalog_flattens_helper. Qed.

Lemma start_prelude_unfold (self : t) (w : list request) :
  start_prelude self w = (Ret tt, started self, w).
Proof. reflexivity. Qed.

(** [_parse_catalog], read backwards. *)
Lemma parse_catalog_returned (urls : list string) (self : t)
      (w : list request) (product_urls : list string) (s' : t)
      (w' : list request) :
  _parse_catalog urls self w = (Ret product_urls, s', w') ->
  exists ls res p',
    get_link_selector (config self) = Ret ls
    /\ CatalogParser.parse
         (CatalogParser.__init__ (UrlList urls) ls (auth self)) w
       = (Ret res, p', w')
    /\ product_urls = concat (map snd res)
    /\ session_state s' = session_state self
    /\ st_errors s' = st_errors self
    /\ auth s' = auth self.
Proof.
  intros Hrun.
  destruct (parse_catalog_flattens_helper urls self w) as (Hret & Hraise & Hcfg).
  destruct (get_link_selector (config self)) as [ls|e] eqn:Hls.
  - destruct (CatalogParser.parse
                (CatalogParser.__init__ (UrlList urls) ls (auth self)) w)
      as [[[res|e] p'] w1] eqn:Hparse.
    + destruct (Hret ls res p' w1 eq_refl Hparse)
        as (s1 & Hrun1 & _ & Hauth & Hss & Herr & _).
      rewrite Hrun1 in Hrun. inversion Hrun; subst.
      exists ls, res, p'. repeat split; auto.
    + rewrite (Hraise ls e p' w1 eq_refl Hparse) in Hrun. discriminate.
  - rewrite (Hcfg e eq_refl) in Hrun. discriminate.
Qed.

(** A [try] whose handler returns, followed by the [finally] that clears
    [parsing]. *)
Lemma try_finally_returns (m : M t unit) (handler : exn -> M t unit) :
  (forall e s w, exists s' w', handler e s w = (Ret tt, s', w')) ->
  forall s w, exists s' w',
    (try_except_as m handler ;;; set_parsing false) s w = (Ret tt, s', w')
    /\ parsing (session_state s') = false.
Proof.
  intros Hh s w. unfold bind, try_except_as.
  destruct (m s w) as [[[[]|e] s1] w1].
  - eexists _, _. split; reflexivity.
  - destruct (Hh e s1 w1) as (s2 & w2 & H2). rewrite H2.
    eexists _, _. split; reflexivity.
Qed.

(** X18.  The branch of the start button never raises: whatever the
    parsers, the configuration and the network do, every exception ends in
    the [except] of that branch, and the [finally] leaves [parsing] false.
    Without a click or without urls the branch does nothing at all. *)
Theorem run_start_never_raises
        (start_btn : bool) (link_type : string) (input_urls : list string)
        (self : t) (w : list request) :
  exists s' w',
    run_start start_btn link_type input_urls self w = (Ret tt, s', w')
    /\ (start_btn = true -> input_urls <> [] ->
        parsing (session_state s') = false)
    /\ (start_btn = false \/ input_urls = [] -> s' = self /\ w' = w).
Proof.
  unfold run_start.
  destruct start_btn; [destruct input_urls as [|u us]|];
    cbn [andb negb List.length Nat.eqb].
  - exists self, w. repeat split; auto. contradiction.
  - unfold bind at 1. rewrite start_prelude_unfold.
    destruct (try_finally_returns
                (start_body link_type (u :: us))
                (fun e => log ("Критическая ошибка: " ++ exn_str e) "error" ;;;
                          st_error RUN_FAILED)
                ltac:(intros; eexists _, _; reflexivity)
                (started self) w) as (s' & w' & Hrun & Hp).
    exists s', w'. split; [exact Hrun|]. split; [auto|].
    intros [H|H]; discriminate.
  - exists self, w. repeat split; auto. discriminate.
Qed.

(** X19.  In catalog mode, when the catalog pass finds no product link, the
    page pass is not started: the only calls sent are the ones of the
    catalog pass, one per catalog url, the table of the session stays as it
    was, one message tells that no links were found, and nothing is logged
    as an error.  So [PageParser.parse] is never run on an empty url
    list from here. *)
Theorem run_start_without_links_starts_no_page_pass
        (input_urls : list string) (self : t) (w : list request)
        (s1 : t) (w1 : list request) :
  input_urls <> [] ->
  (log "Начат парсинг каталога..." "info" ;;; _parse_catalog input_urls)
    (started self) w
  = (Ret [], s1, w1) ->
  exists s',
    run_start true InputManager.CATALOG input_urls self w = (Ret tt, s', w1)
    /\ w1 = (w ++ map (Spec.request_for (auth self) (Some 10)) input_urls)%list
    /\ df (session_state s') = df (session_state self)
    /\ parsing (session_state s') = false
    /\ st_errors s' = (st_errors self ++ [NO_LINKS])%list
    /\ logger s' = logger s1.
Proof.
  intros Hne Hcat. unfold run_start.
  destruct input_urls as [|u us]; [contradiction|].
  cbn [andb negb List.length Nat.eqb].
  unfold bind at 1. rewrite start_prelude_unfold.
  unfold bind at 1, try_except_as, start_body.
  rewrite String.eqb_refl.
  assert (Hbody :
    (log "Начат парсинг каталога..." "info" ;;;
     (product_urls <- _parse_catalog (u :: us) ;;
      (if Nat.eqb (List.length product_urls) 0
       then st_error NO_LINKS ;;; set_parsing false
       else
         log ("Всего товаров для парсинга: "
              ++ str_nat (List.length product_urls)) "info" ;;;
         (d <- _parse_products product_urls ;;
          set_df d ;;; log "Парсинг успешно завершен!" "success"))))
      (started self) w
    = (Ret tt,
       set_session {| df := df (session_state (add_error NO_LINKS s1));
                      parsing := false;
                      stop_requested :=
                        stop_requested (session_state (add_error NO_LINKS s1)) |}
                   (add_error NO_LINKS s1), w1)).
  { unfold bind at 1 in Hcat. unfold bind at 1.
    destruct (log "Начат парсинг каталога..." "info" (started self) w)
      as [[[[]|e] s0] w0]; [|discriminate].
    unfold bind at 1. rewrite Hcat. reflexivity. }
  rewrite Hbody. clear Hbody.
  unfold bind at 1 in Hcat. unfold log at 1 in Hcat.
  apply parse_catalog_returned in Hcat
    as (ls & res & p' & Hls & Hparse & Hpu & Hss & Herr & Hauth).
  apply catalog_parse_calls in Hparse.
  eexists. split; [reflexivity|].
  cbn [set_session add_error session_state df parsing st_errors logger
       set_parsing] in *.
  rewrite Hss, Herr. cbn. repeat split. exact Hparse.
Qed.

End InterfaceFacts.

(* ===================================================================== *)
(** ** The further statements at work on the fixtures                    *)
(* ===================================================================== *)

Section MoreDemoFacts.
Import Py Requests Bs4.

(** X3 at work: the second listing of the catalog page overwrites the
    first, two keys for three urls. *)
Lemma catalog_result_last_write_wins_witness :
  exists res s' w',
    DemoUi.catalog_run = (Ret res, s', w')
    /\ unique_keys res = true
    /\ (List.length res <= 3)%nat
    /\ res = [("Mills", ["https://example.com/a/c.html";
                         "https://example.com/x"; "https://other.com/y"]);
              (Demo.p2, [])].
Proof.
  destruct DemoUi.catalog_run as [[[res|e] s'] w'] eqn:Hrun.
  - exists res, s', w'. split; [reflexivity|].
    destruct (@catalog_result_last_write_wins Demo.online Demo.html
                (CatalogParser.__init__
                   (UrlList [Demo.catalog_url; Demo.p2; Demo.catalog_url])
                   ".item" None) [] res s' w' Hrun)
      as (entries & _ & _ & _ & _ & Hu & Hl & _).
    split; [exact (Hu eq_refl)|]. split; [exact Hl|].
    vm_compute in Hrun. inversion Hrun. reflexivity.
  - vm_compute in Hrun. discriminate Hrun.
Defined.

(** X4 at work: the second of three urls is rejected with [ValueError]; the
    object keeps the entry of the first, the catalog page with its links. *)
Lemma catalog_run_stops_at_uncaught_error_witness :
  exists entries,
    @CatalogParser.parse DemoUi.strict Demo.html
      (CatalogParser.__init__
         (UrlList [Demo.catalog_url; DemoUi.bad_url; Demo.p1]) ".item" None) []
    = (Raise ValueError,
       CatalogParser.set_result (Spec.written entries [])
         (CatalogParser.__init__
            (UrlList [Demo.catalog_url; DemoUi.bad_url; Demo.p1]) ".item" None),
       map (Spec.request_for None (Some 10)) [Demo.catalog_url; DemoUi.bad_url])
    /\ entries = [("Mills", ["https://example.com/a/c.html";
                             "https://example.com/x"; "https://other.com/y"])].
Proof.
  destruct (@catalog_run_stops_at_uncaught_error DemoUi.strict Demo.html
              (CatalogParser.__init__
                 (UrlList [Demo.catalog_url; DemoUi.bad_url; Demo.p1])
                 ".item" None)
              [] 1%nat DemoUi.bad_url ValueError eq_refl)
    as (entries & Hrun & Hlen & Htie).
  - intros j y Hj Hy. destruct j as [|j]; [|lia].
    inversion Hy; subst y. reflexivity.
  - reflexivity.
  - reflexivity.
  - exists entries. split; [exact Hrun|].
    destruct (Htie 0%nat Demo.catalog_url ltac:(lia) eq_refl)
      as (kv & Hkv & Hent).
    vm_compute in Hent. inversion Hent; subst kv.
    destruct entries as [|kv [|kv' entries]]; try discriminate Hlen.
    cbn in Hkv. now inversion Hkv.
Defined.

(** X5 at work: the second url is the first whose page is read, and the
    selector that does not compile ends the run there. *)
Lemma page_run_stops_at_uncaught_error_witness :
  exists recs s',
    @PageParser.parse Demo.online Demo.html Demo.pandas3
      (PageParser.__init__ (UrlList [Demo.p2; Demo.p1; Demo.p3])
                           DemoUi.bad_selectors None) []
    = (Raise SelectorSyntaxError, s',
       map (Spec.request_for None None) [Demo.p2; Demo.p1])
    /\ PageParser.data s' = recs
    /\ List.length recs = 1%nat.
Proof.
  destruct (@page_run_stops_at_uncaught_error Demo.online Demo.html
              Demo.pandas3
              [Demo.p2; Demo.p1; Demo.p3] DemoUi.bad_selectors None []
              1%nat Demo.p1 SelectorSyntaxError eq_refl)
    as (recs & s' & Hrun & Hdata & Hlen & _).
  - intros j y Hj Hy. destruct j as [|j]; [|lia].
    inversion Hy; subst y. reflexivity.
  - reflexivity.
  - exists recs, s'. auto.
Defined.

(** X6 at work on the url the client rejects. *)
Lemma value_error_caught_by_page_parser_only_witness :
  @PageParser.parse_url DemoUi.strict Demo.html DemoUi.bad_url
    (PageParser.__init__ (OneUrl DemoUi.bad_url) Demo.selectors None) []
  = (Ret tt,
     PageParser.set_data
       [Spec.empty_row Demo.selectors DemoUi.bad_url]
       (PageParser.__init__ (OneUrl DemoUi.bad_url) Demo.selectors None),
     [Spec.request_for None None DemoUi.bad_url])
  /\ @CatalogParser.parse_url DemoUi.strict Demo.html DemoUi.bad_url
       (CatalogParser.__init__ (OneUrl DemoUi.bad_url) ".item" None) []
     = (Raise ValueError,
        CatalogParser.__init__ (OneUrl DemoUi.bad_url) ".item" None,
        [Spec.request_for None (Some 10) DemoUi.bad_url]).
Proof.
  destruct (@value_error_caught_by_page_parser_only DemoUi.strict Demo.html
              DemoUi.bad_url
              (CatalogParser.__init__ (OneUrl DemoUi.bad_url) ".item" None)
              (PageParser.__init__ (OneUrl DemoUi.bad_url) Demo.selectors None)
              [] ValueError) as [Hp Hc].
  split; [exact (Hp eq_refl eq_refl) | exact (Hc eq_refl eq_refl)].
Defined.

(** X7 at work on the run of the fixtures: the row of the url that timed
    out, as pandas 3 and as pandas 2 store it. *)
Lemma table_columns_are_the_fields_witness :
  (exists df s' w',
     Demo.page_run Demo.pandas3 = (Ret df, s', w')
     /\ Pandas.columns df = ["Title"; "Price"]
     /\ nth_error (Pandas.rows df) 1 = Some [Pandas.NaN; Pandas.NaN])
  /\ (exists df s' w',
        Demo.page_run Demo.pandas2 = (Ret df, s', w')
        /\ Pandas.columns df = ["Title"; "Price"]
        /\ nth_error (Pandas.rows df) 1
           = Some [Pandas.Value None; Pandas.Value None]).
Proof.
  split.
  - destruct (Demo.page_run Demo.pandas3) as [[[df|e] s'] w'] eqn:Hrun.
    + exists df, s', w'. split; [reflexivity|].
      destruct (@table_columns_are_the_fields Demo.online Demo.html
                  Demo.pandas3 [Demo.p1; Demo.p2; Demo.p3] Demo.selectors
                  None [] df s' w' Hrun eq_refl demo_no_url_field)
        as (Hcols & _ & Hrows & _).
      split; [exact Hcols|].
      vm_compute in Hrun. inversion Hrun; subst df s' w'.
      exact (proj2 (Hrows 1%nat _ eq_refl)).
    + vm_compute in Hrun. discriminate Hrun.
  - destruct (Demo.page_run Demo.pandas2) as [[[df|e] s'] w'] eqn:Hrun.
    + exists df, s', w'. split; [reflexivity|].
      destruct (@table_columns_are_the_fields Demo.online Demo.html
                  Demo.pandas2 [Demo.p1; Demo.p2; Demo.p3] Demo.selectors
                  None [] df s' w' Hrun eq_refl demo_no_url_field)
        as (Hcols & _ & Hrows & _).
      split; [exact Hcols|].
      vm_compute in Hrun. inversion Hrun; subst df s' w'.
      exact (proj2 (Hrows 1%nat _ eq_refl)).
    + vm_compute in Hrun. discriminate Hrun.
Defined.

(** X8 at work: a second [parse] on the same object returns six rows for
    three urls. *)
Lemma parse_keeps_earlier_rows_witness :
  exists df s' w',
    DemoUi.page_rerun = (Ret df, s', w')
    /\ List.length (Pandas.rows df) = 6%nat.
Proof.
  destruct DemoUi.page_rerun as [[[df|e] s'] w'] eqn:Hrun.
  - exists df, s', w'. split; [reflexivity|].
    exact (proj1 (@parse_keeps_earlier_rows Demo.online Demo.html Demo.pandas2
                    (snd (fst (Demo.page_run Demo.pandas2)))
                    (snd (Demo.page_run Demo.pandas2))
                    df s' w' Hrun)).
  - vm_compute in Hrun. discriminate Hrun.
Defined.

(** X1 at work: a caller that passes an Accept header and a User-Agent in
    lower case, and a caller that passes [headers=None]. *)
Lemma get_keeps_caller_headers_witness :
  (exists rq,
     snd (@CNC1Auth.get Demo.online Demo.p1
            {| CNC1Auth.kw_headers :=
                 Some (Some [("Accept", "text/html"); ("user-agent", "mine")]);
               CNC1Auth.kw_timeout := Some 5 |}
            Demo.logged_in [])
     = [rq]
     /\ r_timeout rq = Some 5
     /\ dict_get (r_headers rq) "User-Agent" = Some CNC1Auth.USER_AGENT
     /\ dict_get (r_headers rq) "user-agent" = Some "mine"
     /\ dict_get (r_headers rq) "Accept" = Some "text/html"
     /\ dict_get (r_headers rq) "Referer" = None)
  /\ @CNC1Auth.get Demo.online Demo.p1
       {| CNC1Auth.kw_headers := Some None; CNC1Auth.kw_timeout := None |}
       Demo.logged_in []
     = (Raise AttributeError, Demo.logged_in, []).
Proof.
  split.
  - destruct (proj1 (@get_keeps_caller_headers Demo.online Demo.p1
                       {| CNC1Auth.kw_headers :=
                            Some (Some [("Accept", "text/html");
                                        ("user-agent", "mine")]);
                          CNC1Auth.kw_timeout := Some 5 |}
                       Demo.logged_in [] eq_refl) _ eq_refl)
      as (rq & Hw & _ & Ht & Hua & Hother).
    exists rq. split; [exact Hw|]. split; [exact Ht|]. split; [exact Hua|].
    split; [exact (Hother "user-agent" ltac:(discriminate))|].
    split; [exact (Hother "Accept" ltac:(discriminate))
           | exact (Hother "Referer" ltac:(discriminate))].
  - exact (proj2 (@get_keeps_caller_headers Demo.online Demo.p1
                    {| CNC1Auth.kw_headers := Some None;
                       CNC1Auth.kw_timeout := None |}
                    Demo.logged_in [] eq_refl) eq_refl).
Defined.

(** X2 at work: fetches and queries before any login. *)
Lemma no_login_no_network_witness :
  @CNC1Auth.run Demo.online
    [CNC1Auth.Get Demo.p1 CNC1Auth.no_kwargs; CNC1Auth.IsAuthenticated;
     CNC1Auth.GetSession; CNC1Auth.Get Demo.p2 CNC1Auth.no_kwargs]
    Demo.user []
  = (Demo.user, []).
Proof.
  apply (@no_login_no_network Demo.online); [reflexivity|].
  intros o [<-|[<-|[<-|[<-|[]]]]]; discriminate.
Defined.

(** X10 at work: a file with credentials and settings, no selectors. *)
Lemma getters_raise_only_on_non_objects_witness :
  returns (ConfigReader.get_auth_credentials DemoUi.file) = true
  /\ returns (ConfigReader.get_selectors DemoUi.file) = true
  /\ ConfigReader.get_auth_credentials
       {| ConfigReader.config_path := "config.json";
          ConfigReader.config_data := ConfigReader.JList [] |}
     = Raise ConfigReader.AttributeError.
Proof.
  destruct (proj1 (getters_raise_only_on_non_objects DemoUi.file) _ eq_refl)
    as (Ha & _ & Hs & _).
  split; [exact Ha|]. split; [exact Hs|].
  apply (proj1 (proj2 (getters_raise_only_on_non_objects
                         {| ConfigReader.config_path := "config.json";
                            ConfigReader.config_data := ConfigReader.JList [] |}))).
  intros d H. discriminate H.
Defined.

(** X11 at work on the text of the fixtures. *)
Lemma get_urls_returns_http_urls_witness :
  String.prefix "http://" "http://c.test/?q=1" = true
  \/ String.prefix "https://" "http://c.test/?q=1" = true.
Proof.
  apply (get_urls_returns_http_urls "Карточки товаров" DemoUi.typed).
  vm_compute. auto.
Defined.

(** X12 at work. *)
Lemma get_urls_catalog_marks_once_witness :
  InputManager.validate InputManager.CATALOG
    (fst (InputManager.get_urls InputManager.CATALOG DemoUi.typed))
  = (fst (InputManager.get_urls InputManager.CATALOG DemoUi.typed), [])
  /\ contains InputManager.SHOWALL "https://a.test/1?SHOWALL_1=1" = true.
Proof.
  destruct (get_urls_catalog_marks_once DemoUi.typed) as [Hmark Hidem].
  split; [exact Hidem|].
  apply (Hmark "https://a.test/1?SHOWALL_1=1"). vm_compute. auto.
Defined.


(** X14 at work: two entries, both shown. *)
Lemma logger_shows_last_twenty_witness :
  exists older shown,
    StreamlitLogger.logs
      (fold_left (fun acc m => @StreamlitLogger.log DemoUi.text (fst m) (snd m) acc)
                 [("start", "info"); ("done", "success")]
                 (StreamlitLogger.clear StreamlitLogger.__init__))
    = (older ++ shown)%list
    /\ List.length shown = 2%nat.
Proof.
  destruct (proj2 (proj2 (@logger_shows_last_twenty DemoUi.text
                            [("start", "info"); ("done", "success")]
                            StreamlitLogger.__init__))
                  ltac:(discriminate))
    as (older & shown & Hlogs & Hlen & _).
  exists older, shown. split; [exact Hlogs | exact Hlen].
Defined.

(** X15 at work: one article number and one missing one. *)
Lemma normalize_touches_only_article_cells_witness :
  exists row',
    nth_error (Pandas.rows (WebInterface._normalize_article DemoUi.articles)) 0
    = Some row'
    /\ nth_error row' 1 = Some (Pandas.Value (Some "123-A-7"))
    /\ nth_error row' 0 = Some (Pandas.Value (Some "Widget")).
Proof.
  destruct (normalize_touches_only_article_cells DemoUi.articles)
    as (_ & _ & _ & Hrows & _).
  destruct (Hrows 0%nat _ eq_refl) as (row' & Hrow & _ & Hcells).
  exists row'. split; [exact Hrow|].
  split; [exact (Hcells 1%nat _ eq_refl) | exact (Hcells 0%nat _ eq_refl)].
Defined.

(** X16 at work: the right password, and no password at all. *)
Lemma init_auth_never_raises_witness :
  (exists r s' w',
     @WebInterface._init_auth Demo.offline DemoUi.text
       (DemoUi.app "secret" None) []
     = (Ret r, s', w'))
  /\ (exists r s' w',
        @WebInterface._init_auth Demo.online DemoUi.text
          (DemoUi.app "" None) []
        = (Ret r, s', w')
        /\ r = None /\ w' = []).
Proof.
  split.
  - destruct (@init_auth_never_raises Demo.offline DemoUi.text
                (DemoUi.app "secret" None) [])
      as (r & s' & w' & Hrun & _).
    now exists r, s', w'.
  - destruct (@init_auth_never_raises Demo.online DemoUi.text
                (DemoUi.app "" None) [])
      as (r & s' & w' & Hrun & _ & _ & _ & _ & _ & Hempty & _).
    destruct (Hempty "user@x.test" "" eq_refl (or_intror eq_refl))
      as (Hr & _ & Hw).
    exists r, s', w'. auto.
Defined.

(** X17 at work on the catalog page of the fixtures. *)
Lemma parse_catalog_flattens_the_mapping_witness :
  exists s' w',
    @WebInterface._parse_catalog Demo.online Demo.html DemoUi.text
      [Demo.catalog_url; Demo.p2] (DemoUi.app "secret" None) []
    = (Ret ["https://example.com/a/c.html"; "https://example.com/x";
            "https://other.com/y"], s', w').
Proof.
  destruct (@CatalogParser.parse Demo.online Demo.html
              (CatalogParser.__init__ (UrlList [Demo.catalog_url; Demo.p2])
                                      ".item" None) [])
    as [[[res|e] p'] w'] eqn:Hparse.
  - destruct (proj1 (@parse_catalog_flattens_the_mapping Demo.online Demo.html
                       DemoUi.text [Demo.catalog_url; Demo.p2]
                       (DemoUi.app "secret" None) [])
                    ".item" res p' w' eq_refl Hparse)
      as (s' & Hrun & _).
    exists s', w'. rewrite Hrun. vm_compute in Hparse.
    inversion Hparse; subst. reflexivity.
  - vm_compute in Hparse. discriminate Hparse.
Defined.

(** X18 at work without connectivity. *)
Lemma run_start_never_raises_witness :
  exists s' w',
    @WebInterface.run_start Demo.offline Demo.html Demo.pandas3 DemoUi.text
      true
      "Карточки товаров" [Demo.p1] (DemoUi.app "secret" None) []
    = (Ret tt, s', w')
    /\ WebInterface.parsing (WebInterface.session_state s') = false.
Proof.
  destruct (@run_start_never_raises Demo.offline Demo.html Demo.pandas3
              DemoUi.text true
              "Карточки товаров" [Demo.p1] (DemoUi.app "secret" None) [])
    as (s' & w' & Hrun & Hp & _).
  exists s', w'. split; [exact Hrun|]. apply Hp; [reflexivity | discriminate].
Defined.

(** X19 at work: the only catalog url times out. *)
Lemma run_start_without_links_starts_no_page_pass_witness :
  exists s',
    @WebInterface.run_start Demo.online Demo.html Demo.pandas3 DemoUi.text
      true
      InputManager.CATALOG [Demo.p2] (DemoUi.app "secret" None) []
    = (Ret tt, s', [Spec.request_for None (Some 10) Demo.p2])
    /\ WebInterface.st_errors s' = [WebInterface.NO_LINKS].
Proof.
  destruct ((@WebInterface.log DemoUi.text "Начат парсинг каталога..." "info"
             ;;; @WebInterface._parse_catalog Demo.online Demo.html DemoUi.text
                   [Demo.p2])
              (WebInterface.started (DemoUi.app "secret" None)) [])
    as [[[pu|e] s1] w1] eqn:Hcat.
  - assert (Hpu : pu = [] /\ w1 = [Spec.request_for None (Some 10) Demo.p2]).
    { vm_compute in Hcat. inversion Hcat; subst. split; reflexivity. }
    destruct Hpu as [-> ->].
    destruct (@run_start_without_links_starts_no_page_pass Demo.online
                Demo.html Demo.pandas3 DemoUi.text [Demo.p2] (DemoUi.app "secret" None) []
                s1 _ ltac:(discriminate) Hcat)
      as (s' & Hrun & _ & _ & _ & Herr & _).
    exists s'. split; [exact Hrun | exact Herr].
  - vm_compute in Hcat. discriminate Hcat.
Defined.

End MoreDemoFacts.
